(** * DCLoadUtils: the endurance-test controller of [endurance_test.py]

    A shallow embedding of [EnduranceTestController]: the current
    interpolator, the instrument channel ([safe_write], [safe_query],
    [safe_measure], [safe_set_current]) and the test loop with its
    voltage-cutoff monitor.

    In the control flow (the channel, the loop, the cutoff monitor)
    Python floats are embedded as real numbers ([R]): sums, products,
    quotients and square roots are exact, and comparisons are the order
    of [R].  Instants ([time.time()], [datetime.now()]) are seconds on
    one clock, and a difference of two [datetime] values followed by
    [total_seconds()] is the difference of the two instants.

    Where the rounding of double-precision arithmetic decides the
    result, in the value the interpolator returns and in the acceptance
    test of [safe_set_current], the module [Double] embeds the same
    functions on binary64 values, and the statements about these
    results are made there.

    The methods thread two values: the controller object ([Controller],
    the attributes of [self]) and the environment ([Env]: the clock, the
    instrument, what went on the wire, what was printed and logged).  The
    clock moves with [time.sleep] and with the latency of each call to
    the instrument; an exception of [pyvisa] is the outcome [VisaError]
    of a call.  The GUI and the plot buffers are left out. *)

From Stdlib Require Import String.
From Stdlib Require Import Reals Lra Lia List Bool Arith PeanoNat.
From Stdlib Require Import Sorted.
From Stdlib Require Floats.
Import ListNotations.

Set Warnings "-inexact-float".
Local Open Scope R_scope.

(** ** Comparisons and the numpy reductions the code calls *)

Definition Rltb (x y : R) : bool := if Rlt_dec x y then true else false.
Definition Rleb (x y : R) : bool := if Rle_dec x y then true else false.

(** [np.sum], [np.mean], [np.max] and [np.average(a, weights=w)] on a
    one-dimensional array. *)
Definition np_sum (a : list R) : R := fold_right Rplus 0 a.

Definition np_mean (a : list R) : R := np_sum a / INR (length a).

Definition np_max (a : list R) : R :=
  match a with
  | [] => 0
  | x :: t => fold_left Rmax t x
  end.

Fixpoint np_mul (a w : list R) : list R :=
  match a, w with
  | x :: a', y :: w' => x * y :: np_mul a' w'
  | _, _ => []
  end.

Definition np_average (a w : list R) : R := np_sum (np_mul a w) / np_sum w.

Definition np_square (a : list R) : list R := map (fun x => x * x) a.

(** ** The controller object *)

(** The attributes of [EnduranceTestController] that the channel, the
    interpolator and the test loop read or write.  [instrument] is
    [true] when [self.instrument] holds an open resource. *)
Record Controller := mkController {
  instrument : bool;
  last_measurement_time : R;
  measurement_interval : R;
  last_command_time : R;
  command_interval : R;
  max_retries : nat;
  last_valid_voltage : R;
  last_valid_current : R;
  last_measurement_success_time : option R;
  measurement_timeout_threshold : R;
  test_data : list R;
  test_running : bool;
  current_row : nat;
  start_time : option R;
  interpolation_method : string;
  voltage_cutoff : R;
  max_current : R;
  min_current : R;
  target_current : R;
  test_progress : R;
  voltage_below_cutoff_time : option R;
  voltage_cutoff_buffer : R
}.

(** [__init__]: no instrument, no data, cache 3.7 V / 0 A. *)
Definition init : Controller := {|
  instrument := false;
  last_measurement_time := 0;
  measurement_interval := 2;
  last_command_time := 0;
  command_interval := 0.3;
  max_retries := 3;
  last_valid_voltage := 3.7;
  last_valid_current := 0;
  last_measurement_success_time := None;
  measurement_timeout_threshold := 10;
  test_data := [];
  test_running := false;
  current_row := 0;
  start_time := None;
  interpolation_method := "rms";
  voltage_cutoff := 2.75;
  max_current := 40;
  min_current := 0;
  target_current := 0;
  test_progress := 0;
  voltage_below_cutoff_time := None;
  voltage_cutoff_buffer := 1
|}.

(** Attribute assignments [self.f = v]. *)
Definition set_instrument (v : bool) (c : Controller) : Controller :=
  mkController
    v (last_measurement_time c) (measurement_interval c)
    (last_command_time c) (command_interval c) (max_retries c)
    (last_valid_voltage c) (last_valid_current c)
    (last_measurement_success_time c) (measurement_timeout_threshold c)
    (test_data c) (test_running c) (current_row c) (start_time c)
    (interpolation_method c) (voltage_cutoff c) (max_current c)
    (min_current c) (target_current c) (test_progress c)
    (voltage_below_cutoff_time c) (voltage_cutoff_buffer c).

Definition set_test_data (v : list R) (c : Controller) : Controller :=
  mkController
    (instrument c) (last_measurement_time c) (measurement_interval c)
    (last_command_time c) (command_interval c) (max_retries c)
    (last_valid_voltage c) (last_valid_current c)
    (last_measurement_success_time c) (measurement_timeout_threshold c) v
    (test_running c) (current_row c) (start_time c) (interpolation_method
    c) (voltage_cutoff c) (max_current c) (min_current c) (target_current
    c) (test_progress c) (voltage_below_cutoff_time c)
    (voltage_cutoff_buffer c).

Definition set_interpolation_method (v : string) (c : Controller) : Controller :=
  mkController
    (instrument c) (last_measurement_time c) (measurement_interval c)
    (last_command_time c) (command_interval c) (max_retries c)
    (last_valid_voltage c) (last_valid_current c)
    (last_measurement_success_time c) (measurement_timeout_threshold c)
    (test_data c) (test_running c) (current_row c) (start_time c) v
    (voltage_cutoff c) (max_current c) (min_current c) (target_current c)
    (test_progress c) (voltage_below_cutoff_time c) (voltage_cutoff_buffer
    c).

Definition set_voltage_cutoff (v : R) (c : Controller) : Controller :=
  mkController
    (instrument c) (last_measurement_time c) (measurement_interval c)
    (last_command_time c) (command_interval c) (max_retries c)
    (last_valid_voltage c) (last_valid_current c)
    (last_measurement_success_time c) (measurement_timeout_threshold c)
    (test_data c) (test_running c) (current_row c) (start_time c)
    (interpolation_method c) v (max_current c) (min_current c)
    (target_current c) (test_progress c) (voltage_below_cutoff_time c)
    (voltage_cutoff_buffer c).

Definition set_last_command_time (v : R) (c : Controller) : Controller :=
  mkController
    (instrument c) (last_measurement_time c) (measurement_interval c) v
    (command_interval c) (max_retries c) (last_valid_voltage c)
    (last_valid_current c) (last_measurement_success_time c)
    (measurement_timeout_threshold c) (test_data c) (test_running c)
    (current_row c) (start_time c) (interpolation_method c)
    (voltage_cutoff c) (max_current c) (min_current c) (target_current c)
    (test_progress c) (voltage_below_cutoff_time c) (voltage_cutoff_buffer
    c).

Definition set_last_measurement_time (v : R) (c : Controller) : Controller :=
  mkController
    (instrument c) v (measurement_interval c) (last_command_time c)
    (command_interval c) (max_retries c) (last_valid_voltage c)
    (last_valid_current c) (last_measurement_success_time c)
    (measurement_timeout_threshold c) (test_data c) (test_running c)
    (current_row c) (start_time c) (interpolation_method c)
    (voltage_cutoff c) (max_current c) (min_current c) (target_current c)
    (test_progress c) (voltage_below_cutoff_time c) (voltage_cutoff_buffer
    c).

Definition set_last_valid_voltage (v : R) (c : Controller) : Controller :=
  mkController
    (instrument c) (last_measurement_time c) (measurement_interval c)
    (last_command_time c) (command_interval c) (max_retries c) v
    (last_valid_current c) (last_measurement_success_time c)
    (measurement_timeout_threshold c) (test_data c) (test_running c)
    (current_row c) (start_time c) (interpolation_method c)
    (voltage_cutoff c) (max_current c) (min_current c) (target_current c)
    (test_progress c) (voltage_below_cutoff_time c) (voltage_cutoff_buffer
    c).

Definition set_last_valid_current (v : R) (c : Controller) : Controller :=
  mkController
    (instrument c) (last_measurement_time c) (measurement_interval c)
    (last_command_time c) (command_interval c) (max_retries c)
    (last_valid_voltage c) v (last_measurement_success_time c)
    (measurement_timeout_threshold c) (test_data c) (test_running c)
    (current_row c) (start_time c) (interpolation_method c)
    (voltage_cutoff c) (max_current c) (min_current c) (target_current c)
    (test_progress c) (voltage_below_cutoff_time c) (voltage_cutoff_buffer
    c).

Definition set_last_measurement_success_time (v : option R) (c : Controller) : Controller :=
  mkController
    (instrument c) (last_measurement_time c) (measurement_interval c)
    (last_command_time c) (command_interval c) (max_retries c)
    (last_valid_voltage c) (last_valid_current c) v
    (measurement_timeout_threshold c) (test_data c) (test_running c)
    (current_row c) (start_time c) (interpolation_method c)
    (voltage_cutoff c) (max_current c) (min_current c) (target_current c)
    (test_progress c) (voltage_below_cutoff_time c) (voltage_cutoff_buffer
    c).

Definition set_test_running (v : bool) (c : Controller) : Controller :=
  mkController
    (instrument c) (last_measurement_time c) (measurement_interval c)
    (last_command_time c) (command_interval c) (max_retries c)
    (last_valid_voltage c) (last_valid_current c)
    (last_measurement_success_time c) (measurement_timeout_threshold c)
    (test_data c) v (current_row c) (start_time c) (interpolation_method
    c) (voltage_cutoff c) (max_current c) (min_current c) (target_current
    c) (test_progress c) (voltage_below_cutoff_time c)
    (voltage_cutoff_buffer c).

Definition set_current_row (v : nat) (c : Controller) : Controller :=
  mkController
    (instrument c) (last_measurement_time c) (measurement_interval c)
    (last_command_time c) (command_interval c) (max_retries c)
    (last_valid_voltage c) (last_valid_current c)
    (last_measurement_success_time c) (measurement_timeout_threshold c)
    (test_data c) (test_running c) v (start_time c) (interpolation_method
    c) (voltage_cutoff c) (max_current c) (min_current c) (target_current
    c) (test_progress c) (voltage_below_cutoff_time c)
    (voltage_cutoff_buffer c).

Definition set_start_time (v : option R) (c : Controller) : Controller :=
  mkController
    (instrument c) (last_measurement_time c) (measurement_interval c)
    (last_command_time c) (command_interval c) (max_retries c)
    (last_valid_voltage c) (last_valid_current c)
    (last_measurement_success_time c) (measurement_timeout_threshold c)
    (test_data c) (test_running c) (current_row c) v (interpolation_method
    c) (voltage_cutoff c) (max_current c) (min_current c) (target_current
    c) (test_progress c) (voltage_below_cutoff_time c)
    (voltage_cutoff_buffer c).

Definition set_target_current (v : R) (c : Controller) : Controller :=
  mkController
    (instrument c) (last_measurement_time c) (measurement_interval c)
    (last_command_time c) (command_interval c) (max_retries c)
    (last_valid_voltage c) (last_valid_current c)
    (last_measurement_success_time c) (measurement_timeout_threshold c)
    (test_data c) (test_running c) (current_row c) (start_time c)
    (interpolation_method c) (voltage_cutoff c) (max_current c)
    (min_current c) v (test_progress c) (voltage_below_cutoff_time c)
    (voltage_cutoff_buffer c).

Definition set_test_progress (v : R) (c : Controller) : Controller :=
  mkController
    (instrument c) (last_measurement_time c) (measurement_interval c)
    (last_command_time c) (command_interval c) (max_retries c)
    (last_valid_voltage c) (last_valid_current c)
    (last_measurement_success_time c) (measurement_timeout_threshold c)
    (test_data c) (test_running c) (current_row c) (start_time c)
    (interpolation_method c) (voltage_cutoff c) (max_current c)
    (min_current c) (target_current c) v (voltage_below_cutoff_time c)
    (voltage_cutoff_buffer c).

Definition set_voltage_below_cutoff_time (v : option R) (c : Controller) : Controller :=
  mkController
    (instrument c) (last_measurement_time c) (measurement_interval c)
    (last_command_time c) (command_interval c) (max_retries c)
    (last_valid_voltage c) (last_valid_current c)
    (last_measurement_success_time c) (measurement_timeout_threshold c)
    (test_data c) (test_running c) (current_row c) (start_time c)
    (interpolation_method c) (voltage_cutoff c) (max_current c)
    (min_current c) (target_current c) (test_progress c) v
    (voltage_cutoff_buffer c).

(** ** interpolate_current_window *)

(** The body of the [for raw_current in current_slice] loop: magnitude
    of a negative sample divided by 3, zero otherwise, then the clamp
    [max(self.min_current, min(self.max_current, processed_current))]. *)
Definition process_current (c : Controller) (raw_current : R) : R :=
  let processed_current :=
    if Rltb raw_current 0 then Rabs raw_current / 3 else 0 in
  Rmax (min_current c) (Rmin (max_current c) processed_current).

(** The function on real numbers, before any rounding; the loop takes
    its set point from it, and sends and logs it with three decimals.
    [Double.interpolate_current_window] is the function on doubles, and
    what is stated about the value returned is stated there. *)
Definition interpolate_current_window (c : Controller) (current_slice : list R) : R :=
  if (length current_slice =? 0)%nat then 0
  else
    let processed_currents := map (process_current c) current_slice in
    match processed_currents with
    | [] => 0
    | _ =>
      let currents := processed_currents in
      if (interpolation_method c =? "average")%string then
        np_mean currents
      else if (interpolation_method c =? "rms")%string then
        sqrt (np_mean (np_square currents))
      else if (interpolation_method c =? "weighted_avg")%string then
        let weights :=
          if Rltb 0 (np_sum currents)
          then map (fun x => x / np_sum currents) currents
          else map (fun _ => 1) currents in
        np_average currents weights
      else if (interpolation_method c =? "peak_aware")%string then
        let avg_current := np_mean currents in
        let max_current := np_max currents in
        0.7 * avg_current + 0.3 * max_current
      else if (interpolation_method c =? "energy_equiv")%string then
        if (0 <? length currents)%nat then
          let energy_sum := np_sum (np_square currents) in
          sqrt (energy_sum / INR (length currents))
        else 0
      else
        sqrt (np_mean (np_square currents))
    end.

(** The formula the specification gives for EnergyEquivalent, the square
    root of the sum of squares over n, to compare with the code. *)
Definition energy_equivalent_spec (x : list R) : R :=
  sqrt (fold_right (fun xi acc => xi * xi + acc) 0 x / INR (length x)).

(** ** The world outside the controller *)

(** What one call of [self.instrument.write] or [self.instrument.query]
    does: it raises (a VISA timeout or I/O error), or it returns.  A
    returned query carries the value [float(...)] parses from the reply
    text, [None] when [float] raises [ValueError] on it.  [latency] is
    the time the call takes. *)
Inductive Outcome :=
| VisaError
| Reply (value : option R).

Record Response := mkResponse { latency : R; outcome : Outcome }.

(** Command strings; the setpoint command
    [f":SOUR:CURR:LEV {current_value:.3f}"] keeps its value. *)
Inductive Command :=
| Scpi (text : string)
| SourCurrLev (current_value : R).

(** The calls of [self.log_message] in the embedded functions. *)
Inductive Message :=
| WriteRetry (attempt : nat) (command : Command)
| WriteFailed (command : Command)
| QueryRetry (attempt : nat) (command : Command)
| QueryFailed (command : Command)
| VoltageMeasurementRetry
| VoltageMeasurementFailed
| MeasurementTooLong
| CurrentMeasurementRetry
| CurrentMeasurementFailed
| InvalidReadings (voltage current : R)
| CurrentSetSuccessfully (current_value set_current : R)
| CurrentVerificationFailed (current_value set_current : R)
| CurrentVerificationError
| CurrentSettingRetry (attempt : nat)
| CurrentSettingFailed
| WindowInfo (row end_row : nat) (avg_current : R)
| FailedToSetCurrentLevel
| FailedToTurnOnLoad
| FailedToSetZeroCurrent
| VoltageBelowCutoff (voltage measurement_age : R)
| VoltageCutoffTriggered (voltage time_below measurement_age : R)
| VoltageRecovered (voltage : R)
| IgnoringVoltageCutoff (measurement_age : R)
| Progress (row total_rows : nat)
| TestCompleted
| TestStopped
| TestLoopError.

(** One row of the CSV log. *)
Record LogRow := mkLogRow {
  log_timestamp : R;
  log_elapsed_seconds : R;
  log_row : nat;
  log_target_current : R;
  log_measured_voltage : R;
  log_measured_current : R
}.

(** The environment: the clock, the instrument ([device n] is what its
    [n]-th call does), the commands transmitted so far with the instant
    of each, the lines printed by [log_message], the CSV log, and the
    instant at which the operator's thread runs [stop_test] (it clears
    [test_running] and sets [stop_event]). *)
Record Env := mkEnv {
  clock : R;
  device : nat -> Response;
  calls : nat;
  wire : list (R * Command);
  console : list Message;
  csv_log : list LogRow;
  stop_at : option R
}.

Definition time_sleep (seconds : R) (e : Env) : Env :=
  mkEnv (clock e + seconds) (device e) (calls e) (wire e) (console e)
        (csv_log e) (stop_at e).

Definition log_message (m : Message) (e : Env) : Env :=
  mkEnv (clock e) (device e) (calls e) (wire e) (console e ++ [m])
        (csv_log e) (stop_at e).

Definition writerow (r : LogRow) (e : Env) : Env :=
  mkEnv (clock e) (device e) (calls e) (wire e) (console e)
        (csv_log e ++ [r]) (stop_at e).

(** [self.instrument.write(command)] and [self.instrument.query(command)]:
    the command goes on the wire at the current instant, the call takes
    its latency, and its outcome is the device's. *)
Definition instrument_call (command : Command) (e : Env) : Outcome * Env :=
  let r := device e (calls e) in
  (outcome r,
   mkEnv (clock e + latency r) (device e) (S (calls e))
         (wire e ++ [(clock e, command)]) (console e) (csv_log e) (stop_at e)).

Definition stop_event_is_set (e : Env) : bool :=
  match stop_at e with
  | Some t => Rleb t (clock e)
  | None => false
  end.

(** ** safe_write and safe_query *)

(** The wait at the head of each attempt. *)
Definition command_gate (c : Controller) (e : Env) : Env :=
  let current_time := clock e in
  if Rltb (current_time - last_command_time c) (command_interval c)
  then time_sleep (command_interval c - (current_time - last_command_time c)) e
  else e.

(** [for attempt in range(self.max_retries)], [remaining] attempts left. *)
Fixpoint safe_write_loop (remaining attempt : nat) (command : Command)
    (c : Controller) (e : Env) : bool * Controller * Env :=
  match remaining with
  | O => (false, c, e)
  | S remaining' =>
    let '(out, e2) := instrument_call command (command_gate c e) in
    match out with
    | Reply _ => (true, set_last_command_time (clock e2) c, e2)
    | VisaError =>
      if (attempt <? max_retries c - 1)%nat then
        safe_write_loop remaining' (S attempt) command c
          (time_sleep (0.5 * (INR attempt + 1))
             (log_message (WriteRetry (attempt + 1) command) e2))
      else (false, c, log_message (WriteFailed command) e2)
    end
  end.

Definition safe_write (command : Command) (c : Controller) (e : Env)
    : bool * Controller * Env :=
  if negb (instrument c) then (false, c, e)
  else safe_write_loop (max_retries c) 0 command c e.

Fixpoint safe_query_loop (remaining attempt : nat) (command : Command)
    (c : Controller) (e : Env) : option (option R) * Controller * Env :=
  match remaining with
  | O => (None, c, e)
  | S remaining' =>
    let '(out, e2) := instrument_call command (command_gate c e) in
    match out with
    | Reply result => (Some result, set_last_command_time (clock e2) c, e2)
    | VisaError =>
      if (attempt <? max_retries c - 1)%nat then
        safe_query_loop remaining' (S attempt) command c
          (time_sleep (0.5 * (INR attempt + 1))
             (log_message (QueryRetry (attempt + 1) command) e2))
      else (None, c, log_message (QueryFailed command) e2)
    end
  end.

Definition safe_query (command : Command) (c : Controller) (e : Env)
    : option (option R) * Controller * Env :=
  if negb (instrument c) then (None, c, e)
  else safe_query_loop (max_retries c) 0 command c e.

(** ** safe_measure *)

(** [for attempt in range(2)]: query, parse with [float], stop at the
    first value; after a failure of the first attempt log and sleep
    0.5 s, after a failure of the second log and leave [None]. *)
Fixpoint measure_attempts (remaining attempt : nat) (command : Command)
    (retry failed : Message) (e : Env) : option R * Env :=
  match remaining with
  | O => (None, e)
  | S remaining' =>
    let '(out, e1) := instrument_call command e in
    match out with
    | Reply (Some value) => (Some value, e1)
    | _ =>
      if (attempt =? 0)%nat then
        measure_attempts remaining' (S attempt) command retry failed
          (time_sleep 0.5 (log_message retry e1))
      else
        measure_attempts remaining' (S attempt) command retry failed
          (log_message failed e1)
    end
  end.

(** The two polls of [safe_measure], two attempts each. *)
Definition poll_voltage (e : Env) : option R * Env :=
  measure_attempts 2 0 (Scpi ":MEAS:VOLT?")
    VoltageMeasurementRetry VoltageMeasurementFailed e.

Definition poll_current (e : Env) : option R * Env :=
  measure_attempts 2 0 (Scpi ":MEAS:CURR?")
    CurrentMeasurementRetry CurrentMeasurementFailed e.

Definition safe_measure (c : Controller) (e : Env) : (R * R) * Controller * Env :=
  let cached := (last_valid_voltage c, last_valid_current c) in
  if negb (instrument c) then (cached, c, e)
  else
    let current_time := clock e in
    if Rltb (current_time - last_measurement_time c) (measurement_interval c)
    then (cached, c, e)
    else
      let start_time := clock e in
      let '(voltage, e1) := poll_voltage e in
      if Rltb 5 (clock e1 - start_time)
      then (cached, c, log_message MeasurementTooLong e1)
      else
        let '(current, e2) := poll_current e1 in
        match voltage, current with
        | Some voltage, Some current =>
          if Rleb 0 voltage && Rleb voltage 50
             && Rleb 0 current && Rleb current 50
          then
            ((voltage, current),
             set_last_measurement_time (clock e2)
               (set_last_measurement_success_time (Some (clock e2))
                  (set_last_valid_current current
                     (set_last_valid_voltage voltage c))),
             e2)
          else (cached, c, log_message (InvalidReadings voltage current) e2)
        | _, _ => (cached, c, e2)
        end.

(** ** safe_set_current *)

(** How one pass of the body of [for attempt in range(5)] ends: the
    write raised; the readback is within tolerance; the readback is a
    number outside tolerance; the verification query or [float] raised. *)
Inductive Attempt :=
| WriteRaised
| Verified
| Mismatch
| VerifyRaised.

(** The tolerance on real numbers; [Double.tolerance] and
    [Double.set_current_attempt] have the test as the code computes it,
    and the verdict of [safe_set_current] is stated there. *)
Definition tolerance (current_value : R) : R :=
  Rmax 0.01 (Rabs (current_value * 0.01)).

(** The [try] body of one attempt, up to the [return] or the handler. *)
Definition set_current_attempt (attempt : nat) (current_value : R) (e : Env)
    : Attempt * Env :=
  let e1 := time_sleep 0.3 e in
  let e2 :=
    if (0 <? attempt)%nat then
      let '(out, e') := instrument_call (Scpi "*CLS") e1 in
      match out with
      | Reply _ => time_sleep 0.1 e'
      | VisaError => e'
      end
    else e1 in
  let '(out, e3) := instrument_call (SourCurrLev current_value) e2 in
  match out with
  | VisaError => (WriteRaised, e3)
  | Reply _ =>
    let e4 := time_sleep 0.1 (time_sleep 0.2 e3) in
    let '(out, e5) := instrument_call (Scpi ":SOUR:CURR:LEV?") e4 in
    match out with
    | Reply (Some set_current) =>
      if Rleb (Rabs (set_current - current_value)) (tolerance current_value)
      then (Verified,
            log_message (CurrentSetSuccessfully current_value set_current) e5)
      else (Mismatch,
            log_message (CurrentVerificationFailed current_value set_current) e5)
    | _ => (VerifyRaised, log_message CurrentVerificationError e5)
    end
  end.

Fixpoint safe_set_current_loop (remaining attempt : nat) (current_value : R)
    (e : Env) : bool * Env :=
  match remaining with
  | O => (false, e)
  | S remaining' =>
    let '(a, e1) := set_current_attempt attempt current_value e in
    match a with
    | Verified => (true, e1)
    | VerifyRaised => (true, e1)
    | Mismatch => safe_set_current_loop remaining' (S attempt) current_value e1
    | WriteRaised =>
      if (attempt <? 4)%nat then
        let wait_time := 1 * (INR attempt + 1) in
        safe_set_current_loop remaining' (S attempt) current_value
          (time_sleep wait_time
             (log_message (CurrentSettingRetry (attempt + 1)) e1))
      else (false, log_message CurrentSettingFailed e1)
    end
  end.

Definition safe_set_current (current_value : R) (c : Controller) (e : Env)
    : bool * Env :=
  if negb (instrument c) then (false, e)
  else safe_set_current_loop 5 0 current_value e.

(** The attempts [safe_set_current_loop] goes through, in order. *)
Fixpoint set_current_attempts (remaining attempt : nat) (current_value : R)
    (e : Env) : list Attempt :=
  match remaining with
  | O => []
  | S remaining' =>
    let '(a, e1) := set_current_attempt attempt current_value e in
    match a with
    | Verified => [a]
    | VerifyRaised => [a]
    | Mismatch =>
      a :: set_current_attempts remaining' (S attempt) current_value e1
    | WriteRaised =>
      if (attempt <? 4)%nat then
        let wait_time := 1 * (INR attempt + 1) in
        a :: set_current_attempts remaining' (S attempt) current_value
               (time_sleep wait_time
                  (log_message (CurrentSettingRetry (attempt + 1)) e1))
      else [a]
    end
  end.

(** ** test_loop *)

(** How control leaves the [while] loop of [test_loop]: its condition is
    false, one of its three [break]s runs, or an exception reaches the
    outer [except] (the only one the embedded statements can raise is
    the [TypeError] of [datetime.now() - self.start_time] when
    [start_time] is [None]). *)
Inductive LoopExit :=
| WhileConditionFalse
| StopEventBreak
| TurnOnBreak
| CutoffBreak
| LoopException.

(** Lines 803-824, "Update DC load with resilient current setting".
    The boolean is [true] when the [break] after "Failed to turn on
    load" runs. *)
Definition load_control (avg_current : R) (c : Controller) (e : Env)
    : bool * Controller * Env :=
  if Rltb 0.001 avg_current then
    let '(success, e1) := safe_set_current avg_current c e in
    let e2 := if success then e1 else log_message FailedToSetCurrentLevel e1 in
    if ((current_row c =? 0)%nat && success)%bool then
      let '(load_success, c3, e3) :=
        safe_write (Scpi ":SOUR:INP ON") c (time_sleep 0.2 e2) in
      if load_success then (false, c3, e3)
      else (true, c3, log_message FailedToTurnOnLoad e3)
    else (false, c, e2)
  else
    let '(success, e1) := safe_set_current 0 c e in
    (false, c, if success then e1 else log_message FailedToSetZeroCurrent e1).

(** Lines 854-886, the voltage cutoff with its buffer.  The boolean is
    [true] when the [break] after "Voltage cutoff triggered" runs. *)
Definition check_voltage_cutoff (voltage : R) (c : Controller) (e : Env)
    : bool * Controller * Env :=
  let measurement_age :=
    match last_measurement_success_time c with
    | Some t => Some (clock e - t)
    | None => None
    end in
  match measurement_age with
  | Some age =>
    if Rleb age (measurement_timeout_threshold c) then
      let current_time := clock e in
      if Rleb voltage (voltage_cutoff c) then
        match voltage_below_cutoff_time c with
        | None =>
          (false, set_voltage_below_cutoff_time (Some current_time) c,
           log_message (VoltageBelowCutoff voltage age) e)
        | Some since =>
          let time_below := current_time - since in
          if Rleb (voltage_cutoff_buffer c) time_below
          then (true, c,
                log_message (VoltageCutoffTriggered voltage time_below age) e)
          else (false, c, e)
        end
      else
        (false, set_voltage_below_cutoff_time None c,
         match voltage_below_cutoff_time c with
         | Some _ => log_message (VoltageRecovered voltage) e
         | None => e
         end)
    else if Rltb (measurement_timeout_threshold c) age then
      match voltage_below_cutoff_time c with
      | Some _ =>
        (false, set_voltage_below_cutoff_time None c,
         log_message (IgnoringVoltageCutoff age) e)
      | None => (false, c, e)
      end
    else (false, c, e)
  | None => (false, c, e)
  end.

(** The block under [if self.current_row % 200 == 0]. *)
Definition batch (total_rows : nat) (c : Controller) (e : Env)
    : option LoopExit * Controller * Env :=
  let end_row := Nat.min (current_row c + 200) total_rows in
  let current_slice :=
    firstn (end_row - current_row c) (skipn (current_row c) (test_data c)) in
  let avg_current := interpolate_current_window c current_slice in
  let c1 := set_target_current avg_current c in
  let e1 :=
    if (current_row c1 mod 2000 =? 0)%nat
    then log_message (WindowInfo (current_row c1) end_row avg_current) e
    else e in
  let '(stop, c2, e2) := load_control avg_current c1 e1 in
  if stop then (Some TurnOnBreak, c2, e2)
  else
    let '(measured, c3, e3) := safe_measure c2 e2 in
    let '(voltage, current) := measured in
    match start_time c3 with
    | None => (Some LoopException, c3, e3)
    | Some started =>
      let elapsed_seconds := clock e3 - started in
      let e4 :=
        writerow (mkLogRow (clock e3) elapsed_seconds (current_row c3)
                    avg_current voltage current) e3 in
      let '(tripped, c5, e5) := check_voltage_cutoff voltage c3 e4 in
      if tripped then (Some CutoffBreak, c5, e5) else (None, c5, e5)
    end.

(** Lines 888-902, "Update progress": one more row, the progress line
    every 2000 rows, the 2 s sleep every 200 rows. *)
Definition advance (total_rows : nat) (c1 : Controller) (e1 : Env)
    : Controller * Env :=
  let c2 := set_current_row (current_row c1 + 1) c1 in
  let c3 := set_test_progress (INR (current_row c2) / INR total_rows) c2 in
  let e2 :=
    if (current_row c3 mod 2000 =? 0)%nat
    then log_message (Progress (current_row c3) total_rows) e1
    else e1 in
  let e3 :=
    if (current_row c3 mod 200 =? 0)%nat then time_sleep 2 e2 else e2 in
  (c3, e3).

(** [self.test_running] as the loop reads it: the attribute, unless the
    operator's [stop_test] has run. *)
Definition while_condition (total_rows : nat) (c : Controller) (e : Env) : bool :=
  test_running c && negb (stop_event_is_set e)
  && (current_row c <? total_rows)%nat.

(** The [while] loop.  Every pass that does not leave the loop adds one
    to [current_row], so [total_rows - current_row] passes are enough. *)
Fixpoint test_loop_while (fuel total_rows : nat) (c : Controller) (e : Env)
    : LoopExit * Controller * Env :=
  match fuel with
  | O => (WhileConditionFalse, c, e)
  | S fuel' =>
    if negb (while_condition total_rows c e) then (WhileConditionFalse, c, e)
    else if stop_event_is_set e then (StopEventBreak, c, e)
    else
      let '(leave, c1, e1) :=
        if (current_row c mod 200 =? 0)%nat then batch total_rows c e
        else (None, c, e) in
      match leave with
      | Some x => (x, c1, e1)
      | None =>
        let '(c3, e3) := advance total_rows c1 e1 in
        test_loop_while fuel' total_rows c3 e3
      end
  end.

(** The [finally] clause. *)
Definition ensure_load_off (c : Controller) (e : Env) : Controller * Env :=
  if instrument c then
    let '(_, c1, e1) := safe_write (Scpi ":SOUR:INP OFF") c e in
    (c1, time_sleep 0.2 e1)
  else (c, e).

Definition test_loop (c : Controller) (e : Env) : LoopExit * Controller * Env :=
  let total_rows := length (test_data c) in
  let '(leave, c1, e1) :=
    test_loop_while (total_rows - current_row c) total_rows c e in
  let c2 := set_test_running false c1 in
  match leave with
  | LoopException =>
    let '(c3, e3) := ensure_load_off c2 (log_message TestLoopError e1) in
    (leave, c3, e3)
  | _ =>
    let '(_, c3, e3) := safe_write (Scpi ":SOUR:INP OFF") c2 e1 in
    let e4 := time_sleep 0.2 e3 in
    let e5 :=
      if (total_rows <=? current_row c3)%nat
      then log_message TestCompleted e4
      else log_message TestStopped e4 in
    let '(c6, e6) := ensure_load_off c3 e5 in
    (leave, c6, e6)
  end.

(** ** The cutoff monitor over a sequence of evaluations *)









(** ** Auxiliary notions for the statements *)

(** Samples between 0 and [b]. *)
Definition bounded (b : R) (a : list R) : Prop :=
  Forall (fun x => 0 <= x <= b) a.

(** The [weighted_avg] branch as a function of the processed samples. *)
Definition weighted_average (a : list R) : R :=
  np_average a (if Rltb 0 (np_sum a)
                then map (fun x => x / np_sum a) a
                else map (fun _ => 1) a).

(** The measurement cache with its success timestamp. *)
Definition cache (c : Controller) : R * R * option R :=
  (last_valid_voltage c, last_valid_current c, last_measurement_success_time c).

(** A controller as [connect] leaves it: [__init__] with an open
    instrument. *)
Definition connected : Controller := set_instrument true init.

(** A device that answers every call after 10 ms: the first query with
    3.6, every later one with 1.5. *)
Definition steady_device (n : nat) : Response :=
  match n with
  | O => mkResponse 0.01 (Reply (Some 3.6))
  | S _ => mkResponse 0.01 (Reply (Some 1.5))
  end.

Definition env_at (now : R) (d : nat -> Response) : Env :=
  mkEnv now d 0 [] [] [] None.

(** A query is unreadable when it raises or returns text that [float]
    does not parse. *)
Definition unreadable (o : Outcome) : Prop :=
  match o with
  | Reply (Some _) => False
  | _ => True
  end.

(** An attempt of [safe_set_current] that ends the loop with [True], and
    one after which the loop goes on or gives up. *)
Definition accepted (a : Attempt) : Prop := a = Verified \/ a = VerifyRaised.
Definition rejected (a : Attempt) : Prop := a = WriteRaised \/ a = Mismatch.

(** The index, among the calls of the device, of the setpoint write of an
    attempt: attempts after the first send [*CLS] before it. *)
Definition write_index (attempt : nat) (e : Env) : nat :=
  if (0 <? attempt)%nat then S (calls e) else calls e.

(** A device whose first two setpoint writes raise and whose third goes
    through and reads back 1: calls 0 and 2 are the failing writes, calls
    1 and 3 the [*CLS] of the second and third attempts, call 4 the
    write that succeeds, call 5 the verification query. *)
Definition flaky_device (n : nat) : Response :=
  match n with
  | 0%nat | 2%nat => mkResponse 0.01 VisaError
  | 5%nat => mkResponse 0.01 (Reply (Some 1))
  | _ => mkResponse 0.01 (Reply None)
  end.






(** A pending countdown was started by a measurement that succeeded. *)
Definition pending_has_success (c : Controller) : Prop :=
  voltage_below_cutoff_time c <> None -> last_measurement_success_time c <> None.



(** The output-enable command, and "no enable went on the wire between
    two environments". *)
Definition enable : Command := Scpi ":SOUR:INP ON".

Definition no_new_enable (e e' : Env) : Prop :=
  forall t, In (t, enable) (wire e') -> In (t, enable) (wire e).

(** A device on which every write goes through and the second call, the
    verification query of a first attempt, reads back 10. *)
Definition obedient_device (n : nat) : Response :=
  match n with
  | 1%nat => mkResponse 0.01 (Reply (Some 10))
  | _ => mkResponse 0.01 (Reply None)
  end.

(** The window a batch starting at [current_row] reads, and its
    interpolated current. *)
Definition window (total_rows : nat) (c : Controller) : list R :=
  firstn (Nat.min (current_row c + 200) total_rows - current_row c)
         (skipn (current_row c) (test_data c)).

Definition window_current (total_rows : nat) (c : Controller) : R :=
  interpolate_current_window c (window total_rows c).

(** The environment in which a batch calls [load_control]. *)
Definition after_window_info (total_rows : nat) (c : Controller) (e : Env) : Env :=
  if (current_row c mod 2000 =? 0)%nat
  then log_message (WindowInfo (current_row c)
                      (Nat.min (current_row c + 200) total_rows)
                      (window_current total_rows c)) e
  else e.

(** The batch at row 0 sets a current above 0.001 A and the setting
    succeeds. *)
Definition first_setpoint_succeeds (total_rows : nat) (c : Controller) (e : Env)
    : Prop :=
  current_row c = 0%nat
  /\ 0.001 < window_current total_rows c
  /\ fst (safe_set_current (window_current total_rows c) c
            (after_window_info total_rows c e)) = true.

(** A run as [start_test] launches it on a one-row profile, with the
    Average policy, and a device that takes the setpoint (write, then a
    readback of 10) and lets every later call time out. *)
Definition one_row_run : Controller :=
  set_start_time (Some 100)
    (set_test_running true
       (set_test_data [-30]
          (set_interpolation_method "average" connected))).

Definition unwilling_device (n : nat) : Response :=
  match n with
  | 0%nat => mkResponse 0.01 (Reply None)
  | 1%nat => mkResponse 0.01 (Reply (Some 10))
  | _ => mkResponse 0.01 VisaError
  end.

(** The cutoff condition at the end of a batch: the voltage of the last
    CSV row is at or below the cutoff, the last successful measurement is
    within [measurement_timeout_threshold], and the countdown has run for
    at least [voltage_cutoff_buffer]. *)
Definition cutoff_reached (c : Controller) (e : Env) : Prop :=
  (exists rows row,
     csv_log e = rows ++ [row]
     /\ log_measured_voltage row <= voltage_cutoff c)
  /\ (exists t,
        last_measurement_success_time c = Some t
        /\ clock e - t <= measurement_timeout_threshold c)
  /\ (exists since,
        voltage_below_cutoff_time c = Some since
        /\ voltage_cutoff_buffer c <= clock e - since).

(** Why the [while] loop was left, read off the state it was left in. *)
Definition exit_condition (total_rows : nat) (leave : LoopExit)
    (c : Controller) (e : Env) : Prop :=
  match leave with
  | WhileConditionFalse =>
    stop_event_is_set e = true \/ (total_rows <= current_row c)%nat
  | StopEventBreak => stop_event_is_set e = true
  | CutoffBreak => cutoff_reached c e
  | TurnOnBreak =>
    current_row c = 0%nat
    /\ exists earlier, console e = earlier ++ [FailedToTurnOnLoad]
  | LoopException => start_time c = None
  end.

(** A profile with no discharge in its first 200 rows and 30 A in row
    200, and a run on it as [start_test] launches it. *)
Definition late_current_profile : list R := repeat 0 200 ++ [-30].

Definition late_current_run : Controller :=
  set_start_time (Some 100)
    (set_test_running true (set_test_data late_current_profile connected)).

(** ** The session: connection, start and stop *)

(** The calls of [self.log_message] in the methods of the session. *)
Inductive Notice :=
| InterpolationMethodChanged (app_data : string)
| ConnectingToDCLoad
| Connected
| ConnectionFailed
| InstrumentCloseError
| ResourceManagerCloseError
| DisconnectedFromDCLoad
| SettingUpBatteryMode
| FailedToSetInitialCurrent
| BatteryModeSetup (func mode : option (option R))
| NotConnectedToDCLoad
| NoCsvDataLoaded
| TestAlreadyRunning
| StartingEnduranceTest
| TestStartedWith (data_points : nat)
| VoltageCutoffIs (voltage_cutoff : R)
| LoggingTo
| TestStartError
| StoppingTest
| EmergencyStopActivated
| EmergencyStopError.

(** The controller with the attributes the session methods read and
    write besides those of [Controller]: whether [rm] is a resource
    manager or [None], [is_connected], whether [test_data] is a frame or
    [None], and the lines these methods log. *)
Record Session := mkSession {
  controller : Controller;
  rm : bool;
  is_connected : bool;
  test_data_loaded : bool;
  notices : list Notice
}.

Definition set_controller (v : Controller) (s : Session) : Session :=
  mkSession v (rm s) (is_connected s) (test_data_loaded s) (notices s).

Definition set_rm (v : bool) (s : Session) : Session :=
  mkSession (controller s) v (is_connected s) (test_data_loaded s) (notices s).

Definition set_is_connected (v : bool) (s : Session) : Session :=
  mkSession (controller s) (rm s) v (test_data_loaded s) (notices s).

Definition notice (n : Notice) (s : Session) : Session :=
  mkSession (controller s) (rm s) (is_connected s) (test_data_loaded s)
            (notices s ++ [n]).

Definition session_init : Session := mkSession init false false false [].

Definition set_stop_at (v : option R) (e : Env) : Env :=
  mkEnv (clock e) (device e) (calls e) (wire e) (console e) (csv_log e) v.

Definition set_csv_log (v : list LogRow) (e : Env) : Env :=
  mkEnv (clock e) (device e) (calls e) (wire e) (console e) v (stop_at e).

(** [self.stop_event.set()] and [self.stop_event.clear()] at the instant
    of the call: a stop that is still to come is not forgotten. *)
Definition stop_event_set (e : Env) : Env :=
  if stop_event_is_set e then e else set_stop_at (Some (clock e)) e.

Definition stop_event_clear (e : Env) : Env :=
  if stop_event_is_set e then set_stop_at None e else e.

(** ** stop_test and emergency_stop *)

(** The output-disable command. *)
Definition disable : Command := Scpi ":SOUR:INP OFF".

(** [if self.instrument: self.safe_write(":SOUR:INP OFF");
    time.sleep(seconds)]. *)
Definition switch_off (seconds : R) (c : Controller) (e : Env)
    : Controller * Env :=
  if instrument c then
    let '(_, c1, e1) := safe_write disable c e in
    (c1, time_sleep seconds e1)
  else (c, e).

Definition stop_test (s : Session) (e : Env) : Session * Env :=
  if negb (test_running (controller s)) then (s, e)
  else
    let s1 := notice StoppingTest s in
    let c1 := set_test_running false (controller s1) in
    let e1 := stop_event_set e in
    let '(c2, e2) := switch_off 0.2 c1 e1 in
    (set_controller c2 s1, e2).

(** The write of [emergency_stop] goes to the instrument directly; when
    it raises, the handler logs the error and [stop_test] is not
    reached. *)
Definition emergency_stop (s : Session) (e : Env) : Session * Env :=
  let s1 := notice EmergencyStopActivated s in
  if instrument (controller s1) then
    let '(out, e1) := instrument_call disable e in
    match out with
    | VisaError => (notice EmergencyStopError s1, e1)
    | Reply _ => stop_test s1 e1
    end
  else stop_test s1 e.

(** ** setup_battery_mode, connect and disconnect *)

(** [None] is the exception "No instrument connection"; with an
    instrument no statement of the body raises. *)
Definition setup_battery_mode (s : Session) (e : Env) : option (Session * Env) :=
  if negb (instrument (controller s)) then None
  else
    let s0 := notice SettingUpBatteryMode s in
    let '(_, c1, e1) := safe_write disable (controller s0) e in
    let '(_, c2, e2) := safe_write (Scpi "*CLS") c1 (time_sleep 0.5 e1) in
    let '(_, c3, e3) :=
      safe_write (Scpi ":SOUR:FUNC CURR") c2 (time_sleep 0.3 e2) in
    let '(_, c4, e4) :=
      safe_write (Scpi ":SOUR:FUNC:MODE BATT") c3 (time_sleep 0.3 e3) in
    let '(_, c5, e5) :=
      safe_write (Scpi ":SOUR:CURR:RANG LOW") c4 (time_sleep 0.3 e4) in
    let '(success, e6) := safe_set_current 0 c5 (time_sleep 0.3 e5) in
    let s6 := if success then s0 else notice FailedToSetInitialCurrent s0 in
    let '(func, c7, e7) := safe_query (Scpi ":SOUR:FUNC?") c5 (time_sleep 0.3 e6) in
    let '(mode, c8, e8) := safe_query (Scpi ":SOUR:FUNC:MODE?") c7 e7 in
    Some (notice (BatteryModeSetup func mode) (set_controller c8 s6), e8).

(** The handler of [connect]: the instrument and the resource manager
    are closed and forgotten. *)
Definition connection_failed (s : Session) : Session :=
  set_rm false
    (set_controller (set_instrument false (controller s))
       (notice ConnectionFailed s)).

(** [rm_opens] and [resource_opens] tell whether
    [pyvisa.ResourceManager()] and [open_resource] return. *)
Definition connect (rm_opens resource_opens : bool) (s : Session) (e : Env)
    : Session * Env :=
  let s1 := notice ConnectingToDCLoad s in
  if negb rm_opens then (connection_failed s1, e)
  else
    let s2 := set_rm true s1 in
    if negb resource_opens then (connection_failed s2, e)
    else
      let s3 := set_controller (set_instrument true (controller s2)) s2 in
      let '(out, e1) := instrument_call (Scpi "*IDN?") (time_sleep 1 e) in
      match out with
      | VisaError => (connection_failed s3, e1)
      | Reply _ =>
        match setup_battery_mode (notice Connected s3) e1 with
        | None => (connection_failed (notice Connected s3), e1)
        | Some (s4, e4) => (set_is_connected true s4, e4)
        end
      end.

(** [instrument_closes] and [rm_closes] tell whether the two [close]
    calls return. *)
Definition disconnect (instrument_closes rm_closes : bool) (s : Session)
    (e : Env) : Session * Env :=
  let '(s1, e1) :=
    if test_running (controller s) then stop_test s e else (s, e) in
  let '(s2, e2) :=
    if instrument (controller s1) then
      let '(_, c2, e') := safe_write disable (controller s1) e1 in
      (let s' := set_controller c2 s1 in
       if instrument_closes then s' else notice InstrumentCloseError s',
       time_sleep 0.5 e')
    else (s1, e1) in
  let s3 :=
    if (rm s2 && negb rm_closes)%bool
    then notice ResourceManagerCloseError s2 else s2 in
  (notice DisconnectedFromDCLoad
     (set_rm false
        (set_controller (set_instrument false (controller s3))
           (set_is_connected false s3))),
   e2).

Definition toggle_connection (rm_opens resource_opens instrument_closes
    rm_closes : bool) (s : Session) (e : Env) : Session * Env :=
  if is_connected s then disconnect instrument_closes rm_closes s e
  else connect rm_opens resource_opens s e.

(** [cleanup], without the destruction of the GUI context. *)
Definition cleanup (instrument_closes rm_closes : bool) (s : Session) (e : Env)
    : Session * Env :=
  let '(s1, e1) := stop_test s e in
  disconnect instrument_closes rm_closes s1 e1.

(** ** start_test *)

(** [voltage_cutoff_input] is the value of the GUI field and
    [file_opens] tells whether the new CSV file could be written.  The
    controller and the environment returned are those in which the test
    thread starts [test_loop]. *)
Definition start_test (voltage_cutoff_input : R) (file_opens : bool)
    (s : Session) (e : Env) : Session * Env :=
  if negb (is_connected s) then (notice NotConnectedToDCLoad s, e)
  else if negb (test_data_loaded s) then (notice NoCsvDataLoaded s, e)
  else if test_running (controller s) then (notice TestAlreadyRunning s, e)
  else
    let s1 := notice StartingEnduranceTest s in
    let c1 := set_voltage_cutoff voltage_cutoff_input (controller s1) in
    let c2 := set_current_row 0 c1 in
    let c3 := set_start_time (Some (clock e)) c2 in
    let c4 := set_test_running true c3 in
    let e1 := stop_event_clear e in
    if negb file_opens then
      (set_controller (set_test_running false c4) (notice TestStartError s1),
       e1)
    else
      let e2 := set_csv_log [] e1 in
      let c5 := set_voltage_below_cutoff_time None c4 in
      (notice LoggingTo
         (notice (VoltageCutoffIs (voltage_cutoff c5))
            (notice (TestStartedWith (length (test_data c5)))
               (set_controller c5 s1))),
       e2).

(** ** on_interpolation_change *)

(** The dictionary [method_map], from the labels of the combo box to the
    method names, and [dict.get] with a default. *)
Definition method_map : list (string * string) :=
  [ ("Average", "average");
    ("RMS (Root Mean Square)", "rms");
    ("Weighted Average", "weighted_avg");
    ("Peak Aware", "peak_aware");
    ("Energy Equivalent", "energy_equiv") ]%string.

Fixpoint dict_get (d : list (string * string)) (key default : string) : string :=
  match d with
  | [] => default
  | (k, v) :: d' => if (k =? key)%string then v else dict_get d' key default
  end.

Definition on_interpolation_change (app_data : string) (s : Session) : Session :=
  notice (InterpolationMethodChanged app_data)
    (set_controller
       (set_interpolation_method (dict_get method_map app_data "rms")
          (controller s)) s).

(** The five method names that have a branch of their own in
    [interpolate_current_window]. *)
Definition method_names : list string :=
  ["average"; "rms"; "weighted_avg"; "peak_aware"; "energy_equiv"]%string.

(** ** The buffer of log_message *)

(** [self.log_messages.append(log_entry)] followed by
    [if len(self.log_messages) > 50: self.log_messages.pop(0)]. *)
Definition log_messages_append {A : Type} (log_entry : A) (log_messages : list A)
    : list A :=
  let appended := log_messages ++ [log_entry] in
  if (50 <? length appended)%nat then tl appended else appended.

(** The slice [l[-n:]] for [n > 0] and the lines shown in the log window,
    [self.log_messages[-10:]]. *)
Definition slice_last {A : Type} (n : nat) (l : list A) : list A :=
  skipn (length l - n) l.

Definition log_window {A : Type} (log_messages : list A) : list A :=
  slice_last 10 log_messages.

(** The buffer after a sequence of calls of [log_message]. *)
Definition log_messages_after {A : Type} (entries log_messages : list A) : list A :=
  fold_left (fun buffer log_entry => log_messages_append log_entry buffer)
            entries log_messages.

(** ** Traffic between two environments *)

(** The calls made between [e] and [e'], each with the instant it went
    on the wire. *)
Definition sent_between (e e' : Env) (sent : list (R * Command)) : Prop :=
  wire e' = wire e ++ sent /\ calls e' = (calls e + length sent)%nat.

(** The [n]-th call of the device raises. *)
Definition raises (d : nat -> Response) (n : nat) : Prop :=
  outcome (d n) = VisaError.

(** A device whose first call raises and whose later calls answer 1. *)
Definition stuttering_device (n : nat) : Response :=
  match n with
  | O => mkResponse 0.01 VisaError
  | S _ => mkResponse 0.01 (Reply (Some 1))
  end.

(** No call of the device returns before it starts. *)
Definition punctual (e : Env) : Prop := forall n, 0 <= latency (device e n).

(** From [e] to [e'] nothing is taken back: the device and the stop
    instant are the same, the clock has not gone back, and the wire, the
    console and the CSV log have only grown, the wire by commands that
    satisfy [allowed] and the CSV log by rows that satisfy [logged]. *)
Definition extends (allowed : Command -> Prop) (logged : LogRow -> Prop)
    (e e' : Env) : Prop :=
  device e' = device e
  /\ stop_at e' = stop_at e
  /\ clock e <= clock e'
  /\ (exists sent,
        sent_between e e' sent /\ Forall (fun s => allowed (snd s)) sent)
  /\ (exists printed, console e' = console e ++ printed)
  /\ (exists rows, csv_log e' = csv_log e ++ rows /\ Forall logged rows).

(** No row is written. *)
Definition no_row (r : LogRow) : Prop := False.

(** The two queries of [safe_measure], and the three commands of
    [safe_set_current] for a value. *)
Definition measurement_query (command : Command) : Prop :=
  command = Scpi ":MEAS:VOLT?" \/ command = Scpi ":MEAS:CURR?".

Definition setpoint_command (current_value : R) (command : Command) : Prop :=
  command = Scpi "*CLS"
  \/ command = SourCurrLev current_value
  \/ command = Scpi ":SOUR:CURR:LEV?".

(** ** Auxiliary notions for the properties of a run *)

(** The attributes [test_loop] reads and never assigns. *)
Definition configuration (c : Controller) :=
  (instrument c, measurement_interval c, command_interval c, max_retries c,
   measurement_timeout_threshold c, test_data c, interpolation_method c,
   voltage_cutoff c, max_current c, min_current c, voltage_cutoff_buffer c,
   start_time c).

(** The commands of a run: the fixed strings of [safe_set_current],
    [safe_measure] and the output switch, and set points between 0 and
    [max_current]. *)
Definition run_command (c : Controller) (command : Command) : Prop :=
  match command with
  | SourCurrLev current_value => 0 <= current_value <= max_current c
  | Scpi text =>
    In text [ "*CLS"; ":SOUR:CURR:LEV?"; ":SOUR:INP ON"; ":SOUR:INP OFF";
              ":MEAS:VOLT?"; ":MEAS:CURR?" ]%string
  end.

(** The cached pair is one [safe_measure] would accept. *)
Definition plausible_cache (c : Controller) : Prop :=
  0 <= last_valid_voltage c <= 50 /\ 0 <= last_valid_current c <= 50.

(** A CSV row as a batch that starts at row [row] writes it between the
    instants [t0] and [t1]. *)
Definition batch_row (c : Controller) (total_rows row : nat) (t0 t1 : R)
    (r : LogRow) : Prop :=
  log_row r = row
  /\ (row mod 200 = 0)%nat
  /\ (row < total_rows)%nat
  /\ 0 <= log_target_current r <= max_current c
  /\ (plausible_cache c ->
      0 <= log_measured_voltage r <= 50 /\ 0 <= log_measured_current r <= 50)
  /\ t0 <= log_timestamp r <= t1
  /\ start_time c = Some (log_timestamp r - log_elapsed_seconds r).

(** What one batch keeps, from the controller and environment it
    starts in to those it ends in. *)
Definition batch_keeps (total_rows : nat) (c : Controller) (e : Env)
    (c1 : Controller) (e1 : Env) : Prop :=
  extends (run_command c)
    (batch_row c total_rows (current_row c) (clock e) (clock e1)) e e1
  /\ configuration c1 = configuration c
  /\ current_row c1 = current_row c
  /\ test_running c1 = test_running c
  /\ (target_current c1 = target_current c
      \/ 0 <= target_current c1 <= max_current c)
  /\ (plausible_cache c -> plausible_cache c1)
  /\ (length (csv_log e1) <= S (length (csv_log e)))%nat.

(** The rows a run that starts at [c] in [e] has written when it is in
    [e']: each is the row of a batch that started at or after
    [current_row c]. *)
Definition run_row (c : Controller) (total_rows : nat) (e e' : Env) (r : LogRow)
    : Prop :=
  (current_row c <= log_row r)%nat
  /\ batch_row c total_rows (log_row r) (clock e) (clock e') r.

(** Rows in the order of their row numbers, none twice. *)
Definition ascending (rows : list LogRow) : Prop :=
  StronglySorted (fun a b => (log_row a < log_row b)%nat) rows.

(** What the [while] loop keeps, from the controller and environment it
    starts in to those it is left in. *)
Definition loop_keeps (total_rows : nat) (c : Controller) (e : Env)
    (c' : Controller) (e' : Env) : Prop :=
  extends (run_command c) (run_row c total_rows e e') e e'
  /\ configuration c' = configuration c
  /\ test_running c' = test_running c
  /\ (current_row c <= current_row c')%nat
  /\ (current_row c' <= Nat.max total_rows (current_row c))%nat
  /\ (plausible_cache c -> plausible_cache c')
  /\ (target_current c' = target_current c
      \/ 0 <= target_current c' <= max_current c)
  /\ 2 * INR (current_row c' / 200) - 2 * INR (current_row c / 200)
     <= clock e' - clock e
  /\ (forall rows, csv_log e' = csv_log e ++ rows -> ascending rows).

(** The last command on the wire. *)
Definition last_command (e : Env) : option Command :=
  match rev (wire e) with
  | [] => None
  | (_, command) :: _ => Some command
  end.

(** Two controllers that differ at most in [last_command_time]. *)
Definition same_but_command_time (c c' : Controller) : Prop :=
  c' = c \/ exists t, c' = set_last_command_time t c.

(** Any row. *)
Definition any_row (r : LogRow) : Prop := True.

(** The environment of the one-row run. *)
Definition one_row_env : Env := env_at 100 unwilling_device.

(** The commands of [setup_battery_mode]. *)
Definition setup_command (command : Command) : Prop :=
  match command with
  | SourCurrLev current_value => current_value = 0
  | Scpi text =>
    In text [ ":SOUR:INP OFF"; "*CLS"; ":SOUR:FUNC CURR";
              ":SOUR:FUNC:MODE BATT"; ":SOUR:CURR:RANG LOW";
              ":SOUR:CURR:LEV?"; ":SOUR:FUNC?"; ":SOUR:FUNC:MODE?" ]%string
  end.

(** The commands of [connect]: the identification query and those of
    [setup_battery_mode]. *)
Definition connect_command (command : Command) : Prop :=
  command = Scpi "*IDN?" \/ setup_command command.

(** ** monitor_loop *)

(** What one pass of [monitor_loop] writes to the "voltage_status" and
    "load_status" items. *)
Inductive VoltageStatus :=
| VoltageOkStale (measurement_age : R)
| VoltageLow (remaining : R)
| VoltageLowStartingBuffer
| VoltageOk.

Inductive LoadStatus := LoadOn | LoadOff.

Definition voltage_status (voltage : R) (c : Controller) (now : R)
    : VoltageStatus :=
  let measurement_age :=
    match last_measurement_success_time c with
    | Some t => Some (now - t)
    | None => None
    end in
  let fresh_status :=
    if Rleb voltage (voltage_cutoff c) then
      match voltage_below_cutoff_time c with
      | Some since =>
        let time_below := now - since in
        let remaining := Rmax 0 (voltage_cutoff_buffer c - time_below) in
        VoltageLow remaining
      | None => VoltageLowStartingBuffer
      end
    else VoltageOk in
  match measurement_age with
  | Some age =>
    if Rltb (measurement_timeout_threshold c) age then VoltageOkStale age
    else fresh_status
  | None => fresh_status
  end.

Definition load_status (current : R) : LoadStatus :=
  if Rltb 0.01 current then LoadOn else LoadOff.

(** One pass of the [while True] loop, up to its [time.sleep(0.1)]: the
    readings and the two status items; the progress items and the plot
    read the controller and write nothing to it. *)
Definition monitor_pass (s : Session) (e : Env)
    : option (VoltageStatus * LoadStatus) * Session * Env :=
  if (is_connected s && instrument (controller s))%bool then
    let '(measured, c1, e1) := safe_measure (controller s) e in
    let '(voltage, current) := measured in
    (Some (voltage_status voltage c1 (clock e1), load_status current),
     set_controller c1 s, time_sleep 0.1 e1)
  else (None, s, time_sleep 0.1 e).

(** ** The callbacks of the GUI *)

(** The callbacks bound to the buttons and to the combo box, each with
    what it reads from outside the controller, and the thread that
    [start_test] starts. *)
Inductive Callback :=
| ToggleConnection (rm_opens resource_opens instrument_closes rm_closes : bool)
| StartTest (voltage_cutoff_input : R) (file_opens : bool)
| StopTest
| EmergencyStop
| InterpolationChange (app_data : string)
| TestThread.

Definition callback (k : Callback) (s : Session) (e : Env) : Session * Env :=
  match k with
  | ToggleConnection rm_opens resource_opens instrument_closes rm_closes =>
    toggle_connection rm_opens resource_opens instrument_closes rm_closes s e
  | StartTest voltage_cutoff_input file_opens =>
    start_test voltage_cutoff_input file_opens s e
  | StopTest => stop_test s e
  | EmergencyStop => emergency_stop s e
  | InterpolationChange app_data => (on_interpolation_change app_data s, e)
  | TestThread =>
    let '(_, c, e') := test_loop (controller s) e in (set_controller c s, e')
  end.

(** Callbacks run one after the other. *)
Fixpoint callbacks (ks : list Callback) (s : Session) (e : Env) : Session * Env :=
  match ks with
  | [] => (s, e)
  | k :: ks' => let '(s1, e1) := callback k s e in callbacks ks' s1 e1
  end.

(** The session holds an instrument and a resource manager exactly when
    it says it is connected, and a test runs only on a connected
    session. *)
Definition session_consistent (s : Session) : Prop :=
  instrument (controller s) = is_connected s
  /\ rm s = is_connected s
  /\ (test_running (controller s) = true -> is_connected s = true).

(** The lines [safe_measure] prints when it gives up on fresh readings:
    a poll failed on its second attempt, the voltage poll took more than
    5 s, or a reading is outside 0..50. *)
Definition measurement_failure (m : Message) : Prop :=
  match m with
  | VoltageMeasurementFailed | CurrentMeasurementFailed
  | MeasurementTooLong | InvalidReadings _ _ => True
  | _ => False
  end.

(** The environment of the run on the late-current profile: started at
    100 on the steady device, with no stop request. *)
Definition late_current_env : Env := env_at 100 steady_device.

(** A connected session in the middle of the run on the late-current
    profile: at 102 the voltage has been at or below the cutoff since
    100 and the last measurement that succeeded was taken at 101.5. *)
Definition fading_controller : Controller :=
  set_voltage_below_cutoff_time (Some 100)
    (set_last_measurement_success_time (Some 101.5) late_current_run).

Definition fading_session : Session :=
  mkSession fading_controller true true true [].

Definition fading_env : Env := env_at 102 steady_device.

(** * Double precision *)

(** The code computes on IEEE 754 binary64 values: Python's [float] and
    numpy's [float64].  The interpolator and the acceptance test of
    [safe_set_current] are given here on these values, with the
    operations in the order the code and numpy perform them, each one
    rounded.  The clock stays a real number. *)
Module Double.

Import Floats.
Local Open Scope float_scope.

(** The attributes the two functions read. *)
Record Controller := mkController {
  instrument : bool;
  interpolation_method : string;
  max_current : float;
  min_current : float
}.

(** [__init__]: no instrument, method "rms", range 0.0 to 40.0. *)
Definition init : Controller := {|
  instrument := false;
  interpolation_method := "rms";
  max_current := 40;
  min_current := 0
|}.

Definition set_instrument (v : bool) (c : Controller) : Controller :=
  mkController v (interpolation_method c) (max_current c) (min_current c).

Definition set_interpolation_method (v : string) (c : Controller) : Controller :=
  mkController (instrument c) v (max_current c) (min_current c).

(** Python's [max(a, b)] and [min(a, b)]: the first argument, unless the
    second is greater (smaller). *)
Definition py_max (a b : float) : float := if a <? b then b else a.

Definition py_min (a b : float) : float := if b <? a then b else a.

(** ** numpy on a one-dimensional float64 array *)

(** [np.add.reduce] adds pairwise: fewer than 8 elements in order from
    0; up to 128 elements with eight running sums over blocks of 8,
    combined as a tree, then the elements left over; more than 128 by
    halves, the first half a multiple of 8 long. *)
Fixpoint add8 (r a : list float) : list float :=
  match r, a with
  | x :: r', y :: a' => (x + y) :: add8 r' a'
  | _, _ => r
  end.

Fixpoint blocks (fuel : nat) (r rest : list float) : list float * list float :=
  match fuel with
  | O => (r, rest)
  | S fuel' =>
    if (8 <=? length rest)%nat
    then blocks fuel' (add8 r (firstn 8 rest)) (skipn 8 rest)
    else (r, rest)
  end.

Fixpoint pairwise_sum (fuel : nat) (a : list float) : float :=
  let n := length a in
  if (n <? 8)%nat then fold_left add a 0
  else if (n <=? 128)%nat then
    let '(r, rest) := blocks n (firstn 8 a) (skipn 8 a) in
    let r := fun i => nth i r 0 in
    let res := ((r 0%nat + r 1%nat) + (r 2%nat + r 3%nat))
               + ((r 4%nat + r 5%nat) + (r 6%nat + r 7%nat)) in
    fold_left add rest res
  else
    match fuel with
    | O => 0
    | S fuel' =>
      let n2 := (n / 2 - (n / 2) mod 8)%nat in
      pairwise_sum fuel' (firstn n2 a) + pairwise_sum fuel' (skipn n2 a)
    end.

(** [np.sum(a)]: the reduction starts from the identity 0. *)
Definition np_sum (a : list float) : float := 0 + pairwise_sum (length a) a.

(** [len(a)] as a float. *)
Definition len (a : list float) : float :=
  of_uint63 (Uint63.of_Z (Z.of_nat (length a))).

(** [np.mean(a)]: the sum divided by the count. *)
Definition np_mean (a : list float) : float := np_sum a / len a.

(** [a**2]: each element times itself. *)
Definition np_square (a : list float) : list float := map (fun x => x * x) a.

(** [np.maximum]: the first argument when it is at least the second or
    is not a number. *)
Definition np_maximum (a b : float) : float :=
  if (b <=? a) || negb (a =? a) then a else b.

(** [np.max(a)] of a non-empty array. *)
Definition np_max (a : list float) : float :=
  match a with
  | [] => 0
  | x :: rest => fold_left np_maximum rest x
  end.

(** [np.average(a, weights=w)]: [np.multiply(a, w).sum() / w.sum()]. *)
Definition np_average (a w : list float) : float :=
  np_sum (map (fun p => fst p * snd p) (combine a w)) / np_sum w.

(** ** interpolate_current_window *)

(** The body of the [for raw_current in current_slice] loop. *)
Definition process_current (c : Controller) (raw_current : float) : float :=
  let processed_current := if raw_current <? 0 then abs raw_current / 3 else 0 in
  py_max (min_current c) (py_min (max_current c) processed_current).

(** The [if]/[elif] chain on [self.interpolation_method], on the array
    of processed samples. *)
Definition reduce_currents (c : Controller) (currents : list float) : float :=
  if (interpolation_method c =? "average")%string then
    np_mean currents
  else if (interpolation_method c =? "rms")%string then
    sqrt (np_mean (np_square currents))
  else if (interpolation_method c =? "weighted_avg")%string then
    let weights :=
      if 0 <? np_sum currents
      then map (fun x => x / np_sum currents) currents
      else map (fun _ => 1) currents in
    np_average currents weights
  else if (interpolation_method c =? "peak_aware")%string then
    let avg_current := np_mean currents in
    let max_current := np_max currents in
    0.7 * avg_current + 0.3 * max_current
  else if (interpolation_method c =? "energy_equiv")%string then
    if (0 <? length currents)%nat then
      let energy_sum := np_sum (np_square currents) in
      sqrt (energy_sum / len currents)
    else 0
  else
    sqrt (np_mean (np_square currents)).

Definition interpolate_current_window (c : Controller)
    (current_slice : list float) : float :=
  if (length current_slice =? 0)%nat then 0
  else
    let processed_currents := map (process_current c) current_slice in
    match processed_currents with
    | [] => 0
    | _ => reduce_currents c processed_currents
    end.

(** ** safe_set_current *)

(** The instrument, as in the environment of the real-valued part, with
    replies and set points in double precision. *)
Inductive Outcome :=
| VisaError
| Reply (value : option float).

Record Response := mkResponse { latency : R; outcome : Outcome }.

Inductive Command :=
| Scpi (text : string)
| SourCurrLev (current_value : float).

(** The calls of [self.log_message] in [safe_set_current]. *)
Inductive Message :=
| CurrentSetSuccessfully (current_value set_current : float)
| CurrentVerificationFailed (current_value set_current : float)
| CurrentVerificationError
| CurrentSettingRetry (attempt : nat)
| CurrentSettingFailed.

Record Env := mkEnv {
  clock : R;
  device : nat -> Response;
  calls : nat;
  wire : list (R * Command);
  console : list Message
}.

Definition time_sleep (seconds : R) (e : Env) : Env :=
  mkEnv (clock e + seconds)%R (device e) (calls e) (wire e) (console e).

Definition log_message (m : Message) (e : Env) : Env :=
  mkEnv (clock e) (device e) (calls e) (wire e) (console e ++ [m]).

Definition instrument_call (command : Command) (e : Env) : Outcome * Env :=
  let r := device e (calls e) in
  (outcome r,
   mkEnv (clock e + latency r)%R (device e) (S (calls e))
         (wire e ++ [(clock e, command)]) (console e)).

(** [tolerance = max(0.01, abs(current_value * 0.01))]. *)
Definition tolerance (current_value : float) : float :=
  py_max 0.01 (abs (current_value * 0.01)).

(** [abs(set_current - current_value) <= tolerance]. *)
Definition within_tolerance (set_current current_value : float) : bool :=
  abs (set_current - current_value) <=? tolerance current_value.

(** The [try] body of one attempt, up to the [return] or the handler. *)
Definition set_current_attempt (attempt : nat) (current_value : float) (e : Env)
    : Attempt * Env :=
  let e1 := time_sleep 0.3 e in
  let e2 :=
    if (0 <? attempt)%nat then
      let '(out, e') := instrument_call (Scpi "*CLS") e1 in
      match out with
      | Reply _ => time_sleep 0.1 e'
      | VisaError => e'
      end
    else e1 in
  let '(out, e3) := instrument_call (SourCurrLev current_value) e2 in
  match out with
  | VisaError => (WriteRaised, e3)
  | Reply _ =>
    let e4 := time_sleep 0.1 (time_sleep 0.2 e3) in
    let '(out, e5) := instrument_call (Scpi ":SOUR:CURR:LEV?") e4 in
    match out with
    | Reply (Some set_current) =>
      if within_tolerance set_current current_value
      then (Verified,
            log_message (CurrentSetSuccessfully current_value set_current) e5)
      else (Mismatch,
            log_message (CurrentVerificationFailed current_value set_current) e5)
    | _ => (VerifyRaised, log_message CurrentVerificationError e5)
    end
  end.

Fixpoint safe_set_current_loop (remaining attempt : nat) (current_value : float)
    (e : Env) : bool * Env :=
  match remaining with
  | O => (false, e)
  | S remaining' =>
    let '(a, e1) := set_current_attempt attempt current_value e in
    match a with
    | Verified => (true, e1)
    | VerifyRaised => (true, e1)
    | Mismatch => safe_set_current_loop remaining' (S attempt) current_value e1
    | WriteRaised =>
      if (attempt <? 4)%nat then
        let wait_time := (1 * (INR attempt + 1))%R in
        safe_set_current_loop remaining' (S attempt) current_value
          (time_sleep wait_time
             (log_message (CurrentSettingRetry (attempt + 1)) e1))
      else (false, log_message CurrentSettingFailed e1)
    end
  end.

Definition safe_set_current (current_value : float) (c : Controller) (e : Env)
    : bool * Env :=
  if negb (instrument c) then (false, e)
  else safe_set_current_loop 5 0 current_value e.

(** The attempts [safe_set_current_loop] goes through, in order. *)
Fixpoint set_current_attempts (remaining attempt : nat) (current_value : float)
    (e : Env) : list Attempt :=
  match remaining with
  | O => []
  | S remaining' =>
    let '(a, e1) := set_current_attempt attempt current_value e in
    match a with
    | Verified => [a]
    | VerifyRaised => [a]
    | Mismatch =>
      a :: set_current_attempts remaining' (S attempt) current_value e1
    | WriteRaised =>
      if (attempt <? 4)%nat then
        let wait_time := (1 * (INR attempt + 1))%R in
        a :: set_current_attempts remaining' (S attempt) current_value
               (time_sleep wait_time
                  (log_message (CurrentSettingRetry (attempt + 1)) e1))
      else [a]
    end
  end.

(** The index, among the calls of the instrument, of the set-point write
    of an attempt that starts in [e]: attempts after the first send
    "*CLS" before it. *)
Definition write_index (attempt : nat) (e : Env) : nat :=
  if (0 <? attempt)%nat then S (calls e) else calls e.

(** A query is unreadable when it raises or returns text that [float]
    does not parse. *)
Definition unreadable (o : Outcome) : Prop :=
  match o with
  | Reply (Some _) => False
  | _ => True
  end.

(** ** Concrete windows, controllers and devices *)

Definition with_method (m : string) : Controller :=
  set_interpolation_method m init.

(** [__init__] with an open instrument. *)
Definition connected : Controller := set_instrument true init.

(** A device that accepts every write and reads back [value] every
    time, 10 ms after the call. *)
Definition echo_device (value : float) (n : nat) : Response :=
  mkResponse 0.01 (Reply (Some value)).

(** A device whose first two set-point writes raise (calls 0 and 2; call
    1 is the "*CLS" of the second attempt) and which echoes from then
    on. *)
Definition flaky_device (value : float) (n : nat) : Response :=
  match n with
  | 0%nat | 2%nat => mkResponse 0.01 VisaError
  | _ => mkResponse 0.01 (Reply (Some value))
  end.

Definition env_at (now : R) (d : nat -> Response) : Env :=
  mkEnv now d 0 [] [].

End Double.

(* ================================================================= *)
(** * Theorems *)

(** ** Comparisons *)

Lemma Rltb_true (x y : R) : x < y -> Rltb x y = true.
Proof. intros H. unfold Rltb. destruct (Rlt_dec x y); [reflexivity | contradiction]. Qed.

Lemma Rltb_false (x y : R) : y <= x -> Rltb x y = false.
Proof. intros H. unfold Rltb. destruct (Rlt_dec x y); [lra | reflexivity]. Qed.

Lemma Rleb_true (x y : R) : x <= y -> Rleb x y = true.
Proof. intros H. unfold Rleb. destruct (Rle_dec x y); [reflexivity | contradiction]. Qed.

Lemma Rleb_false (x y : R) : y < x -> Rleb x y = false.
Proof. intros H. unfold Rleb. destruct (Rle_dec x y); [lra | reflexivity]. Qed.

Lemma Rltb_spec (x y : R) : Rltb x y = true <-> x < y.
Proof.
  unfold Rltb. destruct (Rlt_dec x y); split; intros; try assumption;
    try reflexivity; try discriminate; contradiction.
Qed.

Lemma Rleb_spec (x y : R) : Rleb x y = true <-> x <= y.
Proof.
  unfold Rleb. destruct (Rle_dec x y); split; intros; try assumption;
    try reflexivity; try discriminate; contradiction.
Qed.

Lemma Rltb_spec_false (x y : R) : Rltb x y = false <-> y <= x.
Proof.
  split; intros H.
  - destruct (Rlt_dec x y) as [L | L]; [| lra].
    apply Rltb_true in L. congruence.
  - now apply Rltb_false.
Qed.

Lemma Rleb_spec_false (x y : R) : Rleb x y = false <-> y < x.
Proof.
  split; intros H.
  - destruct (Rle_dec x y) as [L | L]; [| lra].
    apply Rleb_true in L. congruence.
  - now apply Rleb_false.
Qed.

(** ** Sums, means and maxima of bounded samples *)

Section Reductions.

Variable b : R.

Lemma INR_length_pos (a : list R) : a <> [] -> 0 < INR (length a).
Proof.
  destruct a as [| x a]; [congruence |]. intros _.
  apply lt_0_INR. simpl. lia.
Qed.

Lemma np_sum_bounded (a : list R) :
  bounded b a -> 0 <= np_sum a <= INR (length a) * b.
Proof.
  induction 1 as [| x a Hx _ IH].
  - simpl. lra.
  - change (np_sum (x :: a)) with (x + np_sum a).
    change (length (x :: a)) with (S (length a)). rewrite S_INR. lra.
Qed.

Lemma np_square_bounded (a : list R) :
  bounded b a -> Forall (fun x => 0 <= x <= b * b) (np_square a).
Proof.
  induction 1 as [| x a Hx _ IH]; simpl; constructor; [nra | exact IH].
Qed.

Lemma np_square_length (a : list R) : length (np_square a) = length a.
Proof. apply length_map. Qed.

Lemma quotient_bounds (s n lo hi : R) :
  0 < n -> lo * n <= s <= hi * n -> lo <= s / n <= hi.
Proof.
  intros Hn [H1 H2].
  assert (Hi : 0 < / n) by now apply Rinv_0_lt_compat.
  assert (E : n * / n = 1) by (apply Rinv_r; lra).
  unfold Rdiv. split.
  - replace lo with (lo * n * / n) by (rewrite Rmult_assoc, E; ring).
    apply Rmult_le_compat_r; lra.
  - replace hi with (hi * n * / n) by (rewrite Rmult_assoc, E; ring).
    apply Rmult_le_compat_r; lra.
Qed.

Lemma np_mean_bounded (a : list R) :
  a <> [] -> bounded b a -> 0 <= np_mean a <= b.
Proof.
  intros Hne Ha. unfold np_mean.
  apply quotient_bounds; [now apply INR_length_pos |].
  pose proof (np_sum_bounded a Ha). lra.
Qed.

Lemma fold_left_Rmax_bounded (a : list R) (x : R) :
  0 <= x <= b -> bounded b a -> 0 <= fold_left Rmax a x <= b.
Proof.
  intros Hx Ha. revert x Hx.
  induction Ha as [| y a Hy _ IH]; intros x Hx; simpl; [exact Hx |].
  apply IH. unfold Rmax. destruct (Rle_dec x y); lra.
Qed.

Lemma np_max_bounded (a : list R) :
  a <> [] -> bounded b a -> 0 <= np_max a <= b.
Proof.
  intros Hne Ha. destruct Ha as [| x a Hx Ha]; simpl; [congruence |].
  now apply fold_left_Rmax_bounded.
Qed.

End Reductions.

Lemma sqrt_le_bound (m b : R) : 0 <= b -> 0 <= m <= b * b -> 0 <= sqrt m <= b.
Proof.
  intros Hb [H0 H1]. split; [apply sqrt_pos |].
  rewrite <- (sqrt_square b Hb). now apply sqrt_le_1_alt.
Qed.

Lemma rms_bounded (b : R) (a : list R) :
  0 <= b -> a <> [] -> bounded b a ->
  0 <= sqrt (np_mean (np_square a)) <= b.
Proof.
  intros Hb Hne Ha. apply sqrt_le_bound; [exact Hb |].
  apply np_mean_bounded.
  - destruct a; [congruence | discriminate].
  - now apply np_square_bounded.
Qed.

(** [np.sum(currents * weights)] for the two weightings of the code. *)
Lemma np_mul_scaled (a : list R) (s : R) :
  np_sum (np_mul a (map (fun x => x / s) a)) = np_sum (np_square a) / s.
Proof.
  induction a as [| x a IH]; simpl.
  - unfold Rdiv. ring.
  - change (fold_right Rplus 0 (np_mul a (map (fun x => x / s) a)))
      with (np_sum (np_mul a (map (fun x => x / s) a))).
    rewrite IH.
    change (fold_right Rplus 0 (np_square a)) with (np_sum (np_square a)).
    unfold Rdiv. ring.
Qed.

Lemma np_sum_scaled (a : list R) (s : R) :
  np_sum (map (fun x => x / s) a) = np_sum a / s.
Proof.
  induction a as [| x a IH]; simpl.
  - unfold Rdiv. ring.
  - change (fold_right Rplus 0 (map (fun x => x / s) a))
      with (np_sum (map (fun x => x / s) a)).
    rewrite IH. change (fold_right Rplus 0 a) with (np_sum a).
    unfold Rdiv. ring.
Qed.

Lemma np_mul_ones (a : list R) :
  np_sum (np_mul a (map (fun _ => 1) a)) = np_sum a.
Proof.
  induction a as [| x a IH]; simpl; [reflexivity |].
  change (fold_right Rplus 0 (np_mul a (map (fun _ => 1) a)))
    with (np_sum (np_mul a (map (fun _ => 1) a))).
  rewrite IH. change (fold_right Rplus 0 a) with (np_sum a). ring.
Qed.

Lemma np_sum_ones (a : list R) :
  np_sum (map (fun _ => 1) a) = INR (length a).
Proof.
  induction a as [| x a IH]; [reflexivity |].
  change (length (x :: a)) with (S (length a)). rewrite S_INR.
  simpl. change (fold_right Rplus 0 (map (fun _ => 1) a))
    with (np_sum (map (fun _ => 1) a)).
  rewrite IH. ring.
Qed.

Lemma weighted_average_pos (a : list R) :
  0 < np_sum a -> weighted_average a = np_sum (np_square a) / np_sum a.
Proof.
  intros Hs. unfold weighted_average, np_average.
  rewrite (Rltb_true _ _ Hs), np_mul_scaled, np_sum_scaled.
  unfold Rdiv. rewrite Rinv_r by lra. rewrite Rinv_1. ring.
Qed.

Lemma weighted_average_nonpos (a : list R) :
  np_sum a <= 0 -> weighted_average a = np_mean a.
Proof.
  intros Hs. unfold weighted_average, np_average.
  rewrite (Rltb_false _ _ Hs), np_mul_ones, np_sum_ones. reflexivity.
Qed.

Lemma np_sum_square_le (b : R) (a : list R) :
  bounded b a -> 0 <= np_sum (np_square a) <= b * np_sum a.
Proof.
  induction 1 as [| x a Hx _ IH].
  - simpl. lra.
  - change (np_sum (np_square (x :: a))) with (x * x + np_sum (np_square a)).
    change (np_sum (x :: a)) with (x + np_sum a). nra.
Qed.

Lemma weighted_average_bounded (b : R) (a : list R) :
  0 <= b -> a <> [] -> bounded b a -> 0 <= weighted_average a <= b.
Proof.
  intros Hb Hne Ha.
  destruct (Rlt_dec 0 (np_sum a)) as [Hs | Hs].
  - rewrite weighted_average_pos by assumption.
    apply quotient_bounds; [assumption |].
    pose proof (np_sum_square_le b a Ha). lra.
  - rewrite weighted_average_nonpos by lra.
    now apply np_mean_bounded.
Qed.

(** ** The interpolator on a non-empty window *)

Lemma process_current_method (m : string) (c : Controller) (raw : R) :
  process_current (set_interpolation_method m c) raw = process_current c raw.
Proof. reflexivity. Qed.

Lemma interpolate_nonempty (c : Controller) (m : string) (w : list R) :
  w <> [] ->
  interpolate_current_window (set_interpolation_method m c) w =
  let currents := map (process_current c) w in
  if (m =? "average")%string then np_mean currents
  else if (m =? "rms")%string then sqrt (np_mean (np_square currents))
  else if (m =? "weighted_avg")%string then weighted_average currents
  else if (m =? "peak_aware")%string then
    0.7 * np_mean currents + 0.3 * np_max currents
  else if (m =? "energy_equiv")%string then
    sqrt (np_sum (np_square currents) / INR (length currents))
  else sqrt (np_mean (np_square currents)).
Proof.
  destruct w as [| x w]; [congruence |]. intros _. reflexivity.
Qed.

Lemma interpolate_empty (c : Controller) :
  interpolate_current_window c [] = 0.
Proof. unfold interpolate_current_window. simpl. lra. Qed.

Lemma process_current_bounded (c : Controller) (raw : R) :
  min_current c <= 0 <= max_current c ->
  0 <= process_current c raw <= max_current c.
Proof.
  intros [Hlo Hhi]. unfold process_current.
  set (p := if Rltb raw 0 then Rabs raw / 3 else 0).
  assert (Hp : 0 <= p).
  { unfold p. destruct (Rltb raw 0); [| lra].
    pose proof (Rabs_pos raw). lra. }
  unfold Rmax, Rmin.
  destruct (Rle_dec (max_current c) p);
    destruct (Rle_dec (min_current c) _); lra.
Qed.

Lemma process_current_clamped (c : Controller) (raw : R) :
  min_current c <= max_current c ->
  min_current c <= process_current c raw <= max_current c.
Proof.
  intros H. unfold process_current, Rmax, Rmin.
  destruct (Rle_dec (max_current c) _);
    destruct (Rle_dec (min_current c) _); lra.
Qed.

Lemma processed_bounded (c : Controller) (w : list R) :
  min_current c <= 0 <= max_current c ->
  bounded (max_current c) (map (process_current c) w).
Proof.
  intros H. induction w as [| x w IH]; simpl; constructor; [| exact IH].
  now apply process_current_bounded.
Qed.

Lemma energy_is_mean_square (a : list R) :
  np_sum (np_square a) / INR (length a) = np_mean (np_square a).
Proof. unfold np_mean. now rewrite np_square_length. Qed.

Lemma interpolate_bounded (c : Controller) (m : string) (w : list R) :
  min_current c <= 0 <= max_current c ->
  0 <= interpolate_current_window (set_interpolation_method m c) w
    <= max_current c.
Proof.
  intros H. destruct (list_eq_dec Req_dec_T w []) as [-> | Hne].
  - rewrite interpolate_empty. lra.
  - rewrite interpolate_nonempty by assumption. cbv zeta.
    pose proof (processed_bounded c w H) as Hb.
    assert (Hx : map (process_current c) w <> []).
    { destruct w; [congruence | discriminate]. }
    assert (Hmax : 0 <= max_current c) by lra.
    rewrite energy_is_mean_square.
    pose proof (np_mean_bounded _ _ Hx Hb).
    pose proof (np_max_bounded _ _ Hx Hb).
    pose proof (rms_bounded _ _ Hmax Hx Hb).
    pose proof (weighted_average_bounded _ _ Hmax Hx Hb).
    repeat match goal with
           | |- context [if ?t then _ else _] => destruct t
           end; lra.
Qed.

(** ** RMS against the mean *)

Lemma sum_of_deviations (a : list R) (t : R) :
  0 <= INR (length a) * (t * t) - 2 * t * np_sum a + np_sum (np_square a).
Proof.
  induction a as [| x a IH].
  - simpl. lra.
  - change (length (x :: a)) with (S (length a)). rewrite S_INR.
    change (np_sum (x :: a)) with (x + np_sum a).
    change (np_sum (np_square (x :: a))) with (x * x + np_sum (np_square a)).
    pose proof (Rle_0_sqr (t - x)) as Hsq. unfold Rsqr in Hsq. nra.
Qed.

Lemma square_of_sum (a : list R) :
  np_sum a * np_sum a <= INR (length a) * np_sum (np_square a).
Proof.
  induction a as [| x a IH].
  - simpl. lra.
  - change (length (x :: a)) with (S (length a)). rewrite S_INR.
    change (np_sum (x :: a)) with (x + np_sum a).
    change (np_sum (np_square (x :: a))) with (x * x + np_sum (np_square a)).
    pose proof (sum_of_deviations a x).
    assert (0 <= np_sum (np_square a)).
    { clear. induction a as [| y a IH]; simpl; [lra |].
      change (fold_right Rplus 0 (np_square a)) with (np_sum (np_square a)).
      nra. }
    nra.
Qed.

Lemma mean_le_rms (a : list R) :
  a <> [] -> np_mean a <= sqrt (np_mean (np_square a)).
Proof.
  intros Hne. pose proof (INR_length_pos a Hne) as Hn.
  destruct (Rle_dec (np_mean a) 0) as [Hm | Hm].
  - pose proof (sqrt_pos (np_mean (np_square a))). lra.
  - rewrite <- (sqrt_square (np_mean a)) by lra.
    apply sqrt_le_1_alt.
    unfold np_mean. rewrite np_square_length.
    pose proof (square_of_sum a) as Hs.
    assert (Hi : 0 < / INR (length a)) by now apply Rinv_0_lt_compat.
    assert (E : INR (length a) * / INR (length a) = 1) by (apply Rinv_r; lra).
    unfold Rdiv.
    replace (np_sum (np_square a) * / INR (length a))
      with (INR (length a) * np_sum (np_square a)
            * (/ INR (length a) * / INR (length a))).
    + replace (np_sum a * / INR (length a) * (np_sum a * / INR (length a)))
        with (np_sum a * np_sum a * (/ INR (length a) * / INR (length a)))
        by ring.
      apply Rmult_le_compat_r; [nra | exact Hs].
    + transitivity (np_sum (np_square a) * / INR (length a)
                    * (INR (length a) * / INR (length a))); [ring |].
      rewrite E. ring.
Qed.

(** ** Constant windows *)

Lemma map_constant {A B : Type} (f : A -> B) (k : B) (w : list A) :
  (forall x, In x w -> f x = k) -> map f w = repeat k (length w).
Proof.
  induction w as [| x w IH]; intros H; simpl; [reflexivity |].
  rewrite (H x) by (left; reflexivity).
  rewrite IH by (intros y Hy; apply H; right; exact Hy). reflexivity.
Qed.

Lemma np_sum_repeat (k : R) (n : nat) : np_sum (repeat k n) = INR n * k.
Proof.
  induction n as [| n IH]; [simpl; ring |].
  rewrite S_INR. simpl.
  change (fold_right Rplus 0 (repeat k n)) with (np_sum (repeat k n)).
  rewrite IH. ring.
Qed.

Lemma np_square_repeat (k : R) (n : nat) :
  np_square (repeat k n) = repeat (k * k) n.
Proof. induction n as [| n IH]; simpl; [reflexivity | now rewrite IH]. Qed.

Lemma np_mean_repeat (k : R) (n : nat) : (0 < n)%nat -> np_mean (repeat k n) = k.
Proof.
  intros Hn. unfold np_mean. rewrite np_sum_repeat, repeat_length.
  assert (0 < INR n) by now apply lt_0_INR.
  unfold Rdiv. rewrite Rmult_comm, <- Rmult_assoc, Rinv_l by lra. ring.
Qed.

Lemma np_max_repeat (k : R) (n : nat) : (0 < n)%nat -> np_max (repeat k n) = k.
Proof.
  destruct n as [| n]; [lia |]. intros _. simpl.
  induction n as [| n IH]; simpl; [reflexivity |].
  assert (E : Rmax k k = k) by (unfold Rmax; destruct (Rle_dec k k); reflexivity).
  rewrite E. exact IH.
Qed.

Lemma rms_repeat (k : R) (n : nat) :
  (0 < n)%nat -> 0 <= k -> sqrt (np_mean (np_square (repeat k n))) = k.
Proof.
  intros Hn Hk. rewrite np_square_repeat, np_mean_repeat by assumption.
  now apply sqrt_square.
Qed.

Lemma weighted_average_repeat (k : R) (n : nat) :
  (0 < n)%nat -> 0 <= k -> weighted_average (repeat k n) = k.
Proof.
  intros Hn Hk. assert (Hn' : 0 < INR n) by now apply lt_0_INR.
  destruct (Rle_dec k 0) as [Hz | Hz].
  - rewrite weighted_average_nonpos.
    + now apply np_mean_repeat.
    + rewrite np_sum_repeat. nra.
  - assert (Hs : 0 < np_sum (repeat k n)) by (rewrite np_sum_repeat; nra).
    rewrite weighted_average_pos by assumption.
    rewrite np_square_repeat, !np_sum_repeat.
    unfold Rdiv. rewrite Rinv_mult.
    transitivity (k * (INR n * / INR n) * (k * / k)); [ring |].
    rewrite !Rinv_r by lra. ring.
Qed.

Lemma interpolate_constant (c : Controller) (m : string) (w : list R) (k : R) :
  min_current c <= 0 <= max_current c ->
  w <> [] ->
  (forall raw, In raw w -> process_current c raw = k) ->
  interpolate_current_window (set_interpolation_method m c) w = k.
Proof.
  intros H Hne Hk.
  assert (Hn : (0 < length w)%nat) by (destruct w; [congruence | simpl; lia]).
  assert (Hk0 : 0 <= k).
  { destruct w as [| x w]; [congruence |].
    rewrite <- (Hk x) by (left; reflexivity).
    now apply process_current_bounded. }
  rewrite interpolate_nonempty by assumption. cbv zeta.
  rewrite (map_constant _ k w Hk), energy_is_mean_square.
  rewrite rms_repeat, np_mean_repeat, np_max_repeat, weighted_average_repeat
    by assumption.
  repeat match goal with
         | |- context [if ?t then _ else _] => destruct t
         end; lra.
Qed.

(** ** EnergyEquivalent against RMS *)

Lemma sum_of_squares_fold (x : list R) :
  fold_right (fun xi acc => xi * xi + acc) 0 x = np_sum (np_square x).
Proof.
  induction x as [| xi x IH]; simpl; [reflexivity |]. now rewrite IH.
Qed.

Lemma process_current_30 : process_current init (-30) = 10.
Proof.
  unfold process_current. rewrite Rltb_true by lra.
  rewrite Rabs_left by lra. simpl. unfold Rmax, Rmin.
  destruct (Rle_dec 40 _); destruct (Rle_dec 0 _); lra.
Qed.

(** C9: on a non-empty window the [energy_equiv] branch returns the
    square root of the sum of the squared processed samples over their
    number, which is what the [rms] branch returns; on the processed
    samples 10, 10, 10 (raw -30 under the settings of [__init__]) it
    returns 10. *)
Theorem energy_equivalent_equals_rms (c : Controller) (current_slice : list R) :
  current_slice <> [] ->
  interpolate_current_window
    (set_interpolation_method "energy_equiv" c) current_slice
  = energy_equivalent_spec (map (process_current c) current_slice)
  /\ interpolate_current_window
       (set_interpolation_method "energy_equiv" c) current_slice
     = interpolate_current_window
         (set_interpolation_method "rms" c) current_slice
  /\ map (process_current init) [-30; -30; -30] = [10; 10; 10]
  /\ interpolate_current_window
       (set_interpolation_method "energy_equiv" init) [-30; -30; -30] = 10.
Proof.
  intros Hne. split; [| split; [| split]].
  - rewrite interpolate_nonempty by assumption. simpl.
    unfold energy_equivalent_spec. now rewrite sum_of_squares_fold.
  - rewrite !interpolate_nonempty by assumption. simpl.
    now rewrite energy_is_mean_square.
  - simpl. now rewrite !process_current_30.
  - apply interpolate_constant.
    + simpl. lra.
    + discriminate.
    + intros raw Hraw. simpl in Hraw.
      destruct Hraw as [<- | [<- | [<- | []]]]; apply process_current_30.
Qed.

Lemma energy_equivalent_equals_rms_witness :
  interpolate_current_window
    (set_interpolation_method "energy_equiv" init) [-12; 7; -45]
  = interpolate_current_window (set_interpolation_method "rms" init) [-12; 7; -45].
Proof.
  assert (N : [-12; 7; -45] <> []) by discriminate.
  exact (proj1 (proj2 (energy_equivalent_equals_rms init [-12; 7; -45] N))).
Defined.

(** ** The measurement cache *)

(** Evaluation of a closed run: the model is computed with the operations
    of [R] left alone, and each comparison met is settled by arithmetic. *)
Ltac compute_run :=
  cbv -[Rplus Rminus Rmult Rdiv Rinv Ropp Rabs Rmax Rmin IZR INR Rltb Rleb
        sqrt Rlt Rle].

Ltac settle :=
  simpl; unfold Rmax, Rmin, Rabs;
  repeat match goal with
         | |- context [Rle_dec ?x ?y] => destruct (Rle_dec x y)
         | |- context [Rcase_abs ?x] => destruct (Rcase_abs x)
         end;
  lra.

Ltac decide_R :=
  match goal with
  | |- context [Rltb ?a ?b] =>
    first [ rewrite (Rltb_true a b) by settle
          | rewrite (Rltb_false a b) by settle ]
  | |- context [Rleb ?a ?b] =>
    first [ rewrite (Rleb_true a b) by settle
          | rewrite (Rleb_false a b) by settle ]
  end.

Ltac run := compute_run; repeat (decide_R; compute_run).

Lemma safe_measure_cases (c : Controller) (e : Env) :
  forall measured c' e',
    safe_measure c e = (measured, c', e') ->
    (c' = c /\ measured = (last_valid_voltage c, last_valid_current c))
    \/ (instrument c = true
        /\ measurement_interval c <= clock e - last_measurement_time c
        /\ exists voltage current e1,
             poll_voltage e = (Some voltage, e1)
             /\ clock e1 - clock e <= 5
             /\ poll_current e1 = (Some current, e')
             /\ 0 <= voltage <= 50 /\ 0 <= current <= 50
             /\ measured = (voltage, current)
             /\ cache c' = (voltage, current, Some (clock e'))
             /\ last_measurement_time c' = clock e').
Proof.
  intros measured c' e'. unfold safe_measure.
  assert (Same : forall (x z : Env) (y : R * R),
            (last_valid_voltage c, last_valid_current c, c, x) = (y, c', z) ->
            c' = c /\ y = (last_valid_voltage c, last_valid_current c)).
  { intros x y z H. inversion H; subst. split; reflexivity. }
  destruct (instrument c) eqn:Hi; cbn [negb].
  2: { intros H. left. eapply Same, H. }
  destruct (Rltb (clock e - last_measurement_time c) (measurement_interval c))
    eqn:Hrate.
  { intros H. left. eapply Same, H. }
  apply Rltb_spec_false in Hrate.
  destruct (poll_voltage e) as [voltage e1] eqn:Hv.
  destruct (Rltb 5 (clock e1 - clock e)) eqn:Hlong.
  { intros H. left. eapply Same, H. }
  apply Rltb_spec_false in Hlong.
  destruct (poll_current e1) as [current e2] eqn:Hc.
  destruct voltage as [voltage |]; [| intros H; left; eapply Same, H].
  destruct current as [current |]; [| intros H; left; eapply Same, H].
  destruct (Rleb 0 voltage) eqn:H1; cbn [andb];
    [| intros H; left; eapply Same, H].
  destruct (Rleb voltage 50) eqn:H2; cbn [andb];
    [| intros H; left; eapply Same, H].
  destruct (Rleb 0 current) eqn:H3; cbn [andb];
    [| intros H; left; eapply Same, H].
  destruct (Rleb current 50) eqn:H4; cbn [andb];
    [| intros H; left; eapply Same, H].
  apply Rleb_spec in H1, H2, H3, H4.
  intros H; inversion H; subst. right.
  split; [reflexivity |]. split; [exact Hrate |].
  exists voltage, current, e1. repeat split; try assumption; try reflexivity.
Qed.

(** A poll gives no value exactly when both of its attempts are unreadable. *)
Lemma measure_attempts_none (command : Command) (retry failed : Message) (e : Env) :
  fst (measure_attempts 2 0 command retry failed e) = None <->
  unreadable (outcome (device e (calls e)))
  /\ unreadable (outcome (device e (S (calls e)))).
Proof.
  simpl.
  destruct (outcome (device e (calls e))) as [| [v |]] eqn:H0; simpl;
    try (split; [discriminate | intros [[] _]]);
    destruct (outcome (device e (S (calls e)))) as [| [w |]] eqn:H1; simpl;
    try (split; [discriminate | intros [_ []]]);
    split; auto.
Qed.

(** C10: [__init__] fills the cache with 3.7 V and 0.0 A and no success
    timestamp.  A call of [safe_measure] either leaves the controller as
    it was and returns the cached pair, or both polls gave a parsed value,
    both values lie in [[0, 50]], and the cache and the timestamp hold
    them.  The first case is the one that happens when the call is
    rate-limited, when a poll raises or does not parse on both attempts,
    and when a value is out of range; so as long as no success timestamp
    exists the call returns the cache, which from [__init__] is 3.7 V. *)
Theorem measurement_cache_changes_only_on_valid_poll
    (c : Controller) (e : Env) (measured : R * R) (c' : Controller) (e' : Env) :
  safe_measure c e = (measured, c', e') ->
  let cached := (last_valid_voltage c, last_valid_current c) in
  cache init = (3.7, 0, None)
  /\ ((c' = c /\ measured = cached)
      \/ (exists voltage current e1,
            poll_voltage e = (Some voltage, e1)
            /\ poll_current e1 = (Some current, e')
            /\ 0 <= voltage <= 50 /\ 0 <= current <= 50
            /\ measured = (voltage, current)
            /\ cache c' = (voltage, current, Some (clock e'))))
  /\ (clock e - last_measurement_time c < measurement_interval c ->
      c' = c /\ measured = cached)
  /\ (unreadable (outcome (device e (calls e)))
      /\ unreadable (outcome (device e (S (calls e)))) ->
      c' = c /\ measured = cached)
  /\ (forall voltage e1, poll_voltage e = (Some voltage, e1) ->
      fst (poll_current e1) = None -> c' = c /\ measured = cached)
  /\ (forall voltage current e1,
        poll_voltage e = (Some voltage, e1) ->
        fst (poll_current e1) = Some current ->
        ~ (0 <= voltage <= 50 /\ 0 <= current <= 50) ->
        c' = c /\ measured = cached)
  /\ (last_measurement_success_time c' = None -> c' = c /\ measured = cached)
  /\ (cache c = cache init -> last_measurement_success_time c' = None ->
      measured = (3.7, 0)).
Proof.
  intros Hm cached. pose proof (safe_measure_cases c e _ _ _ Hm) as Hcases.
  split; [reflexivity |].
  split.
  { destruct Hcases as [H | (_ & _ & v & i & e1 & Hv & _ & Hc & Hvr & Hir & Hmeas & Hcache & _)];
      [left; exact H | right].
    exists v, i, e1. repeat split; try assumption; lra. }
  split.
  { intros Hrate.
    destruct Hcases as [H | (_ & Hnot & _)]; [exact H | lra]. }
  split.
  { intros Hun. apply (measure_attempts_none (Scpi ":MEAS:VOLT?")
      VoltageMeasurementRetry VoltageMeasurementFailed) in Hun.
    fold (poll_voltage e) in Hun.
    destruct Hcases as [H | (_ & _ & v & i & e1 & Hv & _)]; [exact H |].
    rewrite Hv in Hun. discriminate. }
  split.
  { intros voltage e1 Hv Hnone.
    destruct Hcases as [H | (_ & _ & v & i & e1' & Hv' & _ & Hc & _)]; [exact H |].
    rewrite Hv in Hv'. inversion Hv'; subst. rewrite Hc in Hnone. discriminate. }
  split.
  { intros voltage current e1 Hv Hsome Hrange.
    destruct Hcases as [H | (_ & _ & v & i & e1' & Hv' & _ & Hc & Hvr & Hir & _)];
      [exact H |].
    rewrite Hv in Hv'. inversion Hv'; subst. rewrite Hc in Hsome.
    inversion Hsome; subst. exfalso. apply Hrange. split; assumption. }
  assert (Hnone : last_measurement_success_time c' = None ->
                  c' = c /\ measured = cached).
  { intros Hnone.
    destruct Hcases as [H | (_ & _ & v & i & e1 & _ & _ & _ & _ & _ & _ & Hcache & _)];
      [exact H |].
    unfold cache in Hcache. inversion Hcache. congruence. }
  split; [exact Hnone |].
  intros Hinit Hn. destruct (Hnone Hn) as [_ ->].
  unfold cached. unfold cache in Hinit. simpl in Hinit. inversion Hinit.
  reflexivity.
Qed.

Lemma steady_measure :
  safe_measure connected (env_at 100 steady_device)
  = ((3.6, 1.5),
     set_last_measurement_time (100 + 0.01 + 0.01)
       (set_last_measurement_success_time (Some (100 + 0.01 + 0.01))
          (set_last_valid_current 1.5 (set_last_valid_voltage 3.6 connected))),
     mkEnv (100 + 0.01 + 0.01) steady_device 2
           [(100, Scpi ":MEAS:VOLT?"); (100 + 0.01, Scpi ":MEAS:CURR?")]
           [] [] None).
Proof. run. reflexivity. Qed.

Lemma measurement_cache_changes_only_on_valid_poll_witness :
  cache init = (3.7, 0, None)
  /\ cache (snd (fst (safe_measure connected (env_at 100 steady_device))))
     = (3.6, 1.5, Some (100 + 0.01 + 0.01)).
Proof.
  split.
  - exact (proj1 (measurement_cache_changes_only_on_valid_poll
                    _ _ _ _ _ steady_measure)).
  - rewrite steady_measure. reflexivity.
Defined.

(** ** safe_set_current *)

Lemma set_current_attempt_outcome (attempt : nat) (current_value : R) (e : Env) :
  let write := outcome (device e (write_index attempt e)) in
  let readback := outcome (device e (S (write_index attempt e))) in
  match fst (set_current_attempt attempt current_value e) with
  | WriteRaised => write = VisaError
  | Verified =>
    write <> VisaError
    /\ exists set_current,
         readback = Reply (Some set_current)
         /\ Rabs (set_current - current_value)
            <= Rmax 0.01 (Rabs (current_value * 0.01))
  | Mismatch =>
    write <> VisaError
    /\ exists set_current,
         readback = Reply (Some set_current)
         /\ Rmax 0.01 (Rabs (current_value * 0.01))
            < Rabs (set_current - current_value)
  | VerifyRaised => write <> VisaError /\ unreadable readback
  end.
Proof.
  unfold set_current_attempt. cbv zeta.
  set (e2 := if (0 <? attempt)%nat
             then let '(out, e') := instrument_call (Scpi "*CLS") (time_sleep 0.3 e) in
                  match out with
                  | Reply _ => time_sleep 0.1 e'
                  | VisaError => e'
                  end
             else time_sleep 0.3 e).
  assert (Hd : device e2 = device e /\ calls e2 = write_index attempt e).
  { unfold e2, write_index. destruct (0 <? attempt)%nat; cbn; [| now split].
    destruct (outcome (device e (calls e))); cbn; now split. }
  destruct Hd as [Hd Hc]. clearbody e2.
  assert (Hw : outcome (device e2 (calls e2))
               = outcome (device e (write_index attempt e))) by now rewrite Hd, Hc.
  assert (Hr : outcome (device e2 (S (calls e2)))
               = outcome (device e (S (write_index attempt e))))
    by now rewrite Hd, Hc.
  unfold instrument_call at 1. rewrite Hw.
  destruct (outcome (device e (write_index attempt e))) as [| w].
  { reflexivity. }
  cbn [time_sleep instrument_call clock device calls outcome latency
       wire console csv_log stop_at].
  rewrite Hr.
  destruct (outcome (device e (S (write_index attempt e)))) as [| [r |]].
  - cbn. split; [discriminate | exact I].
  - unfold tolerance.
    destruct (Rleb (Rabs (r - current_value))
                   (Rmax 0.01 (Rabs (current_value * 0.01)))) eqn:Ht; cbn;
      (split; [discriminate |]); exists r; (split; [reflexivity |]).
    + now apply Rleb_spec.
    + now apply Rleb_spec_false.
  - cbn. split; [discriminate | exact I].
Qed.

Lemma accepted_not_rejected (a : Attempt) : accepted a -> rejected a -> False.
Proof. intros [-> | ->] [H | H]; discriminate. Qed.

Lemma safe_set_current_loop_true (remaining attempt : nat) (v : R) (e : Env) :
  fst (safe_set_current_loop remaining attempt v e) = true
  <-> Exists accepted (set_current_attempts remaining attempt v e).
Proof.
  revert attempt e. induction remaining as [| r IH]; intros attempt e; simpl.
  - split; [discriminate | intros H; inversion H].
  - destruct (set_current_attempt attempt v e) as [a e1].
    destruct a.
    + destruct (attempt <? 4)%nat; simpl.
      * rewrite IH. split; intros H.
        -- now apply Exists_cons_tl.
        -- inversion H as [? ? [Ha | Ha] | ]; subst; [discriminate .. | assumption].
      * split; [discriminate |].
        intros H. inversion H as [? ? [Ha | Ha] | ? ? Ha]; subst;
          [discriminate .. | inversion Ha].
    + simpl. split; [| reflexivity]. intros _. apply Exists_cons_hd. now left.
    + rewrite IH. split; intros H.
      * now apply Exists_cons_tl.
      * inversion H as [? ? [Ha | Ha] | ]; subst; [discriminate .. | assumption].
    + simpl. split; [| reflexivity]. intros _. apply Exists_cons_hd. now right.
Qed.

Lemma safe_set_current_loop_false (remaining attempt : nat) (v : R) (e : Env) :
  fst (safe_set_current_loop remaining attempt v e) = false
  <-> Forall rejected (set_current_attempts remaining attempt v e).
Proof.
  split.
  - intros H. apply Forall_forall. intros a Ha.
    assert (N : ~ Exists accepted (set_current_attempts remaining attempt v e)).
    { rewrite <- safe_set_current_loop_true. congruence. }
    destruct a; [now left | | now right |];
      exfalso; apply N, Exists_exists; eexists; (split; [exact Ha |]);
      [now left | now right].
  - intros H.
    destruct (fst (safe_set_current_loop remaining attempt v e)) eqn:E;
      [| reflexivity].
    apply safe_set_current_loop_true, Exists_exists in E.
    destruct E as (a & Ha & Hacc).
    rewrite Forall_forall in H. exfalso.
    exact (accepted_not_rejected a Hacc (H a Ha)).
Qed.

Lemma set_current_attempts_length (remaining attempt : nat) (v : R) (e : Env) :
  (length (set_current_attempts remaining attempt v e) <= remaining)%nat
  /\ (remaining + attempt = 5 ->
      Forall rejected (set_current_attempts remaining attempt v e) ->
      length (set_current_attempts remaining attempt v e) = remaining)%nat
  /\ ((0 < remaining)%nat -> set_current_attempts remaining attempt v e <> []).
Proof.
  revert attempt e. induction remaining as [| r IH]; intros attempt e; simpl.
  - repeat split; try lia.
  - destruct (set_current_attempt attempt v e) as [a e1].
    destruct a.
    + destruct (attempt <? 4)%nat eqn:E4.
      * specialize (IH (S attempt)
          (time_sleep (1 * (INR attempt + 1))
             (log_message (CurrentSettingRetry (attempt + 1)) e1))).
        destruct IH as (IH1 & IH2 & _). simpl. repeat split.
        -- lia.
        -- intros Hs Hf. inversion Hf; subst. rewrite IH2; [reflexivity | lia | assumption].
        -- discriminate.
      * apply Nat.ltb_ge in E4. simpl. repeat split; try lia; discriminate.
    + simpl. repeat split; try lia; try discriminate.
      intros _ Hf. inversion Hf as [| ? ? [Hx | Hx] _]; discriminate.
    + specialize (IH (S attempt) e1). destruct IH as (IH1 & IH2 & _).
      simpl. repeat split.
      * lia.
      * intros Hs Hf. inversion Hf; subst. rewrite IH2; [reflexivity | lia | assumption].
      * discriminate.
    + simpl. repeat split; try lia; try discriminate.
      intros _ Hf. inversion Hf as [| ? ? [Hx | Hx] _]; discriminate.
Qed.

Lemma safe_write_loop_calls (remaining attempt : nat) (command : Command)
    (c : Controller) (e : Env) :
  (calls (snd (safe_write_loop remaining attempt command c e))
   <= calls e + remaining)%nat.
Proof.
  revert attempt e. induction remaining as [| n IH]; intros attempt e; simpl;
    [lia |].
  assert (Hc : calls (command_gate c e) = calls e).
  { unfold command_gate. destruct (Rltb _ _); reflexivity. }
  destruct (outcome (device (command_gate c e) (calls (command_gate c e)))).
  - destruct (attempt <? max_retries c - 1)%nat.
    + match goal with
      | |- context [safe_write_loop n (S attempt) command c ?x] =>
        set (e1 := x)
      end.
      specialize (IH (S attempt) e1).
      assert (H1 : calls e1 = S (calls e))
        by (unfold e1; simpl; now rewrite Hc).
      lia.
    + simpl. rewrite Hc. lia.
  - simpl. rewrite Hc. lia.
Qed.

(** ** The cutoff monitor, one evaluation *)









(** ** The cutoff monitor over a sequence *)














(** ** What each operation changes in the controller *)

Lemma safe_write_loop_frame (remaining attempt : nat) (command : Command)
    (c : Controller) (e : Env) :
  let c' := snd (fst (safe_write_loop remaining attempt command c e)) in
  c' = c \/ exists t, c' = set_last_command_time t c.
Proof.
  revert attempt e. induction remaining as [| r IH]; intros attempt e; simpl.
  - now left.
  - destruct (outcome (device (command_gate c e) (calls (command_gate c e)))).
    + destruct (attempt <? max_retries c - 1)%nat; [apply IH | now left].
    + right. simpl. eauto.
Qed.

Lemma safe_write_frame (command : Command) (c : Controller) (e : Env) :
  let c' := snd (fst (safe_write command c e)) in
  c' = c \/ exists t, c' = set_last_command_time t c.
Proof.
  unfold safe_write. destruct (instrument c); simpl;
    [apply safe_write_loop_frame | now left].
Qed.

Lemma safe_measure_frame (c : Controller) (e : Env) :
  let c' := snd (fst (safe_measure c e)) in
  c' = c
  \/ exists v i t,
       c' = set_last_measurement_time t
              (set_last_measurement_success_time (Some t)
                 (set_last_valid_current i (set_last_valid_voltage v c))).
Proof.
  unfold safe_measure.
  destruct (negb (instrument c)); [now left |].
  destruct (Rltb _ _); [now left |].
  destruct (poll_voltage e) as [voltage e1].
  destruct (Rltb _ _); [now left |].
  destruct (poll_current e1) as [current e2].
  destruct voltage as [v |]; [| now left].
  destruct current as [i |]; [| now left].
  destruct (_ && _)%bool; [| now left].
  right. simpl. eauto.
Qed.

Lemma load_control_frame (avg_current : R) (c : Controller) (e : Env) :
  let c' := snd (fst (load_control avg_current c e)) in
  c' = c \/ exists t, c' = set_last_command_time t c.
Proof.
  unfold load_control.
  destruct (Rltb 0.001 avg_current).
  - destruct (safe_set_current avg_current c e) as [success e1].
    destruct ((current_row c =? 0)%nat && success)%bool; [| now left].
    pose proof (safe_write_frame (Scpi ":SOUR:INP ON") c
                  (time_sleep 0.2
                     (if success then e1
                      else log_message FailedToSetCurrentLevel e1))) as H.
    destruct (safe_write _ _ _) as [[ok c3] e3]. simpl in H.
    destruct ok; exact H.
  - destruct (safe_set_current 0 c e) as [success e1]. now left.
Qed.

Lemma check_voltage_cutoff_frame (voltage : R) (c : Controller) (e : Env) :
  let c' := snd (fst (check_voltage_cutoff voltage c e)) in
  c' = c \/ exists b, c' = set_voltage_below_cutoff_time b c.
Proof.
  unfold check_voltage_cutoff.
  destruct (last_measurement_success_time c); [| now left].
  destruct (Rleb _ _).
  - destruct (Rleb _ _).
    + destruct (voltage_below_cutoff_time c).
      * destruct (Rleb _ _); now left.
      * right. simpl. eauto.
    + right. simpl. eauto.
  - destruct (Rltb _ _); [| now left].
    destruct (voltage_below_cutoff_time c); [| now left].
    right. simpl. eauto.
Qed.

(** ** A pending countdown has a successful measurement behind it *)






(** ** Stale measurements *)


(** ** The command gate *)

Lemma command_gate_spacing (c : Controller) (e : Env) :
  command_interval c <= clock (command_gate c e) - last_command_time c
  /\ wire (command_gate c e) = wire e.
Proof.
  unfold command_gate.
  destruct (Rltb (clock e - last_command_time c) (command_interval c)) eqn:H.
  - simpl. split; [lra | reflexivity].
  - apply Rltb_spec_false in H. split; [lra | reflexivity].
Qed.

Lemma safe_write_loop_gated (remaining attempt : nat) (command : Command)
    (c : Controller) (e : Env) :
  let r := safe_write_loop remaining attempt command c e in
  (exists sent,
     wire (snd r) = wire e ++ sent
     /\ Forall (fun s => command_interval c <= fst s - last_command_time c) sent)
  /\ (fst (fst r) = true -> last_command_time (snd (fst r)) = clock (snd r)).
Proof.
  revert attempt e. induction remaining as [| n IH]; intros attempt e; simpl.
  - split; [| discriminate]. exists []. split; [now rewrite app_nil_r | constructor].
  - destruct (command_gate_spacing c e) as [Hgap Hwire].
    destruct (outcome (device (command_gate c e) (calls (command_gate c e)))).
    + destruct (attempt <? max_retries c - 1)%nat.
      * match goal with
        | |- context [safe_write_loop n (S attempt) command c ?x] => set (e1 := x)
        end.
        destruct (IH (S attempt) e1) as [(sent & Hs & Hf) Hl].
        split; [| exact Hl].
        exists ((clock (command_gate c e), command) :: sent).
        split; [| now constructor].
        rewrite Hs. unfold e1. simpl. rewrite Hwire, <- app_assoc. reflexivity.
      * simpl. split; [| discriminate].
        exists [(clock (command_gate c e), command)].
        split; [now rewrite Hwire |]. constructor; [exact Hgap | constructor].
    + simpl. split; [| reflexivity].
      exists [(clock (command_gate c e), command)].
      split; [now rewrite Hwire |]. constructor; [exact Hgap | constructor].
Qed.

Lemma safe_query_loop_gated (remaining attempt : nat) (command : Command)
    (c : Controller) (e : Env) :
  let r := safe_query_loop remaining attempt command c e in
  (exists sent,
     wire (snd r) = wire e ++ sent
     /\ Forall (fun s => command_interval c <= fst s - last_command_time c) sent)
  /\ (fst (fst r) <> None -> last_command_time (snd (fst r)) = clock (snd r)).
Proof.
  revert attempt e. induction remaining as [| n IH]; intros attempt e; simpl.
  - split; [| congruence]. exists []. split; [now rewrite app_nil_r | constructor].
  - destruct (command_gate_spacing c e) as [Hgap Hwire].
    destruct (outcome (device (command_gate c e) (calls (command_gate c e)))).
    + destruct (attempt <? max_retries c - 1)%nat.
      * match goal with
        | |- context [safe_query_loop n (S attempt) command c ?x] => set (e1 := x)
        end.
        destruct (IH (S attempt) e1) as [(sent & Hs & Hf) Hl].
        split; [| exact Hl].
        exists ((clock (command_gate c e), command) :: sent).
        split; [| now constructor].
        rewrite Hs. unfold e1. simpl. rewrite Hwire, <- app_assoc. reflexivity.
      * simpl. split; [| congruence].
        exists [(clock (command_gate c e), command)].
        split; [now rewrite Hwire |]. constructor; [exact Hgap | constructor].
    + simpl. split; [| reflexivity].
      exists [(clock (command_gate c e), command)].
      split; [now rewrite Hwire |]. constructor; [exact Hgap | constructor].
Qed.

Lemma flaky_set_current :
  safe_set_current 1 connected (env_at 0 flaky_device)
  = (true,
     mkEnv (0 + 0.3 + 0.01 + 1 * (0 + 1) + 0.3 + 0.01 + 0.1 + 0.01
            + 1 * (1 + 1) + 0.3 + 0.01 + 0.1 + 0.01 + 0.2 + 0.1 + 0.01)
       flaky_device 6
       [ (0 + 0.3, SourCurrLev 1);
         (0 + 0.3 + 0.01 + 1 * (0 + 1) + 0.3, Scpi "*CLS");
         (0 + 0.3 + 0.01 + 1 * (0 + 1) + 0.3 + 0.01 + 0.1, SourCurrLev 1);
         (0 + 0.3 + 0.01 + 1 * (0 + 1) + 0.3 + 0.01 + 0.1 + 0.01
          + 1 * (1 + 1) + 0.3, Scpi "*CLS");
         (0 + 0.3 + 0.01 + 1 * (0 + 1) + 0.3 + 0.01 + 0.1 + 0.01
          + 1 * (1 + 1) + 0.3 + 0.01 + 0.1, SourCurrLev 1);
         (0 + 0.3 + 0.01 + 1 * (0 + 1) + 0.3 + 0.01 + 0.1 + 0.01
          + 1 * (1 + 1) + 0.3 + 0.01 + 0.1 + 0.01 + 0.2 + 0.1,
          Scpi ":SOUR:CURR:LEV?") ]
       [ CurrentSettingRetry 1; CurrentSettingRetry 2;
         CurrentSetSuccessfully 1 1 ]
       [] None).
Proof. run. reflexivity. Qed.

(** C5: [safe_write] and [safe_query] put a command on the wire only
    when [command_interval] has passed since [last_command_time], and
    record the instant of a command that went through.  [safe_measure]
    and [safe_set_current] call the instrument directly, and
    [safe_measure] never writes [last_command_time].  With a device
    that answers after 10 ms, [safe_measure] sends [:MEAS:CURR?] 10 ms
    after [:MEAS:VOLT?] and leaves [last_command_time] where it was; the
    second attempt of [safe_set_current] sends the setpoint 0.11 s after
    its [*CLS]; both gaps are below the 0.3 s of [command_interval]. *)
Theorem measure_and_setpoint_bypass_command_gate :
  (forall command c e,
     let r := safe_write command c e in
     (exists sent,
        wire (snd r) = wire e ++ sent
        /\ Forall (fun s => command_interval c <= fst s - last_command_time c)
                  sent)
     /\ (fst (fst r) = true -> last_command_time (snd (fst r)) = clock (snd r)))
  /\ (forall command c e,
        let r := safe_query command c e in
        (exists sent,
           wire (snd r) = wire e ++ sent
           /\ Forall (fun s => command_interval c <= fst s - last_command_time c)
                     sent)
        /\ (fst (fst r) <> None ->
            last_command_time (snd (fst r)) = clock (snd r)))
  /\ (forall c e,
        last_command_time (snd (fst (safe_measure c e))) = last_command_time c)
  /\ (let r := safe_measure connected (env_at 100 steady_device) in
      wire (snd r)
      = [(100, Scpi ":MEAS:VOLT?"); (100 + 0.01, Scpi ":MEAS:CURR?")]
      /\ (100 + 0.01) - 100 < command_interval connected
      /\ last_command_time (snd (fst r)) = last_command_time connected)
  /\ (exists t,
        let sent := wire (snd (safe_set_current 1 connected
                                 (env_at 0 flaky_device))) in
        nth_error sent 1 = Some (t, Scpi "*CLS")
        /\ nth_error sent 2 = Some (t + 0.01 + 0.1, SourCurrLev 1)
        /\ (t + 0.01 + 0.1) - t < command_interval connected).
Proof.
  split; [| split; [| split; [| split]]].
  3: { intros c e. destruct (safe_measure_frame c e) as [-> | (v & i & t & ->)];
         reflexivity. }
  - intros command c e r. unfold r, safe_write.
    destruct (instrument c); simpl.
    + apply safe_write_loop_gated.
    + split; [| discriminate]. exists []. split; [now rewrite app_nil_r | constructor].
  - intros command c e r. unfold r, safe_query.
    destruct (instrument c); simpl.
    + apply safe_query_loop_gated.
    + split; [| congruence]. exists []. split; [now rewrite app_nil_r | constructor].
  - rewrite steady_measure. simpl. repeat split. lra.
  - rewrite flaky_set_current. eexists. simpl.
    split; [reflexivity |]. split; [reflexivity |]. lra.
Qed.

(** ** Where the output-enable command can come from *)

Lemma no_new_enable_refl (e : Env) : no_new_enable e e.
Proof. intros t H. exact H. Qed.

Lemma no_new_enable_trans (e1 e2 e3 : Env) :
  no_new_enable e1 e2 -> no_new_enable e2 e3 -> no_new_enable e1 e3.
Proof. intros H12 H23 t H. apply H12, H23, H. Qed.

Lemma no_new_enable_same_wire (e e' : Env) :
  wire e' = wire e -> no_new_enable e e'.
Proof. intros E t H. now rewrite E in H. Qed.

Lemma no_new_enable_call (command : Command) (e : Env) :
  command <> enable -> no_new_enable e (snd (instrument_call command e)).
Proof.
  intros Hc t H. simpl in H. apply in_app_or in H.
  destruct H as [H | [H | []]]; [exact H |].
  inversion H; subst. now contradiction Hc.
Qed.

Lemma no_new_enable_attempts (remaining attempt : nat) (command : Command)
    (retry failed : Message) (e : Env) :
  command <> enable ->
  no_new_enable e (snd (measure_attempts remaining attempt command retry failed e)).
Proof.
  intros Hc. revert attempt e.
  induction remaining as [| n IH]; intros attempt e; simpl;
    [apply no_new_enable_refl |].
  pose proof (no_new_enable_call command e Hc) as H1. simpl in H1.
  destruct (outcome (device e (calls e))) as [| [v |]]; [| exact H1 |];
    (destruct (attempt =? 0)%nat;
     (eapply no_new_enable_trans; [exact H1 |]);
     (eapply no_new_enable_trans; [| apply IH]);
     apply no_new_enable_same_wire; reflexivity).
Qed.

Lemma no_new_enable_measure (c : Controller) (e : Env) :
  no_new_enable e (snd (safe_measure c e)).
Proof.
  unfold safe_measure.
  destruct (negb (instrument c)); [apply no_new_enable_refl |].
  destruct (Rltb _ _); [apply no_new_enable_refl |].
  pose proof (no_new_enable_attempts 2 0 (Scpi ":MEAS:VOLT?")
                VoltageMeasurementRetry VoltageMeasurementFailed e) as Hv.
  fold (poll_voltage e) in Hv.
  destruct (poll_voltage e) as [voltage e1]. simpl in Hv.
  specialize (Hv ltac:(discriminate)).
  destruct (Rltb _ _).
  { simpl. eapply no_new_enable_trans; [exact Hv |].
    apply no_new_enable_same_wire. reflexivity. }
  pose proof (no_new_enable_attempts 2 0 (Scpi ":MEAS:CURR?")
                CurrentMeasurementRetry CurrentMeasurementFailed e1) as Hc.
  fold (poll_current e1) in Hc.
  destruct (poll_current e1) as [current e2]. simpl in Hc.
  specialize (Hc ltac:(discriminate)).
  pose proof (no_new_enable_trans _ _ _ Hv Hc) as H.
  destruct voltage as [v |]; [| exact H].
  destruct current as [i |]; [| exact H].
  destruct (_ && _)%bool; [exact H |].
  simpl. eapply no_new_enable_trans; [exact H |].
  apply no_new_enable_same_wire. reflexivity.
Qed.

Lemma no_new_enable_set_current_attempt (attempt : nat) (v : R) (e : Env) :
  no_new_enable e (snd (set_current_attempt attempt v e)).
Proof.
  unfold set_current_attempt. cbv zeta.
  set (e2 := if (0 <? attempt)%nat
             then let '(out, e') := instrument_call (Scpi "*CLS") (time_sleep 0.3 e) in
                  match out with
                  | Reply _ => time_sleep 0.1 e'
                  | VisaError => e'
                  end
             else time_sleep 0.3 e).
  assert (H2 : no_new_enable e e2).
  { unfold e2. destruct (0 <? attempt)%nat.
    - pose proof (no_new_enable_call (Scpi "*CLS") (time_sleep 0.3 e)
                    ltac:(discriminate)) as H.
      destruct (instrument_call (Scpi "*CLS") (time_sleep 0.3 e)) as [out e'].
      simpl in H. destruct out; [exact H |].
      eapply no_new_enable_trans; [exact H |].
      apply no_new_enable_same_wire. reflexivity.
    - apply no_new_enable_same_wire. reflexivity. }
  clearbody e2.
  pose proof (no_new_enable_call (SourCurrLev v) e2 ltac:(discriminate)) as H3.
  destruct (instrument_call (SourCurrLev v) e2) as [out e3]. simpl in H3.
  pose proof (no_new_enable_trans _ _ _ H2 H3) as H23.
  destruct out; [exact H23 |].
  pose proof (no_new_enable_call (Scpi ":SOUR:CURR:LEV?")
                (time_sleep 0.1 (time_sleep 0.2 e3)) ltac:(discriminate)) as H5.
  destruct (instrument_call (Scpi ":SOUR:CURR:LEV?") _) as [out5 e5].
  simpl in H5.
  assert (H : no_new_enable e e5).
  { eapply no_new_enable_trans; [exact H23 |]. exact H5. }
  assert (L : forall m, no_new_enable e (log_message m e5)).
  { intros m. eapply no_new_enable_trans; [exact H |].
    apply no_new_enable_same_wire. reflexivity. }
  destruct out5 as [| [r |]]; [apply L | | apply L].
  destruct (Rleb _ _); apply L.
Qed.

Lemma no_new_enable_set_current_loop (remaining attempt : nat) (v : R) (e : Env) :
  no_new_enable e (snd (safe_set_current_loop remaining attempt v e)).
Proof.
  revert attempt e. induction remaining as [| n IH]; intros attempt e; simpl;
    [apply no_new_enable_refl |].
  pose proof (no_new_enable_set_current_attempt attempt v e) as H.
  destruct (set_current_attempt attempt v e) as [a e1]. simpl in H.
  destruct a; try exact H.
  - destruct (attempt <? 4)%nat.
    + eapply no_new_enable_trans; [exact H |].
      eapply no_new_enable_trans; [| apply IH].
      apply no_new_enable_same_wire. reflexivity.
    + simpl. eapply no_new_enable_trans; [exact H |].
      apply no_new_enable_same_wire. reflexivity.
  - eapply no_new_enable_trans; [exact H | apply IH].
Qed.

Lemma no_new_enable_set_current (v : R) (c : Controller) (e : Env) :
  no_new_enable e (snd (safe_set_current v c e)).
Proof.
  unfold safe_set_current. destruct (negb (instrument c));
    [apply no_new_enable_refl | apply no_new_enable_set_current_loop].
Qed.

Lemma check_voltage_cutoff_wire (voltage : R) (c : Controller) (e : Env) :
  wire (snd (check_voltage_cutoff voltage c e)) = wire e.
Proof.
  unfold check_voltage_cutoff.
  destruct (last_measurement_success_time c); [| reflexivity].
  destruct (Rleb _ _).
  - destruct (Rleb _ _).
    + destruct (voltage_below_cutoff_time c); [| reflexivity].
      destruct (Rleb _ _); reflexivity.
    + destruct (voltage_below_cutoff_time c); reflexivity.
  - destruct (Rltb _ _); [| reflexivity].
    destruct (voltage_below_cutoff_time c); reflexivity.
Qed.

Lemma no_new_enable_write_loop (remaining attempt : nat) (command : Command)
    (c : Controller) (e : Env) :
  command <> enable ->
  no_new_enable e (snd (safe_write_loop remaining attempt command c e)).
Proof.
  intros Hc. revert attempt e.
  induction remaining as [| n IH]; intros attempt e; simpl;
    [apply no_new_enable_refl |].
  assert (Hg : no_new_enable e (command_gate c e)).
  { apply no_new_enable_same_wire, command_gate_spacing. }
  pose proof (no_new_enable_call command (command_gate c e) Hc) as H1.
  simpl in H1. pose proof (no_new_enable_trans _ _ _ Hg H1) as H.
  destruct (outcome (device (command_gate c e) (calls (command_gate c e))));
    [| exact H].
  destruct (attempt <? max_retries c - 1)%nat.
  - eapply no_new_enable_trans; [exact H |].
    eapply no_new_enable_trans; [| apply IH].
    apply no_new_enable_same_wire. reflexivity.
  - simpl. eapply no_new_enable_trans; [exact H |].
    apply no_new_enable_same_wire. reflexivity.
Qed.

Lemma no_new_enable_write (command : Command) (c : Controller) (e : Env) :
  command <> enable -> no_new_enable e (snd (safe_write command c e)).
Proof.
  intros Hc. unfold safe_write. destruct (negb (instrument c));
    [apply no_new_enable_refl | now apply no_new_enable_write_loop].
Qed.

Lemma safe_set_current_controller (v : R) (c c' : Controller) (e : Env) :
  instrument c' = instrument c ->
  safe_set_current v c' e = safe_set_current v c e.
Proof. intros H. unfold safe_set_current. now rewrite H. Qed.

Lemma load_control_enable (avg : R) (c : Controller) (e : Env) (t : R) :
  In (t, enable) (wire (snd (load_control avg c e))) ->
  In (t, enable) (wire e)
  \/ (current_row c = 0%nat /\ 0.001 < avg
      /\ fst (safe_set_current avg c e) = true).
Proof.
  unfold load_control.
  destruct (Rltb 0.001 avg) eqn:Havg.
  - apply Rltb_spec in Havg.
    pose proof (no_new_enable_set_current avg c e) as H1.
    destruct (safe_set_current avg c e) as [success e1]. simpl in H1.
    destruct (current_row c =? 0)%nat eqn:Hrow; simpl.
    + destruct success.
      * intros _. right. apply Nat.eqb_eq in Hrow. repeat split; assumption.
      * simpl. intros H. left. apply H1. exact H.
    + intros H. left. apply H1. destruct success; exact H.
  - pose proof (no_new_enable_set_current 0 c e) as H1.
    destruct (safe_set_current 0 c e) as [success e1]. simpl in *.
    intros H. left. apply H1. destruct success; exact H.
Qed.

Lemma batch_enable (total_rows : nat) (c : Controller) (e : Env) (t : R) :
  In (t, enable) (wire (snd (batch total_rows c e))) ->
  In (t, enable) (wire e) \/ first_setpoint_succeeds total_rows c e.
Proof.
  unfold batch. cbv zeta.
  fold (window total_rows c). fold (window_current total_rows c).
  change (current_row (set_target_current (window_current total_rows c) c))
    with (current_row c).
  fold (after_window_info total_rows c e).
  set (c1 := set_target_current (window_current total_rows c) c).
  set (e1 := after_window_info total_rows c e).
  assert (He1 : wire e1 = wire e).
  { unfold e1, after_window_info. destruct (_ =? _)%nat; reflexivity. }
  pose proof (load_control_enable (window_current total_rows c) c1 e1 t) as Hl.
  rewrite (safe_set_current_controller _ c c1 e1 eq_refl) in Hl.
  change (current_row c1) with (current_row c) in Hl. rewrite He1 in Hl.
  destruct (load_control (window_current total_rows c) c1 e1)
    as [[stop c2] e2].
  simpl in Hl. destruct stop; [exact Hl |].
  pose proof (no_new_enable_measure c2 e2) as Hm.
  destruct (safe_measure c2 e2) as [[[voltage current] c3] e3].
  simpl in Hm.
  destruct (start_time c3) as [started |].
  - match goal with
    | |- context [check_voltage_cutoff voltage c3 ?x] => set (e4 := x)
    end.
    pose proof (check_voltage_cutoff_wire voltage c3 e4) as Hw.
    destruct (check_voltage_cutoff voltage c3 e4) as [[tripped c5] e5].
    simpl in Hw.
    assert (E : wire e5 = wire e3) by (rewrite Hw; reflexivity).
    intros H. apply Hl, Hm. rewrite <- E. destruct tripped; exact H.
  - intros H. apply Hl, Hm. exact H.
Qed.

Lemma batch_current_row (total_rows : nat) (c : Controller) (e : Env) :
  current_row (snd (fst (batch total_rows c e))) = current_row c
  /\ test_running (snd (fst (batch total_rows c e))) = test_running c
  /\ start_time (snd (fst (batch total_rows c e))) = start_time c
  /\ instrument (snd (fst (batch total_rows c e))) = instrument c
  /\ test_data (snd (fst (batch total_rows c e))) = test_data c.
Proof.
  unfold batch. cbv zeta.
  set (avg := interpolate_current_window c _).
  set (c1 := set_target_current avg c).
  match goal with
  | |- context [load_control avg c1 ?x] => set (e1 := x)
  end.
  pose proof (load_control_frame avg c1 e1) as Hl.
  destruct (load_control avg c1 e1) as [[stop c2] e2]. simpl in Hl.
  assert (H2 : current_row c2 = current_row c
               /\ test_running c2 = test_running c
               /\ start_time c2 = start_time c
               /\ instrument c2 = instrument c
               /\ test_data c2 = test_data c).
  { destruct Hl as [-> | (t & ->)]; repeat split. }
  destruct stop; [exact H2 |].
  pose proof (safe_measure_frame c2 e2) as Hm.
  destruct (safe_measure c2 e2) as [[[voltage current] c3] e3]. simpl in Hm.
  assert (H3 : current_row c3 = current_row c
               /\ test_running c3 = test_running c
               /\ start_time c3 = start_time c
               /\ instrument c3 = instrument c
               /\ test_data c3 = test_data c).
  { destruct Hm as [-> | (v & i & t & ->)]; exact H2. }
  destruct (start_time c3) as [started |] eqn:Hst;
    [| simpl; rewrite Hst; exact H3].
  rewrite <- Hst in H3.
  match goal with
  | |- context [check_voltage_cutoff voltage c3 ?x] => set (e4 := x)
  end.
  pose proof (check_voltage_cutoff_frame voltage c3 e4) as Hc.
  destruct (check_voltage_cutoff voltage c3 e4) as [[tripped c5] e5].
  simpl in Hc.
  assert (H5 : current_row c5 = current_row c
               /\ test_running c5 = test_running c
               /\ start_time c5 = start_time c
               /\ instrument c5 = instrument c
               /\ test_data c5 = test_data c).
  { destruct Hc as [-> | (b & ->)]; exact H3. }
  destruct tripped; exact H5.
Qed.

Lemma batch_no_enable_later (total_rows : nat) (c : Controller) (e : Env) :
  current_row c <> 0%nat -> no_new_enable e (snd (batch total_rows c e)).
Proof.
  intros Hrow t H. destruct (batch_enable total_rows c e t H) as [H' | [C _]];
    [exact H' | contradiction].
Qed.

Lemma test_loop_while_pass (fuel total_rows : nat) (c : Controller) (e : Env) :
  test_loop_while (S fuel) total_rows c e =
  if negb (while_condition total_rows c e) then (WhileConditionFalse, c, e)
  else if stop_event_is_set e then (StopEventBreak, c, e)
  else
    let '(leave, c1, e1) :=
      if (current_row c mod 200 =? 0)%nat then batch total_rows c e
      else (None, c, e) in
    match leave with
    | Some x => (x, c1, e1)
    | None =>
      let '(c3, e3) := advance total_rows c1 e1 in
      test_loop_while fuel total_rows c3 e3
    end.
Proof. reflexivity. Qed.

Lemma advance_spec (total_rows : nat) (c1 : Controller) (e1 : Env) :
  current_row (fst (advance total_rows c1 e1)) = (current_row c1 + 1)%nat
  /\ test_running (fst (advance total_rows c1 e1)) = test_running c1
  /\ start_time (fst (advance total_rows c1 e1)) = start_time c1
  /\ instrument (fst (advance total_rows c1 e1)) = instrument c1
  /\ test_data (fst (advance total_rows c1 e1)) = test_data c1
  /\ wire (snd (advance total_rows c1 e1)) = wire e1
  /\ stop_at (snd (advance total_rows c1 e1)) = stop_at e1.
Proof.
  unfold advance. cbv zeta. cbn [fst snd].
  repeat split;
    destruct (_ mod 200 =? 0)%nat; destruct (_ mod 2000 =? 0)%nat; reflexivity.
Qed.

Lemma loop_no_enable_later (fuel total_rows : nat) (c : Controller) (e : Env) :
  current_row c <> 0%nat ->
  no_new_enable e (snd (test_loop_while fuel total_rows c e)).
Proof.
  revert c e. induction fuel as [| f IH]; intros c e Hrow;
    [apply no_new_enable_refl |].
  rewrite test_loop_while_pass.
  destruct (negb _); [apply no_new_enable_refl |].
  destruct (stop_event_is_set e); [apply no_new_enable_refl |].
  assert (Hstep : forall c1 e1,
            current_row c1 = current_row c -> no_new_enable e e1 ->
            no_new_enable e
              (snd (let '(c3, e3) := advance total_rows c1 e1 in
                    test_loop_while f total_rows c3 e3))).
  { intros c1 e1 Hc1 He1.
    pose proof (advance_spec total_rows c1 e1) as (Hr & _ & _ & _ & _ & Hw & _).
    destruct (advance total_rows c1 e1) as [c3 e3]. simpl in Hr, Hw.
    eapply no_new_enable_trans; [exact He1 |].
    eapply no_new_enable_trans; [| apply IH; lia].
    now apply no_new_enable_same_wire. }
  destruct (current_row c mod 200 =? 0)%nat.
  - pose proof (batch_no_enable_later total_rows c e Hrow) as Hb.
    pose proof (batch_current_row total_rows c e) as [Hr _].
    destruct (batch total_rows c e) as [[leave c1] e1]. simpl in Hb, Hr.
    destruct leave; [exact Hb | now apply Hstep].
  - apply Hstep; [reflexivity | apply no_new_enable_refl].
Qed.

Lemma loop_enable (fuel total_rows : nat) (c : Controller) (e : Env) (t : R) :
  In (t, enable) (wire (snd (test_loop_while fuel total_rows c e))) ->
  In (t, enable) (wire e) \/ first_setpoint_succeeds total_rows c e.
Proof.
  destruct (Nat.eq_dec (current_row c) 0) as [Hrow | Hrow].
  2: { intros H. left. now apply (loop_no_enable_later fuel total_rows c e Hrow). }
  destruct fuel as [| f]; [intros H; now left |].
  rewrite test_loop_while_pass.
  destruct (negb _); [intros H; now left |].
  destruct (stop_event_is_set e); [intros H; now left |].
  rewrite Hrow. change (0 mod 200 =? 0)%nat with true. cbv iota.
  pose proof (batch_enable total_rows c e t) as Hb.
  pose proof (batch_current_row total_rows c e) as [Hr _].
  destruct (batch total_rows c e) as [[leave c1] e1]. simpl in Hb, Hr.
  destruct leave as [x |]; [exact Hb |].
  pose proof (advance_spec total_rows c1 e1) as (Hr3 & _ & _ & _ & _ & Hw & _).
  destruct (advance total_rows c1 e1) as [c3 e3]. simpl in Hr3, Hw.
  intros H. apply Hb. rewrite <- Hw.
  apply (loop_no_enable_later f total_rows c3 e3); [lia | exact H].
Qed.

Lemma no_new_enable_ensure_load_off (c : Controller) (e : Env) :
  no_new_enable e (snd (ensure_load_off c e)).
Proof.
  unfold ensure_load_off. destruct (instrument c); [| apply no_new_enable_refl].
  pose proof (no_new_enable_write (Scpi ":SOUR:INP OFF") c e
                ltac:(discriminate)) as H.
  destruct (safe_write (Scpi ":SOUR:INP OFF") c e) as [[ok c1] e1].
  simpl in *. eapply no_new_enable_trans; [exact H |].
  apply no_new_enable_same_wire. reflexivity.
Qed.

Lemma test_loop_exit (c : Controller) (e : Env) :
  fst (fst (test_loop c e))
  = fst (fst (test_loop_while (length (test_data c) - current_row c)
                (length (test_data c)) c e)).
Proof.
  unfold test_loop. cbv zeta.
  destruct (test_loop_while _ _ c e) as [[leave c1] e1].
  destruct leave;
    repeat match goal with
           | |- context [safe_write ?a ?b ?d] =>
             destruct (safe_write a b d) as [[? ?] ?]
           | |- context [ensure_load_off ?a ?b] =>
             destruct (ensure_load_off a b) as [? ?]
           end; reflexivity.
Qed.

Lemma test_loop_enable (c : Controller) (e : Env) (t : R) :
  In (t, enable) (wire (snd (test_loop c e))) ->
  In (t, enable) (wire e)
  \/ first_setpoint_succeeds (length (test_data c)) c e.
Proof.
  unfold test_loop. cbv zeta.
  pose proof (loop_enable (length (test_data c) - current_row c)
                (length (test_data c)) c e t) as Hl.
  destruct (test_loop_while _ _ c e) as [[leave c1] e1]. simpl in Hl.
  set (c2 := set_test_running false c1).
  assert (Hend : forall e0 : Env, no_new_enable e1 e0 ->
            In (t, enable) (wire e0) ->
            In (t, enable) (wire e)
            \/ first_setpoint_succeeds (length (test_data c)) c e).
  { intros e0 H0 H. apply Hl, H0, H. }
  assert (Hnormal :
    In (t, enable)
       (wire (snd (let '(_, c3, e3) := safe_write (Scpi ":SOUR:INP OFF") c2 e1 in
                   let '(c6, e6) :=
                     ensure_load_off c3
                       (if (length (test_data c) <=? current_row c3)%nat
                        then log_message TestCompleted (time_sleep 0.2 e3)
                        else log_message TestStopped (time_sleep 0.2 e3)) in
                   (leave, c6, e6)))) ->
    In (t, enable) (wire e)
    \/ first_setpoint_succeeds (length (test_data c)) c e).
  { pose proof (no_new_enable_write (Scpi ":SOUR:INP OFF") c2 e1
                  ltac:(discriminate)) as Hw.
    destruct (safe_write (Scpi ":SOUR:INP OFF") c2 e1) as [[ok c3] e3].
    simpl in Hw.
    match goal with
    | |- context [ensure_load_off c3 ?x] => set (e5 := x)
    end.
    pose proof (no_new_enable_ensure_load_off c3 e5) as Hf.
    destruct (ensure_load_off c3 e5) as [c6 e6]. simpl in *.
    apply Hend. eapply no_new_enable_trans; [exact Hw |].
    eapply no_new_enable_trans; [| exact Hf].
    apply no_new_enable_same_wire. unfold e5.
    destruct (_ <=? _)%nat; reflexivity. }
  destruct leave; try exact Hnormal.
  pose proof (no_new_enable_ensure_load_off c2 (log_message TestLoopError e1))
    as Hf.
  destruct (ensure_load_off c2 (log_message TestLoopError e1)) as [c3 e3].
  simpl in *. apply Hend. eapply no_new_enable_trans; [| exact Hf].
  apply no_new_enable_same_wire. reflexivity.
Qed.

Lemma later_batch_sets_current :
  load_control 10 (set_current_row 200 connected) (env_at 100 obedient_device)
  = (false, set_current_row 200 connected,
     mkEnv (100 + 0.3 + 0.01 + 0.2 + 0.1 + 0.01) obedient_device 2
       [(100 + 0.3, SourCurrLev 10);
        (100 + 0.3 + 0.01 + 0.2 + 0.1, Scpi ":SOUR:CURR:LEV?")]
       [CurrentSetSuccessfully 10 10] [] None).
Proof. run. reflexivity. Qed.

Lemma process_current_zero : process_current init 0 = 0.
Proof.
  unfold process_current. rewrite Rltb_false by lra. simpl. unfold Rmax, Rmin.
  destruct (Rle_dec 40 0); destruct (Rle_dec 0 _); lra.
Qed.

Lemma late_current_first_window : window_current 201 late_current_run = 0.
Proof.
  unfold window_current.
  change (window 201 late_current_run) with (repeat 0 200).
  change (interpolate_current_window late_current_run (repeat 0 200))
    with (interpolate_current_window
            (set_interpolation_method "rms" late_current_run) (repeat 0 200)).
  apply interpolate_constant.
  - simpl. lra.
  - discriminate.
  - intros raw Hraw. apply repeat_spec in Hraw. subst raw.
    exact process_current_zero.
Qed.

Lemma late_current_second_window :
  window_current 201 (set_current_row 200 late_current_run) = 10.
Proof.
  unfold window_current.
  change (window 201 (set_current_row 200 late_current_run)) with [-30].
  change (interpolate_current_window (set_current_row 200 late_current_run) [-30])
    with (interpolate_current_window
            (set_interpolation_method "rms"
               (set_current_row 200 late_current_run)) [-30]).
  apply interpolate_constant.
  - simpl. lra.
  - discriminate.
  - intros raw [<- | []]. exact process_current_30.
Qed.

(** C3: [test_loop] puts the output-enable command on the wire only in
    the batch at row 0, and there only when the interpolated current of
    that batch is above 0.001 A and [safe_set_current] succeeded; so the
    output is never enabled before a non-zero setpoint has succeeded.  A
    run that starts past row 0, and a run whose first window gives no
    current above 0.001 A, never send it: on the profile of 200 rows
    without discharge followed by 30 A the first window gives 0 A, the
    window at row 200 gives 10 A, and no enable is sent in the whole run
    whatever the instrument does; the batch at row 200 below sets 10 A,
    verified, and sends no enable. *)
Theorem enable_sent_only_by_first_batch (c : Controller) (e : Env) :
  (forall t,
     In (t, enable) (wire (snd (test_loop c e))) ->
     In (t, enable) (wire e)
     \/ first_setpoint_succeeds (length (test_data c)) c e)
  /\ (window_current (length (test_data c)) c <= 0.001 ->
      no_new_enable e (snd (test_loop c e)))
  /\ (current_row c <> 0%nat -> no_new_enable e (snd (test_loop c e)))
  /\ (forall total_rows, current_row c <> 0%nat ->
      no_new_enable e (snd (batch total_rows c e)))
  /\ (let r := load_control 10 (set_current_row 200 connected)
                 (env_at 100 obedient_device) in
      fst (fst r) = false
      /\ console (snd r) = [CurrentSetSuccessfully 10 10]
      /\ forall t, ~ In (t, enable) (wire (snd r)))
  /\ (window_current 201 late_current_run = 0
      /\ window_current 201 (set_current_row 200 late_current_run) = 10
      /\ forall e0, no_new_enable e0 (snd (test_loop late_current_run e0))).
Proof.
  split; [| split; [| split; [| split; [| split]]]].
  6: { split; [exact late_current_first_window |].
       split; [exact late_current_second_window |].
       intros e0 t H.
       destruct (test_loop_enable late_current_run e0 t H) as [H' | (_ & C & _)];
         [exact H' |].
       change (length (test_data late_current_run)) with 201%nat in C.
       rewrite late_current_first_window in C. lra. }
  - intros t. apply test_loop_enable.
  - intros Hw t H. destruct (test_loop_enable c e t H) as [H' | (_ & C & _)];
      [exact H' | lra].
  - intros Hrow t H. destruct (test_loop_enable c e t H) as [H' | (C & _)];
      [exact H' | contradiction].
  - intros total_rows Hrow. now apply batch_no_enable_later.
  - rewrite later_batch_sets_current. simpl. repeat split.
    intros t [H | [H | []]]; inversion H.
Qed.

Lemma batch_window (total_rows : nat) (c : Controller) (e : Env) :
  batch total_rows c e =
  let avg_current := window_current total_rows c in
  let c1 := set_target_current avg_current c in
  let '(stop, c2, e2) :=
    load_control avg_current c1 (after_window_info total_rows c e) in
  if stop then (Some TurnOnBreak, c2, e2)
  else
    let '(measured, c3, e3) := safe_measure c2 e2 in
    let '(voltage, current) := measured in
    match start_time c3 with
    | None => (Some LoopException, c3, e3)
    | Some started =>
      let '(tripped, c5, e5) :=
        check_voltage_cutoff voltage c3
          (writerow (mkLogRow (clock e3) (clock e3 - started) (current_row c3)
                       avg_current voltage current) e3) in
      if tripped then (Some CutoffBreak, c5, e5) else (None, c5, e5)
    end.
Proof. reflexivity. Qed.


(** ** What the loop keeps *)



Lemma loop_start_time (fuel total_rows : nat) (c : Controller) (e : Env) :
  start_time (snd (fst (test_loop_while fuel total_rows c e))) = start_time c.
Proof.
  revert c e. induction fuel as [| f IH]; intros c e; [reflexivity |].
  rewrite test_loop_while_pass.
  destruct (negb _); [reflexivity |].
  destruct (stop_event_is_set e); [reflexivity |].
  assert (Hstep : forall c1 e1, start_time c1 = start_time c ->
            start_time
              (snd (fst (let '(c3, e3) := advance total_rows c1 e1 in
                         test_loop_while f total_rows c3 e3)))
            = start_time c).
  { intros c1 e1 H1.
    pose proof (advance_spec total_rows c1 e1) as (_ & _ & Hs & _).
    destruct (advance total_rows c1 e1) as [c3 e3]. simpl in Hs.
    rewrite IH. congruence. }
  destruct (current_row c mod 200 =? 0)%nat.
  - pose proof (batch_current_row total_rows c e) as (_ & _ & Hs & _).
    destruct (batch total_rows c e) as [[leave c1] e1]. simpl in Hs.
    destruct leave; [exact Hs | now apply Hstep].
  - now apply Hstep.
Qed.



(** ** How a run ends *)

Lemma check_voltage_cutoff_trips (voltage : R) (c : Controller) (e : Env) :
  fst (fst (check_voltage_cutoff voltage c e)) = true ->
  snd (fst (check_voltage_cutoff voltage c e)) = c
  /\ clock (snd (check_voltage_cutoff voltage c e)) = clock e
  /\ csv_log (snd (check_voltage_cutoff voltage c e)) = csv_log e
  /\ voltage <= voltage_cutoff c
  /\ (exists t, last_measurement_success_time c = Some t
                /\ clock e - t <= measurement_timeout_threshold c)
  /\ (exists since, voltage_below_cutoff_time c = Some since
                    /\ voltage_cutoff_buffer c <= clock e - since).
Proof.
  unfold check_voltage_cutoff.
  destruct (last_measurement_success_time c) as [t |]; [| discriminate].
  destruct (Rleb (clock e - t) (measurement_timeout_threshold c)) eqn:Hage.
  - destruct (Rleb voltage (voltage_cutoff c)) eqn:Hv; [| discriminate].
    destruct (voltage_below_cutoff_time c) as [since |]; [| discriminate].
    destruct (Rleb (voltage_cutoff_buffer c) (clock e - since)) eqn:Hb;
      [| discriminate].
    apply Rleb_spec in Hage, Hv, Hb. intros _. simpl.
    repeat split; try assumption; eauto.
  - destruct (Rltb _ _); [| discriminate].
    destruct (voltage_below_cutoff_time c); discriminate.
Qed.

Lemma load_control_breaks (avg : R) (c : Controller) (e : Env) :
  fst (fst (load_control avg c e)) = true ->
  current_row c = 0%nat
  /\ 0.001 < avg
  /\ fst (safe_set_current avg c e) = true
  /\ exists earlier,
       console (snd (load_control avg c e)) = earlier ++ [FailedToTurnOnLoad].
Proof.
  unfold load_control.
  destruct (Rltb 0.001 avg) eqn:Havg.
  - apply Rltb_spec in Havg.
    destruct (safe_set_current avg c e) as [success e1].
    destruct (current_row c =? 0)%nat eqn:Hrow; [| discriminate].
    destruct success; [| discriminate]. simpl.
    destruct (safe_write _ _ _) as [[ok c3] e3].
    destruct ok; [discriminate |]. simpl. intros _.
    apply Nat.eqb_eq in Hrow. repeat split; try assumption. eauto.
  - destruct (safe_set_current 0 c e) as [success e1]. discriminate.
Qed.

(** A setpoint that cannot be set is logged, the controller stays as it
    was and the batch goes on. *)
Lemma load_control_setpoint_failure (avg : R) (c : Controller) (e : Env) :
  let setpoint := if Rltb 0.001 avg then avg else 0 in
  fst (safe_set_current setpoint c e) = false ->
  load_control avg c e
  = (false, c,
     log_message (if Rltb 0.001 avg then FailedToSetCurrentLevel
                  else FailedToSetZeroCurrent)
       (snd (safe_set_current setpoint c e))).
Proof.
  unfold load_control. destruct (Rltb 0.001 avg); cbv zeta.
  - destruct (safe_set_current avg c e) as [success e1]. simpl.
    intros ->. rewrite andb_false_r. reflexivity.
  - destruct (safe_set_current 0 c e) as [success e1]. simpl.
    intros ->. reflexivity.
Qed.

Lemma batch_exit (total_rows : nat) (c : Controller) (e : Env) :
  match fst (fst (batch total_rows c e)) with
  | Some leave =>
    leave <> WhileConditionFalse /\ leave <> StopEventBreak
    /\ exit_condition total_rows leave
         (snd (fst (batch total_rows c e))) (snd (batch total_rows c e))
  | None => True
  end.
Proof.
  pose proof (batch_current_row total_rows c e) as (Hrow & _ & Hst & _).
  revert Hrow Hst. unfold batch. cbv zeta.
  set (avg := interpolate_current_window c _).
  set (c1 := set_target_current avg c).
  match goal with
  | |- context [load_control avg c1 ?x] => set (e1 := x)
  end.
  pose proof (load_control_breaks avg c1 e1) as Hl.
  destruct (load_control avg c1 e1) as [[stop c2] e2]. simpl in Hl.
  destruct stop.
  { simpl. intros Hrow _. destruct (Hl eq_refl) as (H0 & _ & _ & Hc).
    change (current_row c1) with (current_row c) in H0.
    repeat split; try discriminate; [congruence | exact Hc]. }
  clear Hl.
  destruct (safe_measure c2 e2) as [[[voltage current] c3] e3].
  destruct (start_time c3) as [started |] eqn:Hs.
  2: { simpl. intros _ _. repeat split; try discriminate. exact Hs. }
  match goal with
  | |- context [check_voltage_cutoff voltage c3 ?x] => set (e4 := x)
  end.
  pose proof (check_voltage_cutoff_trips voltage c3 e4) as Ht.
  destruct (check_voltage_cutoff voltage c3 e4) as [[tripped c5] e5].
  simpl in Ht. destruct tripped; [| exact (fun _ _ => I)].
  simpl. intros _ _.
  destruct (Ht eq_refl) as (-> & Hclock & Hcsv & Hv & Hfresh & Hsince).
  repeat split; try discriminate.
  - exists (csv_log e3), (mkLogRow (clock e3) (clock e3 - started)
                            (current_row c3) avg voltage current).
    split; [rewrite Hcsv; reflexivity | exact Hv].
  - rewrite Hclock. exact Hfresh.
  - rewrite Hclock. exact Hsince.
Qed.

Lemma loop_exit (total_rows fuel : nat) :
  forall c e,
    (total_rows - current_row c <= fuel)%nat ->
    test_running c = true ->
    let r := test_loop_while fuel total_rows c e in
    exit_condition total_rows (fst (fst r)) (snd (fst r)) (snd r).
Proof.
  induction fuel as [| f IH]; intros c e Hfuel Hrun.
  - simpl. right. lia.
  - cbv zeta. rewrite test_loop_while_pass.
    destruct (negb (while_condition total_rows c e)) eqn:Hcond.
    { simpl. unfold while_condition in Hcond. rewrite Hrun in Hcond.
      simpl in Hcond. destruct (stop_event_is_set e); [now left |].
      simpl in Hcond. right. apply negb_true_iff, Nat.ltb_ge in Hcond. exact Hcond. }
    destruct (stop_event_is_set e) eqn:Hstop; [exact Hstop |].
    assert (Hstep : forall c1 e1,
              current_row c1 = current_row c -> test_running c1 = test_running c ->
              let r := (let '(c3, e3) := advance total_rows c1 e1 in
                        test_loop_while f total_rows c3 e3) in
              exit_condition total_rows (fst (fst r)) (snd (fst r)) (snd r)).
    { intros c1 e1 Hr1 Ht1.
      pose proof (advance_spec total_rows c1 e1) as (Hr & Ht & _).
      destruct (advance total_rows c1 e1) as [c3 e3]. simpl in Hr, Ht.
      apply IH; [lia | congruence]. }
    destruct (current_row c mod 200 =? 0)%nat.
    + pose proof (batch_exit total_rows c e) as Hb.
      pose proof (batch_current_row total_rows c e) as (Hr & Ht & _).
      destruct (batch total_rows c e) as [[leave c1] e1]. simpl in Hb, Hr, Ht.
      destruct leave as [x |]; [| now apply Hstep].
      destruct Hb as (_ & _ & Hb). exact Hb.
    + now apply Hstep.
Qed.

Lemma test_loop_controller (c : Controller) (e : Env) :
  let c1 := snd (fst (test_loop_while (length (test_data c) - current_row c)
                        (length (test_data c)) c e)) in
  current_row (snd (fst (test_loop c e))) = current_row c1
  /\ voltage_below_cutoff_time (snd (fst (test_loop c e)))
     = voltage_below_cutoff_time c1
  /\ test_running (snd (fst (test_loop c e))) = false.
Proof.
  unfold test_loop. cbv zeta.
  destruct (test_loop_while _ _ c e) as [[leave c1] e1]. cbn [fst snd].
  set (c2 := set_test_running false c1).
  assert (Hoff : forall c0 e0,
            current_row c0 = current_row c1 ->
            voltage_below_cutoff_time c0 = voltage_below_cutoff_time c1 ->
            test_running c0 = false ->
            current_row (fst (ensure_load_off c0 e0)) = current_row c1
            /\ voltage_below_cutoff_time (fst (ensure_load_off c0 e0))
               = voltage_below_cutoff_time c1
            /\ test_running (fst (ensure_load_off c0 e0)) = false).
  { intros c0 e0 H1 H2 H3. unfold ensure_load_off.
    destruct (instrument c0); [| now repeat split].
    pose proof (safe_write_frame (Scpi ":SOUR:INP OFF") c0 e0) as Hf.
    destruct (safe_write _ c0 e0) as [[ok c3] e3]. simpl in *.
    destruct Hf as [-> | (t & ->)]; now repeat split. }
  assert (Hnormal :
    forall leave0 : LoopExit,
    let r := (let '(_, c3, e3) := safe_write (Scpi ":SOUR:INP OFF") c2 e1 in
              let '(c6, e6) :=
                ensure_load_off c3
                  (if (length (test_data c) <=? current_row c3)%nat
                   then log_message TestCompleted (time_sleep 0.2 e3)
                   else log_message TestStopped (time_sleep 0.2 e3)) in
              (leave0, c6, e6)) in
    current_row (snd (fst r)) = current_row c1
    /\ voltage_below_cutoff_time (snd (fst r)) = voltage_below_cutoff_time c1
    /\ test_running (snd (fst r)) = false).
  { intros leave0.
    pose proof (safe_write_frame (Scpi ":SOUR:INP OFF") c2 e1) as Hf.
    destruct (safe_write _ c2 e1) as [[ok c3] e3]. simpl in Hf.
    match goal with
    | |- context [ensure_load_off c3 ?x] => set (e5 := x)
    end.
    assert (H3 : current_row c3 = current_row c1
                 /\ voltage_below_cutoff_time c3 = voltage_below_cutoff_time c1
                 /\ test_running c3 = false).
    { destruct Hf as [-> | (t & ->)]; now repeat split. }
    destruct H3 as (A & B & C). pose proof (Hoff c3 e5 A B C) as H.
    destruct (ensure_load_off c3 e5) as [c6 e6]. exact H. }
  destruct leave; try apply Hnormal.
  pose proof (Hoff c2 (log_message TestLoopError e1) eq_refl eq_refl eq_refl) as H.
  destruct (ensure_load_off c2 (log_message TestLoopError e1)) as [c3 e3].
  exact H.
Qed.

(** A poll prints only its own lines, and when it gives no value it has
    printed the retry line and then the failure line. *)
Lemma measure_attempts_console (command : Command) (retry failed : Message)
    (e : Env) :
  let r := measure_attempts 2 0 command retry failed e in
  exists printed,
    console (snd r) = console e ++ printed
    /\ (fst r = None -> printed = [retry; failed]).
Proof.
  simpl.
  destruct (outcome (device e (calls e))) as [| [v |]]; simpl;
    try (exists []; split; [now rewrite app_nil_r | discriminate]);
    destruct (outcome (device e (S (calls e)))) as [| [w |]]; simpl;
    try (exists [retry]; split; [reflexivity | discriminate]);
    (exists [retry; failed]; split; [now rewrite <- app_assoc | reflexivity]).
Qed.

(** A call of [safe_measure] that polls either gets fresh readings or
    prints why it did not, returns the cached pair and leaves the
    controller as it was. *)
Lemma safe_measure_failure_logged (c : Controller) (e : Env) :
  instrument c = true ->
  measurement_interval c <= clock e - last_measurement_time c ->
  let r := safe_measure c e in
  (exists voltage current e1,
     poll_voltage e = (Some voltage, e1)
     /\ poll_current e1 = (Some current, snd r)
     /\ (0 <= voltage <= 50 /\ 0 <= current <= 50)
     /\ fst (fst r) = (voltage, current))
  \/ (fst r = (last_valid_voltage c, last_valid_current c, c)
      /\ exists printed,
           console (snd r) = console e ++ printed
           /\ Exists measurement_failure printed).
Proof.
  intros Hi Hrate. cbv zeta. unfold safe_measure.
  rewrite Hi, (Rltb_false _ _ Hrate). cbn [negb].
  destruct (measure_attempts_console (Scpi ":MEAS:VOLT?")
              VoltageMeasurementRetry VoltageMeasurementFailed e)
    as (pv & Hpv & Hnv).
  fold (poll_voltage e) in Hpv, Hnv.
  destruct (poll_voltage e) as [voltage e1] eqn:Ev. simpl in Hpv, Hnv.
  destruct (Rltb 5 (clock e1 - clock e)).
  { right. split; [reflexivity |]. exists (pv ++ [MeasurementTooLong]).
    simpl. rewrite Hpv, <- app_assoc. split; [reflexivity |].
    apply Exists_app. right. constructor. exact I. }
  destruct (measure_attempts_console (Scpi ":MEAS:CURR?")
              CurrentMeasurementRetry CurrentMeasurementFailed e1)
    as (pc & Hpc & Hnc).
  fold (poll_current e1) in Hpc, Hnc.
  destruct (poll_current e1) as [current e2] eqn:Ec. simpl in Hpc, Hnc.
  assert (Hcon : console e2 = console e ++ (pv ++ pc))
    by (rewrite Hpc, Hpv, <- app_assoc; reflexivity).
  destruct voltage as [voltage |].
  2: { right. split; [destruct current; reflexivity |].
       exists (pv ++ pc). split; [destruct current; exact Hcon |].
       apply Exists_app. left. rewrite (Hnv eq_refl).
       apply Exists_cons_tl, Exists_cons_hd. exact I. }
  destruct current as [current |].
  2: { right. split; [reflexivity |].
       exists (pv ++ pc). split; [exact Hcon |].
       apply Exists_app. right. rewrite (Hnc eq_refl).
       apply Exists_cons_tl, Exists_cons_hd. exact I. }
  destruct (Rleb 0 voltage && Rleb voltage 50
            && Rleb 0 current && Rleb current 50)%bool eqn:Hok.
  - left. exists voltage, current, e1.
    apply andb_prop in Hok. destruct Hok as [Hok H4].
    apply andb_prop in Hok. destruct Hok as [Hok H3].
    apply andb_prop in Hok. destruct Hok as [H1 H2].
    apply Rleb_spec in H1, H2, H3, H4.
    split; [reflexivity |]. split; [exact Ec |].
    split; [split; split; assumption | reflexivity].
  - right. split; [reflexivity |].
    exists ((pv ++ pc) ++ [InvalidReadings voltage current]).
    simpl. rewrite Hcon, <- app_assoc. split; [reflexivity |].
    apply Exists_app. right. constructor. exact I.
Qed.

(** A batch assigns [target_current] before it writes to the load, so
    the window's current is there whether the write succeeds or not;
    and the break at the output switch follows a set point that was
    set. *)
Lemma batch_target_current (total_rows : nat) (c : Controller) (e : Env) :
  let avg := window_current total_rows c in
  let c1 := set_target_current avg c in
  let e1 := after_window_info total_rows c e in
  target_current (snd (fst (batch total_rows c e))) = avg
  /\ (fst (fst (batch total_rows c e)) = Some TurnOnBreak ->
      0.001 < avg /\ fst (safe_set_current avg c1 e1) = true).
Proof.
  cbv zeta. rewrite batch_window. cbv zeta.
  set (avg := window_current total_rows c).
  set (c1 := set_target_current avg c).
  set (e1 := after_window_info total_rows c e).
  pose proof (load_control_frame avg c1 e1) as F1. cbv zeta in F1.
  pose proof (load_control_breaks avg c1 e1) as B1.
  destruct (load_control avg c1 e1) as [[stop c2] e2]. simpl in F1, B1.
  assert (K2 : target_current c2 = avg)
    by (destruct F1 as [-> | [t ->]]; reflexivity).
  destruct stop.
  { simpl. split; [exact K2 |]. intros _.
    destruct (B1 eq_refl) as (_ & Hlt & Hok & _). split; assumption. }
  clear B1.
  pose proof (safe_measure_frame c2 e2) as F3. cbv zeta in F3.
  destruct (safe_measure c2 e2) as [[[voltage current] c3] e3]. simpl in F3.
  assert (K3 : target_current c3 = avg)
    by (destruct F3 as [-> | (v & i & t & ->)]; exact K2).
  destruct (start_time c3) as [started |].
  2: { simpl. split; [exact K3 | discriminate]. }
  match goal with
  | |- context [check_voltage_cutoff voltage c3 ?x] => set (e4 := x)
  end.
  pose proof (check_voltage_cutoff_frame voltage c3 e4) as F5. cbv zeta in F5.
  destruct (check_voltage_cutoff voltage c3 e4) as [[tripped c5] e5].
  simpl in F5.
  assert (K5 : target_current c5 = avg)
    by (destruct F5 as [-> | (b & ->)]; exact K3).
  destruct tripped; simpl; (split; [exact K5 | discriminate]).
Qed.

(** C4 (as amended): a run with [test_running] set leaves its [while]
    loop in one of five ways, each with its cause in the state it is left
    in: the condition is false because a stop was requested or the rows
    are exhausted; the stop event is set; the cutoff was reached on the
    last logged voltage; the enable write of the batch at row 0 failed,
    logged as "Failed to turn on load"; or [start_time] was never set,
    which [start_test] excludes.
    A setpoint that cannot be set is logged and [load_control] returns
    without a break and without touching the controller.  In a batch
    that is the controller with [target_current] already overwritten:
    after a batch [target_current] is the window's current whether the
    write succeeded or not, while [current_row] and [test_running] are
    as before; the break at the output switch takes a current above
    1 mA that was set, so no failed set point leaves the loop.
    A poll whose two attempts are unreadable returns no value and has
    printed its retry line and its failure line; a call of
    [safe_measure] that polls either returns fresh readings, both
    within 0..50, or has printed a failure line, returns the cached pair
    and leaves the controller as it was; and whenever the two calls
    from the current one on are unreadable, [safe_measure] returns the
    cached pair and the controller as it was. *)
Theorem run_ends_by_trip_stop_exhaustion_or_enable_failure
    (c : Controller) (e : Env) :
  test_running c = true ->
  let total_rows := length (test_data c) in
  let r := test_loop_while (total_rows - current_row c) total_rows c e in
  fst (fst (test_loop c e)) = fst (fst r)
  /\ exit_condition total_rows (fst (fst r)) (snd (fst r)) (snd r)
  /\ (start_time c <> None -> fst (fst r) <> LoopException)
  /\ (forall avg c0 e0,
        let setpoint := if Rltb 0.001 avg then avg else 0 in
        fst (safe_set_current setpoint c0 e0) = false ->
        load_control avg c0 e0
        = (false, c0,
           log_message (if Rltb 0.001 avg then FailedToSetCurrentLevel
                        else FailedToSetZeroCurrent)
             (snd (safe_set_current setpoint c0 e0))))
  /\ (forall c0 e0,
        unreadable (outcome (device e0 (calls e0)))
        /\ unreadable (outcome (device e0 (S (calls e0)))) ->
        fst (safe_measure c0 e0)
        = (last_valid_voltage c0, last_valid_current c0, c0))
  /\ (forall total c0 e0,
        fst (fst (batch total c0 e0)) <> Some WhileConditionFalse
        /\ fst (fst (batch total c0 e0)) <> Some StopEventBreak)
  /\ (forall total c0 e0,
        let avg := window_current total c0 in
        let c1 := set_target_current avg c0 in
        let e1 := after_window_info total c0 e0 in
        let b := batch total c0 e0 in
        target_current (snd (fst b)) = avg
        /\ current_row (snd (fst b)) = current_row c0
        /\ test_running (snd (fst b)) = test_running c0
        /\ (fst (fst b) = Some TurnOnBreak ->
            0.001 < avg /\ fst (safe_set_current avg c1 e1) = true)
        /\ (fst (safe_set_current (if Rltb 0.001 avg then avg else 0) c1 e1)
            = false ->
            fst (fst b) <> Some TurnOnBreak))
  /\ (forall command retry failed e0,
        unreadable (outcome (device e0 (calls e0))) ->
        unreadable (outcome (device e0 (S (calls e0)))) ->
        let p := measure_attempts 2 0 command retry failed e0 in
        fst p = None /\ console (snd p) = console e0 ++ [retry; failed])
  /\ (forall c0 e0,
        instrument c0 = true ->
        measurement_interval c0 <= clock e0 - last_measurement_time c0 ->
        let m := safe_measure c0 e0 in
        (exists voltage current e1,
           poll_voltage e0 = (Some voltage, e1)
           /\ poll_current e1 = (Some current, snd m)
           /\ (0 <= voltage <= 50 /\ 0 <= current <= 50)
           /\ fst (fst m) = (voltage, current))
        \/ (fst m = (last_valid_voltage c0, last_valid_current c0, c0)
            /\ exists printed,
                 console (snd m) = console e0 ++ printed
                 /\ Exists measurement_failure printed)).
Proof.
  intros Hrun total_rows r.
  assert (Hexit : exit_condition total_rows (fst (fst r)) (snd (fst r)) (snd r))
    by (apply loop_exit; [lia | exact Hrun]).
  split; [| split; [| split; [| split; [| split; [| split; [| split; [| split]]]]]]].
  - apply test_loop_exit.
  - exact Hexit.
  - intros Hst Hx. rewrite Hx in Hexit. simpl in Hexit.
    unfold r in Hexit. rewrite loop_start_time in Hexit. contradiction.
  - intros avg c0 e0. apply load_control_setpoint_failure.
  - intros c0 e0 Hun.
    apply (measure_attempts_none (Scpi ":MEAS:VOLT?")
             VoltageMeasurementRetry VoltageMeasurementFailed) in Hun.
    fold (poll_voltage e0) in Hun.
    destruct (safe_measure c0 e0) as [[measured c'] e'] eqn:E.
    destruct (safe_measure_cases c0 e0 _ _ _ E)
      as [[-> ->] | (_ & _ & v & i & e1 & Hv & _)]; [reflexivity |].
    rewrite Hv in Hun. discriminate.
  - intros total c0 e0. pose proof (batch_exit total c0 e0) as H.
    destruct (fst (fst (batch total c0 e0))) as [x |];
      [| split; discriminate].
    destruct H as (H1 & H2 & _). split; congruence.
  - intros total c0 e0 avg c1 e1 b.
    destruct (batch_target_current total c0 e0) as (Ht & Hb).
    destruct (batch_current_row total c0 e0) as (Hr & Hn & _).
    split; [exact Ht |]. split; [exact Hr |]. split; [exact Hn |].
    split; [exact Hb |].
    intros Hfail Hbreak. destruct (Hb Hbreak) as (Hlt & Hok).
    fold avg in Hlt. rewrite (Rltb_true _ _ Hlt) in Hfail.
    fold avg c1 e1 in Hok. rewrite Hok in Hfail. discriminate Hfail.
  - intros command retry failed e0 H0 H1 p.
    assert (Hnone : fst p = None)
      by (apply measure_attempts_none; split; assumption).
    split; [exact Hnone |].
    destruct (measure_attempts_console command retry failed e0)
      as (printed & Hp & Hn).
    fold p in Hp, Hn. now rewrite Hp, (Hn Hnone).
  - intros c0 e0. apply safe_measure_failure_logged.
Qed.

(** ** A run that the enable write ends *)

Lemma one_row_window : window_current 1 one_row_run = 10.
Proof.
  unfold window_current.
  change (window 1 one_row_run) with [-30].
  change (interpolate_current_window one_row_run [-30])
    with (interpolate_current_window
            (set_interpolation_method "average" one_row_run) [-30]).
  apply interpolate_constant.
  - simpl. lra.
  - discriminate.
  - intros raw [<- | []]. exact process_current_30.
Qed.

Lemma command_gate_device (c : Controller) (e : Env) :
  device (command_gate c e) = device e /\ calls (command_gate c e) = calls e.
Proof. unfold command_gate. destruct (Rltb _ _); split; reflexivity. Qed.

(** When every call times out, [safe_write] gives up. *)
Lemma safe_write_loop_fails (remaining attempt : nat) (command : Command)
    (c : Controller) (e : Env) :
  (forall k, (k < remaining)%nat ->
             outcome (device e (calls e + k)) = VisaError) ->
  fst (fst (safe_write_loop remaining attempt command c e)) = false.
Proof.
  revert attempt e. induction remaining as [| n IH]; intros attempt e H;
    [reflexivity |].
  simpl. destruct (command_gate_device c e) as [Hd Hc].
  assert (Hcall : device (command_gate c e) (calls (command_gate c e))
                  = device e (calls e)) by now rewrite Hd, Hc.
  rewrite Hcall.
  pose proof (H 0%nat ltac:(lia)) as H0. rewrite Nat.add_0_r in H0. rewrite H0.
  destruct (attempt <? max_retries c - 1)%nat; [| reflexivity].
  apply IH. intros k Hk. simpl. rewrite Hd, Hc.
  specialize (H (S k) ltac:(lia)). now rewrite Nat.add_succ_r in H.
Qed.

Lemma one_row_set_current :
  exists e2,
    safe_set_current 10 (set_target_current 10 one_row_run)
      (after_window_info 1 one_row_run (env_at 100 unwilling_device))
    = (true, e2)
    /\ device e2 = unwilling_device /\ calls e2 = 2%nat.
Proof. eexists. split; [run; reflexivity | split; reflexivity]. Qed.

Lemma one_row_load_control :
  fst (fst (load_control 10 (set_target_current 10 one_row_run)
              (after_window_info 1 one_row_run (env_at 100 unwilling_device))))
  = true.
Proof.
  unfold load_control. rewrite (Rltb_true 0.001 10) by lra.
  destruct one_row_set_current as (e2 & -> & Hd & Hc).
  change ((current_row (set_target_current 10 one_row_run) =? 0)%nat && true)%bool
    with true.
  cbv iota.
  assert (Hfail : fst (fst (safe_write (Scpi ":SOUR:INP ON")
                              (set_target_current 10 one_row_run)
                              (time_sleep 0.2 e2))) = false).
  { unfold safe_write.
    change (negb (instrument (set_target_current 10 one_row_run))) with false.
    cbv iota. apply safe_write_loop_fails. intros k Hk.
    change (device (time_sleep 0.2 e2)) with (device e2).
    change (calls (time_sleep 0.2 e2)) with (calls e2).
    rewrite Hd, Hc. reflexivity. }
  destruct (safe_write _ _ _) as [[ok c3] e3]. simpl in Hfail. subst ok.
  reflexivity.
Qed.

Lemma one_row_loop :
  exists c2 e2,
    test_loop_while 1 1 one_row_run (env_at 100 unwilling_device)
    = (TurnOnBreak, c2, e2)
    /\ current_row c2 = 0%nat
    /\ voltage_below_cutoff_time c2 = None.
Proof.
  rewrite test_loop_while_pass.
  change (negb (while_condition 1 one_row_run (env_at 100 unwilling_device)))
    with false.
  change (stop_event_is_set (env_at 100 unwilling_device)) with false.
  change (current_row one_row_run mod 200 =? 0)%nat with true.
  cbv iota. rewrite batch_window, one_row_window. cbv zeta.
  pose proof one_row_load_control as H.
  pose proof (load_control_frame 10 (set_target_current 10 one_row_run)
                (after_window_info 1 one_row_run
                   (env_at 100 unwilling_device))) as Hf.
  destruct (load_control 10 _ _) as [[stop c2] e2]. simpl in H, Hf. subst stop.
  exists c2, e2. split; [reflexivity |].
  destruct Hf as [-> | (t & ->)]; split; reflexivity.
Qed.

Lemma run_ends_by_trip_stop_exhaustion_or_enable_failure_witness :
  let e := env_at 100 unwilling_device in
  let r := test_loop_while 1 1 one_row_run e in
  fst (fst (test_loop one_row_run e)) = fst (fst r)
  /\ exit_condition 1 (fst (fst r)) (snd (fst r)) (snd r).
Proof.
  assert (H : test_running one_row_run = true) by reflexivity.
  destruct (run_ends_by_trip_stop_exhaustion_or_enable_failure
              one_row_run (env_at 100 unwilling_device) H) as (A & B & _).
  split; [exact A | exact B].
Defined.

(** C4 as the claim has it fails: with no stop request, no cutoff
    countdown and the only row of the profile still to be done, the run
    ends because the output-enable write failed. *)
Lemma enable_failure_ends_run :
  let e := env_at 100 unwilling_device in
  let r := test_loop one_row_run e in
  fst (fst r) = TurnOnBreak
  /\ stop_at e = None
  /\ (current_row (snd (fst r)) < length (test_data one_row_run))%nat
  /\ voltage_below_cutoff_time (snd (fst r)) = None.
Proof.
  cbv zeta.
  pose proof (test_loop_exit one_row_run (env_at 100 unwilling_device)) as Hx.
  pose proof (test_loop_controller one_row_run (env_at 100 unwilling_device))
    as (Hr & Hb & _).
  change (length (test_data one_row_run) - current_row one_row_run)%nat
    with 1%nat in Hx, Hr, Hb.
  change (length (test_data one_row_run)) with 1%nat in Hx, Hr, Hb.
  destruct one_row_loop as (c2 & e2 & E & Hrow & Hbelow).
  rewrite E in Hx, Hr, Hb. simpl in Hx, Hr, Hb.
  split; [exact Hx |]. split; [reflexivity |].
  split; [rewrite Hr, Hrow; simpl; lia | now rewrite Hb, Hbelow].
Qed.

(* ================================================================= *)
(** * Results in double precision *)

Section DoublePrecision.

Import Floats.
Local Open Scope float_scope.

(** ** Comparisons of doubles *)

Lemma double_ltb_leb (x y : float) : (x <? y) = true -> (x <=? y) = true.
Proof.
  rewrite ltb_spec, leb_spec. unfold SFltb, SFleb.
  destruct (SFcompare (Prim2SF x) (Prim2SF y)) as [[| |] |];
    intros H; (reflexivity || discriminate H).
Qed.

Lemma SFcompare_refl (f : spec_float) :
  f <> S754_nan -> SFcompare f f = Some Eq.
Proof.
  destruct f as [s | s | | s m e]; intros H; simpl.
  - reflexivity.
  - destruct s; reflexivity.
  - contradiction.
  - destruct s; rewrite Z.compare_refl, Pos.compare_cont_refl; reflexivity.
Qed.

(** Two doubles that compare are numbers, and a number is at most
    itself. *)
Lemma double_leb_refl (x y : float) :
  (x <=? y) = true -> (x <=? x) = true /\ (y <=? y) = true.
Proof.
  rewrite !leb_spec. unfold SFleb. intros H.
  assert (Hx : Prim2SF x <> S754_nan)
    by (intros E; rewrite E in H; discriminate H).
  assert (Hy : Prim2SF y <> S754_nan)
    by (intros E; rewrite E in H; destruct (Prim2SF x); discriminate H).
  rewrite (SFcompare_refl _ Hx), (SFcompare_refl _ Hy). split; reflexivity.
Qed.

(** ** interpolate_current_window *)

Lemma double_process_current_in_range (c : Double.Controller) (raw : float) :
  (Double.min_current c <=? Double.max_current c) = true ->
  (Double.min_current c <=? Double.process_current c raw) = true
  /\ (Double.process_current c raw <=? Double.max_current c) = true.
Proof.
  intros Hrange. destruct (double_leb_refl _ _ Hrange) as [Hlo Hhi].
  unfold Double.process_current, Double.py_max, Double.py_min. cbv zeta.
  set (p := if raw <? 0 then abs raw / 3 else 0).
  destruct (p <? Double.max_current c) eqn:Hp.
  - destruct (Double.min_current c <? p) eqn:Hm.
    + split; apply double_ltb_leb; assumption.
    + split; assumption.
  - destruct (Double.min_current c <? Double.max_current c) eqn:Hm;
      split; assumption.
Qed.

(** C7 as the claim has it fails: with the range 0.0 to 40.0 of
    [__init__] and the WeightedAverage policy, the seven samples of a
    window of -600 are each processed and clamped to 40, and the
    interpolated current is the next double above 40,
    40.000000000000007: outside the range. *)
Lemma weighted_average_exceeds_max_current :
  let c := Double.with_method "weighted_avg" in
  let current := Double.interpolate_current_window c (repeat (-600) 7) in
  map (Double.process_current c) (repeat (-600) 7) = repeat 40 7
  /\ current = next_up 40
  /\ (Double.max_current c <? current) = true.
Proof. vm_compute. repeat split. Qed.

(** C7 (as amended): for every window of raw samples and every method,
    with [min_current] at most [max_current], each sample is processed
    (a negative one to its magnitude divided by 3, any other to 0) and
    clamped to the range, and every processed sample lies in the range;
    an empty window gives 0; a window that is not empty gives the
    reduction of its processed samples by the selected policy, which is
    returned as computed, with no clamp after it. *)
Theorem samples_clamped_before_reduction
    (c : Double.Controller) (current_slice : list float) :
  (Double.min_current c <=? Double.max_current c) = true ->
  let processed_currents := map (Double.process_current c) current_slice in
  Forall (fun x => (Double.min_current c <=? x) = true
                   /\ (x <=? Double.max_current c) = true)
    processed_currents
  /\ (forall raw_current,
        Double.process_current c raw_current
        = Double.py_max (Double.min_current c)
            (Double.py_min (Double.max_current c)
               (if raw_current <? 0 then abs raw_current / 3 else 0)))
  /\ Double.interpolate_current_window c [] = 0
  /\ (current_slice <> [] ->
      Double.interpolate_current_window c current_slice
      = Double.reduce_currents c processed_currents)
  /\ (forall currents,
        let policy m :=
          Double.reduce_currents (Double.set_interpolation_method m c)
            currents in
        policy "average"%string = Double.np_mean currents
        /\ policy "rms"%string
           = sqrt (Double.np_mean (Double.np_square currents))
        /\ policy "weighted_avg"%string
           = Double.np_average currents
               (if 0 <? Double.np_sum currents
                then map (fun x => x / Double.np_sum currents) currents
                else map (fun _ => 1) currents)
        /\ policy "peak_aware"%string
           = 0.7 * Double.np_mean currents + 0.3 * Double.np_max currents
        /\ (currents <> [] ->
            policy "energy_equiv"%string
            = sqrt (Double.np_sum (Double.np_square currents)
                    / Double.len currents))).
Proof.
  intros Hrange processed_currents.
  split.
  { unfold processed_currents. apply Forall_forall. intros x Hx.
    apply in_map_iff in Hx. destruct Hx as (raw & <- & _).
    now apply double_process_current_in_range. }
  split; [reflexivity |]. split; [reflexivity |].
  split.
  { intros Hne. unfold Double.interpolate_current_window.
    fold processed_currents.
    destruct current_slice as [| raw rest]; [contradiction |]. reflexivity. }
  intros currents policy. unfold policy.
  split; [reflexivity |]. split; [reflexivity |]. split; [reflexivity |].
  split; [reflexivity |].
  intros Hne. destruct currents as [| x rest]; [contradiction |]. reflexivity.
Qed.

Lemma samples_clamped_before_reduction_witness :
  map (Double.process_current Double.init) [-600; 5; -30] = [40; 0; 10]
  /\ Forall (fun x => (0 <=? x) = true /\ (x <=? 40) = true) [40; 0; 10]
  /\ Double.interpolate_current_window Double.init [-600; 5; -30]
     = 23.804761428476166.
Proof.
  destruct (samples_clamped_before_reduction Double.init [-600; 5; -30]
              eq_refl) as (H & _).
  split; [vm_compute; reflexivity |].
  split; [exact H | vm_compute; reflexivity].
Defined.

(** C8 as the claim has it fails: on the constant window of six samples
    of -0.3, whose processed samples are all 0.099999999999999992, the
    RMS policy returns less than the Average policy does, and less than
    the constant; and on the window of the one sample -100 the PeakAware
    policy returns less than the processed sample 33.333333333333336. *)
Lemma rms_below_average_on_constant_window :
  let rms := Double.interpolate_current_window (Double.with_method "rms") in
  let average :=
    Double.interpolate_current_window (Double.with_method "average") in
  let peak_aware :=
    Double.interpolate_current_window (Double.with_method "peak_aware") in
  map (Double.process_current Double.init) (repeat (-0.3) 6)
  = repeat 0.099999999999999992 6
  /\ (rms (repeat (-0.3) 6) <? average (repeat (-0.3) 6)) = true
  /\ (rms (repeat (-0.3) 6) <? 0.099999999999999992) = true
  /\ Double.process_current Double.init (-100) = 33.333333333333336
  /\ (peak_aware [-100] <? 33.333333333333336) = true.
Proof. vm_compute. repeat split. Qed.

(** C8 (as amended): on the window of 200 samples each equal to -600,
    with divisor 3 and the range 0.0 to 40.0, every processed sample is
    40; the Average, RMS, PeakAware and EnergyEquivalent policies, and
    the fallback for an unknown method, return 40; the WeightedAverage
    policy returns the next double above 40, 40.000000000000007. *)
Theorem constant_window_of_minus_600 :
  let current_slice := repeat (-600) 200 in
  let target m :=
    Double.interpolate_current_window (Double.with_method m) current_slice in
  map (Double.process_current Double.init) current_slice = repeat 40 200
  /\ target "average"%string = 40
  /\ target "rms"%string = 40
  /\ target "peak_aware"%string = 40
  /\ target "energy_equiv"%string = 40
  /\ target "unknown"%string = 40
  /\ target "weighted_avg"%string = next_up 40
  /\ next_up 40 = 40.000000000000007
  /\ (40 <? target "weighted_avg"%string) = true.
Proof. vm_compute. repeat split. Qed.

(** ** safe_set_current *)

Lemma double_set_current_attempt_outcome (attempt : nat) (current_value : float)
    (e : Double.Env) :
  let write := Double.outcome (Double.device e (Double.write_index attempt e)) in
  let readback :=
    Double.outcome (Double.device e (S (Double.write_index attempt e))) in
  match fst (Double.set_current_attempt attempt current_value e) with
  | WriteRaised => write = Double.VisaError
  | Verified =>
    write <> Double.VisaError
    /\ exists set_current,
         readback = Double.Reply (Some set_current)
         /\ (abs (set_current - current_value)
             <=? Double.py_max 0.01 (abs (current_value * 0.01))) = true
  | Mismatch =>
    write <> Double.VisaError
    /\ exists set_current,
         readback = Double.Reply (Some set_current)
         /\ (abs (set_current - current_value)
             <=? Double.py_max 0.01 (abs (current_value * 0.01))) = false
  | VerifyRaised => write <> Double.VisaError /\ Double.unreadable readback
  end.
Proof.
  unfold Double.set_current_attempt. cbv zeta.
  set (e2 := if (0 <? attempt)%nat
             then let '(out, e') :=
                    Double.instrument_call (Double.Scpi "*CLS")
                      (Double.time_sleep 0.3 e) in
                  match out with
                  | Double.Reply _ => Double.time_sleep 0.1 e'
                  | Double.VisaError => e'
                  end
             else Double.time_sleep 0.3 e).
  assert (Hd : Double.device e2 = Double.device e
               /\ Double.calls e2 = Double.write_index attempt e).
  { unfold e2, Double.write_index. destruct (0 <? attempt)%nat; cbn;
      [| now split].
    destruct (Double.outcome (Double.device e (Double.calls e))); cbn;
      now split. }
  destruct Hd as [Hd Hc]. clearbody e2.
  assert (Hw : Double.outcome (Double.device e2 (Double.calls e2))
               = Double.outcome (Double.device e (Double.write_index attempt e)))
    by now rewrite Hd, Hc.
  assert (Hr : Double.outcome (Double.device e2 (S (Double.calls e2)))
               = Double.outcome
                   (Double.device e (S (Double.write_index attempt e))))
    by now rewrite Hd, Hc.
  unfold Double.instrument_call at 1. rewrite Hw.
  destruct (Double.outcome (Double.device e (Double.write_index attempt e)))
    as [| w].
  { reflexivity. }
  cbn [Double.time_sleep Double.instrument_call Double.clock Double.device
       Double.calls Double.outcome Double.latency Double.wire Double.console].
  rewrite Hr.
  destruct (Double.outcome
              (Double.device e (S (Double.write_index attempt e))))
    as [| [r |]].
  - cbn. split; [discriminate | exact I].
  - unfold Double.within_tolerance, Double.tolerance.
    destruct (abs (r - current_value)
              <=? Double.py_max 0.01 (abs (current_value * 0.01))) eqn:Ht;
      cbn; (split; [discriminate |]); exists r; (split; [reflexivity |]);
      exact Ht.
  - cbn. split; [discriminate | exact I].
Qed.

Lemma double_safe_set_current_loop_true (remaining attempt : nat) (v : float)
    (e : Double.Env) :
  fst (Double.safe_set_current_loop remaining attempt v e) = true
  <-> Exists accepted (Double.set_current_attempts remaining attempt v e).
Proof.
  revert attempt e. induction remaining as [| r IH]; intros attempt e; simpl.
  - split; [discriminate | intros H; inversion H].
  - destruct (Double.set_current_attempt attempt v e) as [a e1].
    destruct a.
    + destruct (attempt <? 4)%nat; simpl.
      * rewrite IH. split; intros H.
        -- now apply Exists_cons_tl.
        -- inversion H as [? ? [Ha | Ha] | ]; subst;
             [discriminate .. | assumption].
      * split; [discriminate |].
        intros H. inversion H as [? ? [Ha | Ha] | ? ? Ha]; subst;
          [discriminate .. | inversion Ha].
    + simpl. split; [| reflexivity]. intros _. apply Exists_cons_hd. now left.
    + rewrite IH. split; intros H.
      * now apply Exists_cons_tl.
      * inversion H as [? ? [Ha | Ha] | ]; subst;
          [discriminate .. | assumption].
    + simpl. split; [| reflexivity]. intros _. apply Exists_cons_hd. now right.
Qed.

Lemma double_safe_set_current_loop_false (remaining attempt : nat) (v : float)
    (e : Double.Env) :
  fst (Double.safe_set_current_loop remaining attempt v e) = false
  <-> Forall rejected (Double.set_current_attempts remaining attempt v e).
Proof.
  split.
  - intros H. apply Forall_forall. intros a Ha.
    assert (N : ~ Exists accepted
                    (Double.set_current_attempts remaining attempt v e)).
    { rewrite <- double_safe_set_current_loop_true. congruence. }
    destruct a; [now left | | now right |];
      exfalso; apply N, Exists_exists; eexists; (split; [exact Ha |]);
      [now left | now right].
  - intros H.
    destruct (fst (Double.safe_set_current_loop remaining attempt v e)) eqn:E;
      [| reflexivity].
    apply double_safe_set_current_loop_true, Exists_exists in E.
    destruct E as (a & Ha & Hacc).
    rewrite Forall_forall in H. exfalso.
    exact (accepted_not_rejected a Hacc (H a Ha)).
Qed.

Lemma double_set_current_attempts_length (remaining attempt : nat) (v : float)
    (e : Double.Env) :
  (length (Double.set_current_attempts remaining attempt v e) <= remaining)%nat
  /\ (remaining + attempt = 5 ->
      Forall rejected (Double.set_current_attempts remaining attempt v e) ->
      length (Double.set_current_attempts remaining attempt v e) = remaining)%nat
  /\ ((0 < remaining)%nat ->
      Double.set_current_attempts remaining attempt v e <> []).
Proof.
  revert attempt e. induction remaining as [| r IH]; intros attempt e; simpl.
  - repeat split; try lia.
  - destruct (Double.set_current_attempt attempt v e) as [a e1].
    destruct a.
    + destruct (attempt <? 4)%nat eqn:E4.
      * specialize (IH (S attempt)
          (Double.time_sleep (1 * (INR attempt + 1))%R
             (Double.log_message (Double.CurrentSettingRetry (attempt + 1)) e1))).
        destruct IH as (IH1 & IH2 & _). simpl. repeat split.
        -- lia.
        -- intros Hs Hf. inversion Hf; subst.
           rewrite IH2; [reflexivity | lia | assumption].
        -- discriminate.
      * apply Nat.ltb_ge in E4. simpl. repeat split; try lia; discriminate.
    + simpl. repeat split; try lia; try discriminate.
      intros _ Hf. inversion Hf as [| ? ? [Hx | Hx] _]; discriminate.
    + specialize (IH (S attempt) e1). destruct IH as (IH1 & IH2 & _).
      simpl. repeat split.
      * lia.
      * intros Hs Hf. inversion Hf; subst.
        rewrite IH2; [reflexivity | lia | assumption].
      * discriminate.
    + simpl. repeat split; try lia; try discriminate.
      intros _ Hf. inversion Hf as [| ? ? [Hx | Hx] _]; discriminate.
Qed.

(** C6 as the claim has it fails: with no instrument open,
    [safe_set_current] returns [False] at once, with no attempt made and
    no call of the instrument, on a device that would have echoed the
    value. *)
Lemma no_instrument_fails_without_attempt :
  let e := Double.env_at 0 (Double.echo_device 1) in
  Double.instrument Double.init = false
  /\ Double.safe_set_current 1 Double.init e = (false, e)
  /\ Double.calls (snd (Double.safe_set_current 1 Double.init e)) = 0%nat.
Proof. repeat split. Qed.

(** C6 (as amended): [safe_set_current] makes at most five attempts,
    more than the [max_retries] = 3 calls of [safe_write], and none when
    no instrument is open, in which case it returns [False] at once.  It
    returns [True] exactly when an attempt is accepted: the write went
    through and the readback passes
    [abs(set_current - current_value) <= max(0.01, abs(current_value * 0.01))]
    as computed in double precision, or the write went through and the
    verification query raised or did not parse.  It returns [False]
    exactly when no instrument is open or five attempts were made and
    each was rejected: the write raised, or the readback was a number
    that fails the test. *)
Theorem safe_set_current_verdict_in_doubles
    (current_value : float) (c : Double.Controller) (e : Double.Env) :
  let attempts :=
    if Double.instrument c
    then Double.set_current_attempts 5 0 current_value e
    else [] in
  let result := fst (Double.safe_set_current current_value c e) in
  (max_retries init < 5)%nat
  /\ (forall command c0 e0,
        (calls (snd (safe_write command c0 e0)) <= calls e0 + max_retries c0)%nat)
  /\ (length attempts <= 5)%nat
  /\ (Double.instrument c = true -> (0 < length attempts)%nat)
  /\ (Double.instrument c = false ->
      Double.safe_set_current current_value c e = (false, e))
  /\ (result = true <-> Exists accepted attempts)
  /\ (result = false <->
      Double.instrument c = false
      \/ (length attempts = 5%nat /\ Forall rejected attempts))
  /\ (forall attempt e0,
        let write :=
          Double.outcome (Double.device e0 (Double.write_index attempt e0)) in
        let readback :=
          Double.outcome
            (Double.device e0 (S (Double.write_index attempt e0))) in
        match fst (Double.set_current_attempt attempt current_value e0) with
        | WriteRaised => write = Double.VisaError
        | Verified =>
          write <> Double.VisaError
          /\ exists set_current,
               readback = Double.Reply (Some set_current)
               /\ (abs (set_current - current_value)
                   <=? Double.py_max 0.01 (abs (current_value * 0.01))) = true
        | Mismatch =>
          write <> Double.VisaError
          /\ exists set_current,
               readback = Double.Reply (Some set_current)
               /\ (abs (set_current - current_value)
                   <=? Double.py_max 0.01 (abs (current_value * 0.01))) = false
        | VerifyRaised =>
          write <> Double.VisaError /\ Double.unreadable readback
        end).
Proof.
  intros attempts result.
  split; [simpl; lia |].
  split.
  { intros command c0 e0. unfold safe_write.
    destruct (negb (instrument c0)); [simpl; lia | apply safe_write_loop_calls]. }
  assert (Hlast : forall attempt e0,
            let write :=
              Double.outcome (Double.device e0 (Double.write_index attempt e0)) in
            let readback :=
              Double.outcome
                (Double.device e0 (S (Double.write_index attempt e0))) in
            match fst (Double.set_current_attempt attempt current_value e0) with
            | WriteRaised => write = Double.VisaError
            | Verified =>
              write <> Double.VisaError
              /\ exists set_current,
                   readback = Double.Reply (Some set_current)
                   /\ (abs (set_current - current_value)
                       <=? Double.py_max 0.01 (abs (current_value * 0.01)))
                      = true
            | Mismatch =>
              write <> Double.VisaError
              /\ exists set_current,
                   readback = Double.Reply (Some set_current)
                   /\ (abs (set_current - current_value)
                       <=? Double.py_max 0.01 (abs (current_value * 0.01)))
                      = false
            | VerifyRaised =>
              write <> Double.VisaError /\ Double.unreadable readback
            end)
    by (intros attempt e0; apply double_set_current_attempt_outcome).
  unfold result, attempts, Double.safe_set_current.
  destruct (Double.instrument c); cbn [negb].
  - pose proof (double_set_current_attempts_length 5 0 current_value e)
      as (L1 & L2 & L3).
    split; [exact L1 |].
    split.
    { intros _.
      destruct (Double.set_current_attempts 5 0 current_value e);
        [exfalso; apply L3; [lia | reflexivity] | simpl; lia]. }
    split; [discriminate |].
    split; [apply double_safe_set_current_loop_true |].
    split; [| exact Hlast].
    rewrite double_safe_set_current_loop_false. split.
    + intros H. right. split; [apply L2; [reflexivity | exact H] | exact H].
    + intros [H | [_ H]]; [discriminate H | exact H].
  - split; [simpl; lia |]. split; [discriminate |].
    split; [reflexivity |].
    split.
    { simpl. split; [discriminate | intros H; inversion H]. }
    split; [| exact Hlast].
    simpl. split; [intros _; now left | reflexivity].
Qed.

(** On the device that echoes 1.01, a set point of 1.0 is rejected five
    times: the difference of the two doubles is more than the double
    0.01.  On the device whose first two writes time out, the third
    attempt is verified. *)
Lemma safe_set_current_verdict_in_doubles_witness :
  Double.set_current_attempts 5 0 1
    (Double.env_at 0 (Double.echo_device 1.01))
  = [Mismatch; Mismatch; Mismatch; Mismatch; Mismatch]
  /\ fst (Double.safe_set_current 1 Double.connected
            (Double.env_at 0 (Double.echo_device 1.01))) = false
  /\ fst (Double.safe_set_current 1 Double.connected
            (Double.env_at 0 (Double.flaky_device 1))) = true.
Proof.
  assert (A : Double.set_current_attempts 5 0 1
                (Double.env_at 0 (Double.echo_device 1.01))
              = [Mismatch; Mismatch; Mismatch; Mismatch; Mismatch])
    by reflexivity.
  assert (B : Double.set_current_attempts 5 0 1
                (Double.env_at 0 (Double.flaky_device 1))
              = [WriteRaised; WriteRaised; Verified])
    by reflexivity.
  split; [exact A |]. split.
  - destruct (safe_set_current_verdict_in_doubles 1 Double.connected
                (Double.env_at 0 (Double.echo_device 1.01)))
      as (_ & _ & _ & _ & _ & _ & H & _).
    apply H. right. change (Double.instrument Double.connected) with true.
    cbv iota. rewrite A. split; [reflexivity |].
    repeat constructor; now right.
  - destruct (safe_set_current_verdict_in_doubles 1 Double.connected
                (Double.env_at 0 (Double.flaky_device 1)))
      as (_ & _ & _ & _ & _ & H & _).
    apply H. change (Double.instrument Double.connected) with true.
    cbv iota. rewrite B.
    apply Exists_cons_tl, Exists_cons_tl, Exists_cons_hd. now left.
Defined.

End DoublePrecision.

(* ================================================================= *)
(** * Further properties of the code *)

(** ** Controller records *)

Lemma controller_method (c : Controller) :
  set_interpolation_method (interpolation_method c) c = c.
Proof. destruct c. reflexivity. Qed.

(** ** on_interpolation_change *)

Lemma dict_get_method_map (app_data : string) :
  In (dict_get method_map app_data "rms") method_names.
Proof.
  unfold method_map, method_names, dict_get.
  repeat match goal with |- context [if ?b then _ else _] => destruct b end;
    simpl; auto 8.
Qed.

Lemma dict_get_absent (d : list (string * string)) (key default : string) :
  ~ In key (map fst d) -> dict_get d key default = default.
Proof.
  induction d as [| [k v] d IH]; intros Hn; simpl; [reflexivity |].
  destruct (String.eqb_spec k key) as [-> | _].
  - exfalso. apply Hn. now left.
  - apply IH. intros Hin. apply Hn. now right.
Qed.

(** X3: whatever label [on_interpolation_change] receives, the method it
    stores is one of the five names the interpolator has a branch for; a
    label that is not a key of the map selects "rms"; nothing else of the
    controller changes, so the next window gives what the stored method
    gives, and "Energy Equivalent" gives what "RMS (Root Mean Square)"
    gives. *)
Theorem interpolation_change_selects_known_method
    (app_data : string) (s : Session) (current_slice : list R) :
  let s' := on_interpolation_change app_data s in
  In (interpolation_method (controller s')) method_names
  /\ (~ In app_data (map fst method_map) ->
      interpolation_method (controller s') = "rms"%string)
  /\ controller s' =
     set_interpolation_method (interpolation_method (controller s'))
       (controller s)
  /\ is_connected s' = is_connected s
  /\ interpolate_current_window
       (controller (on_interpolation_change "Energy Equivalent" s))
       current_slice
     = interpolate_current_window
         (controller (on_interpolation_change "RMS (Root Mean Square)" s))
         current_slice.
Proof.
  cbv zeta. unfold on_interpolation_change.
  split; [apply dict_get_method_map |].
  split; [apply (dict_get_absent method_map) |].
  split; [reflexivity |]. split; [reflexivity |]. simpl.
  destruct current_slice as [| x w]; [now rewrite !interpolate_empty |].
  rewrite !interpolate_nonempty by discriminate. cbn -[np_mean np_square].
  now rewrite energy_is_mean_square.
Qed.

(** ** The buffer of log_message *)

Lemma slice_last_all {A : Type} (n : nat) (l : list A) :
  (length l <= n)%nat -> slice_last n l = l.
Proof.
  intros H. unfold slice_last. replace (length l - n)%nat with 0%nat by lia.
  reflexivity.
Qed.

Lemma slice_last_length {A : Type} (n : nat) (l : list A) :
  length (slice_last n l) = Nat.min n (length l).
Proof. unfold slice_last. rewrite length_skipn. lia. Qed.

Lemma slice_last_snoc {A : Type} (n : nat) (l : list A) (x : A) :
  (0 < n)%nat ->
  slice_last n (slice_last n l ++ [x]) = slice_last n (l ++ [x]).
Proof.
  intros Hn. destruct (Nat.le_gt_cases (length l) n) as [Hle | Hgt].
  - now rewrite (slice_last_all n l Hle).
  - unfold slice_last. rewrite !length_app, length_skipn. simpl length.
    replace (length l - (length l - n) + 1 - n)%nat with 1%nat by lia.
    rewrite !skipn_app, length_skipn.
    replace (1 - (length l - (length l - n)))%nat with 0%nat by lia.
    replace (length l + 1 - n - length l)%nat with 0%nat by lia.
    rewrite skipn_skipn.
    replace (1 + (length l - n))%nat with (length l + 1 - n)%nat by lia.
    reflexivity.
Qed.

Lemma slice_last_slice_last {A : Type} (n k : nat) (l : list A) :
  (n <= k)%nat -> slice_last n (slice_last k l) = slice_last n l.
Proof.
  intros H. unfold slice_last. rewrite length_skipn, skipn_skipn.
  f_equal. lia.
Qed.

Lemma log_messages_append_slice {A : Type} (x : A) (l : list A) :
  (length l <= 50)%nat -> log_messages_append x l = slice_last 50 (l ++ [x]).
Proof.
  intros H. unfold log_messages_append, slice_last. cbv zeta.
  rewrite length_app. simpl length.
  destruct (Nat.ltb_spec 50 (length l + 1)) as [Hgt | Hle].
  - replace (length l + 1 - 50)%nat with 1%nat by lia.
    destruct l; reflexivity.
  - replace (length l + 1 - 50)%nat with 0%nat by lia. reflexivity.
Qed.

(** X4: the buffer of [log_message] never holds more than 50 lines and
    loses none while fewer have been logged: starting from a buffer of
    at most 50 lines, after any sequence of calls it holds exactly the
    last 50 of the lines (those it started with followed by the logged
    ones), in order, and the log window shows the last ten of them. *)
Theorem log_buffer_keeps_last_50 {A : Type} (log_messages entries : list A) :
  (length log_messages <= 50)%nat ->
  log_messages_after entries log_messages
    = slice_last 50 (log_messages ++ entries)
  /\ (length (log_messages_after entries log_messages) <= 50)%nat
  /\ log_window (log_messages_after entries log_messages)
     = slice_last 10 (log_messages ++ entries).
Proof.
  intros H.
  assert (E : log_messages_after entries log_messages
              = slice_last 50 (log_messages ++ entries)).
  { induction entries as [| x entries IH] using rev_ind.
    - simpl. rewrite app_nil_r. symmetry. now apply slice_last_all.
    - unfold log_messages_after in *. rewrite fold_left_app. simpl.
      rewrite IH. rewrite log_messages_append_slice.
      + rewrite slice_last_snoc by lia. now rewrite app_assoc.
      + rewrite slice_last_length. lia. }
  split; [exact E |]. rewrite E. split.
  - rewrite slice_last_length. lia.
  - unfold log_window. apply slice_last_slice_last. lia.
Qed.

Lemma log_buffer_keeps_last_50_witness :
  log_messages_after [1; 2; 3]%nat (repeat 0%nat 49)
    = repeat 0%nat 47 ++ [1; 2; 3]%nat.
Proof.
  assert (H : (length (repeat 0%nat 49) <= 50)%nat) by (simpl; lia).
  exact (proj1 (log_buffer_keeps_last_50 (repeat 0%nat 49) [1; 2; 3]%nat H)).
Defined.

(** ** safe_write and safe_query: attempts and verdict *)

Lemma sent_between_refl (e : Env) : sent_between e e [].
Proof. split; [now rewrite app_nil_r | simpl; lia]. Qed.

Lemma sent_between_trans (e1 e2 e3 : Env) (s1 s2 : list (R * Command)) :
  sent_between e1 e2 s1 -> sent_between e2 e3 s2 ->
  sent_between e1 e3 (s1 ++ s2).
Proof.
  intros [W1 C1] [W2 C2]. split.
  - now rewrite W2, W1, app_assoc.
  - rewrite C2, C1, length_app. lia.
Qed.

Lemma sent_between_call (command : Command) (e : Env) :
  sent_between e (snd (instrument_call command e)) [(clock e, command)].
Proof. split; simpl; [reflexivity | lia]. Qed.

Lemma sent_between_same (e e' : Env) :
  wire e' = wire e -> calls e' = calls e -> sent_between e e' [].
Proof. intros W C. split; [now rewrite app_nil_r | simpl; lia]. Qed.

Lemma command_gate_sent (c : Controller) (e : Env) :
  sent_between e (command_gate c e) [].
Proof.
  apply sent_between_same; unfold command_gate; destruct (Rltb _ _); reflexivity.
Qed.

Lemma safe_write_loop_trace (command : Command) (c : Controller)
    (remaining : nat) :
  forall attempt e,
    (remaining + attempt = max_retries c)%nat ->
    let r := safe_write_loop remaining attempt command c e in
    exists sent,
      sent_between e (snd r) sent
      /\ Forall (fun s => snd s = command) sent
      /\ device (snd r) = device e
      /\ (forall k, (S k < length sent)%nat -> raises (device e) (calls e + k))
      /\ if fst (fst r)
         then (1 <= length sent <= remaining)%nat
              /\ ~ raises (device e) (calls e + (length sent - 1))
              /\ snd (fst r) = set_last_command_time (clock (snd r)) c
         else length sent = remaining
              /\ (forall k, (k < remaining)%nat -> raises (device e) (calls e + k))
              /\ snd (fst r) = c.
Proof.
  induction remaining as [| remaining IH]; intros attempt e Hinv r.
  - exists []. subst r. simpl. split; [apply sent_between_refl |].
    split; [constructor |]. split; [reflexivity |].
    split; [intros k Hk; simpl in Hk; lia |].
    split; [reflexivity |]. split; [intros k Hk; lia | reflexivity].
  - subst r. simpl.
    destruct (command_gate_device c e) as [Hd Hc].
    destruct (command_gate_sent c e) as [Hw _]. rewrite app_nil_r in Hw.
    set (g := command_gate c e) in *.
    unfold instrument_call. cbv zeta.
    destruct (outcome (device g (calls g))) eqn:Ho.
    + assert (Hr : raises (device e) (calls e + 0)).
      { unfold raises. rewrite Nat.add_0_r, <- Hd, <- Hc. exact Ho. }
      destruct (attempt <? max_retries c - 1)%nat eqn:Hlt.
      * match goal with
        | |- context [safe_write_loop remaining (S attempt) command c ?x] =>
          set (e1 := x)
        end.
        destruct (IH (S attempt) e1 ltac:(lia)) as (sent & [W C] & Hall & Hdev & Hpre & Hres).
        assert (Hd1 : device e1 = device e) by (unfold e1; simpl; exact Hd).
        assert (Hc1 : calls e1 = S (calls e)) by (unfold e1; simpl; now rewrite Hc).
        assert (Hw1 : wire e1 = wire e ++ [(clock g, command)])
          by (unfold e1; simpl; now rewrite Hw).
        exists ((clock g, command) :: sent).
        split; [split |].
        -- rewrite W, Hw1, <- app_assoc. reflexivity.
        -- rewrite C, Hc1. simpl. lia.
        -- split; [constructor; [reflexivity | exact Hall] |].
           split; [now rewrite Hdev |].
           split.
           ++ intros k Hk. simpl in Hk. destruct k as [| k]; [exact Hr |].
              specialize (Hpre k ltac:(lia)).
              rewrite Hd1, Hc1 in Hpre.
              now replace (calls e + S k)%nat with (S (calls e) + k)%nat by lia.
           ++ destruct (fst (fst (safe_write_loop remaining (S attempt) command c e1))).
              ** destruct Hres as (Hlen & Hans & Hctl). simpl length.
                 split; [lia |]. split; [| exact Hctl].
                 rewrite Hd1, Hc1 in Hans.
                 replace (calls e + (S (length sent) - 1))%nat
                   with (S (calls e) + (length sent - 1))%nat by lia.
                 exact Hans.
              ** destruct Hres as (Hlen & Hfail & Hctl). simpl length.
                 split; [lia |]. split; [| exact Hctl].
                 intros k Hk. destruct k as [| k]; [exact Hr |].
                 specialize (Hfail k ltac:(lia)). rewrite Hd1, Hc1 in Hfail.
                 now replace (calls e + S k)%nat with (S (calls e) + k)%nat by lia.
      * apply Nat.ltb_ge in Hlt.
        assert (remaining = 0%nat) by lia. subst remaining.
        exists [(clock g, command)]. simpl.
        split; [split; simpl; [now rewrite Hw | rewrite Hc; lia] |].
        split; [constructor; [reflexivity | constructor] |].
        split; [exact Hd |].
        split; [intros k Hk; lia |].
        split; [reflexivity |]. split; [| reflexivity].
        intros k Hk. assert (k = 0%nat) by lia. subst k. exact Hr.
    + exists [(clock g, command)]. simpl.
      split; [split; simpl; [now rewrite Hw | rewrite Hc; lia] |].
      split; [constructor; [reflexivity | constructor] |].
      split; [exact Hd |].
      split; [intros k Hk; lia |].
      split; [lia |]. split; [| reflexivity].
      unfold raises. rewrite Nat.add_0_r, <- Hd, <- Hc, Ho. discriminate.
Qed.

(** X5: [safe_write] with an open instrument sends the command, and
    nothing else, once per attempt until a call goes through: every call
    before the last one raised; it returns [True] exactly when the last
    call did not raise, after at most [max_retries] calls, and then
    [last_command_time] is the instant of return; it returns [False]
    only after [max_retries] calls that all raised, and then leaves the
    controller as it was. *)
Theorem safe_write_attempts (command : Command) (c : Controller) (e : Env) :
  instrument c = true ->
  let r := safe_write command c e in
  exists sent,
    sent_between e (snd r) sent
    /\ Forall (fun s => snd s = command) sent
    /\ (forall k, (S k < length sent)%nat -> raises (device e) (calls e + k))
    /\ if fst (fst r)
       then (1 <= length sent <= max_retries c)%nat
            /\ ~ raises (device e) (calls e + (length sent - 1))
            /\ snd (fst r) = set_last_command_time (clock (snd r)) c
       else length sent = max_retries c
            /\ (forall k, (k < max_retries c)%nat ->
                          raises (device e) (calls e + k))
            /\ snd (fst r) = c.
Proof.
  intros Hi r. subst r. unfold safe_write. rewrite Hi. simpl negb. cbv iota.
  destruct (safe_write_loop_trace command c (max_retries c) 0 e ltac:(lia))
    as (sent & H1 & H2 & _ & H3 & H4).
  exists sent. repeat split; try assumption; apply H1.
Qed.

Lemma safe_write_attempts_witness :
  exists sent,
    sent_between (env_at 0 stuttering_device)
      (snd (safe_write enable connected (env_at 0 stuttering_device))) sent
    /\ Forall (fun s => snd s = enable) sent.
Proof.
  destruct (safe_write_attempts enable connected (env_at 0 stuttering_device)
              eq_refl) as (sent & H1 & H2 & _).
  exists sent. split; assumption.
Defined.

Lemma safe_query_loop_trace (command : Command) (c : Controller)
    (remaining : nat) :
  forall attempt e,
    (remaining + attempt = max_retries c)%nat ->
    let r := safe_query_loop remaining attempt command c e in
    exists sent,
      sent_between e (snd r) sent
      /\ Forall (fun s => snd s = command) sent
      /\ device (snd r) = device e
      /\ (forall k, (S k < length sent)%nat -> raises (device e) (calls e + k))
      /\ match fst (fst r) with
         | Some result =>
           (1 <= length sent <= remaining)%nat
           /\ outcome (device e (calls e + (length sent - 1))) = Reply result
           /\ snd (fst r) = set_last_command_time (clock (snd r)) c
         | None =>
           length sent = remaining
           /\ (forall k, (k < remaining)%nat -> raises (device e) (calls e + k))
           /\ snd (fst r) = c
         end.
Proof.
  induction remaining as [| remaining IH]; intros attempt e Hinv r.
  - exists []. subst r. simpl. split; [apply sent_between_refl |].
    split; [constructor |]. split; [reflexivity |].
    split; [intros k Hk; simpl in Hk; lia |].
    split; [reflexivity |]. split; [intros k Hk; lia | reflexivity].
  - subst r. simpl.
    destruct (command_gate_device c e) as [Hd Hc].
    destruct (command_gate_sent c e) as [Hw _]. rewrite app_nil_r in Hw.
    set (g := command_gate c e) in *.
    unfold instrument_call. cbv zeta.
    destruct (outcome (device g (calls g))) eqn:Ho.
    + assert (Hr : raises (device e) (calls e + 0)).
      { unfold raises. rewrite Nat.add_0_r, <- Hd, <- Hc. exact Ho. }
      destruct (attempt <? max_retries c - 1)%nat eqn:Hlt.
      * match goal with
        | |- context [safe_query_loop remaining (S attempt) command c ?x] =>
          set (e1 := x)
        end.
        destruct (IH (S attempt) e1 ltac:(lia))
          as (sent & [W C] & Hall & Hdev & Hpre & Hres).
        assert (Hd1 : device e1 = device e) by (unfold e1; simpl; exact Hd).
        assert (Hc1 : calls e1 = S (calls e)) by (unfold e1; simpl; now rewrite Hc).
        assert (Hw1 : wire e1 = wire e ++ [(clock g, command)])
          by (unfold e1; simpl; now rewrite Hw).
        exists ((clock g, command) :: sent).
        split; [split |].
        -- rewrite W, Hw1, <- app_assoc. reflexivity.
        -- rewrite C, Hc1. simpl. lia.
        -- split; [constructor; [reflexivity | exact Hall] |].
           split; [now rewrite Hdev |].
           split.
           ++ intros k Hk. simpl in Hk. destruct k as [| k]; [exact Hr |].
              specialize (Hpre k ltac:(lia)).
              rewrite Hd1, Hc1 in Hpre.
              now replace (calls e + S k)%nat with (S (calls e) + k)%nat by lia.
           ++ destruct (fst (fst (safe_query_loop remaining (S attempt) command c e1))).
              ** destruct Hres as (Hlen & Hans & Hctl). simpl length.
                 split; [lia |]. split; [| exact Hctl].
                 rewrite Hd1, Hc1 in Hans.
                 replace (calls e + (S (length sent) - 1))%nat
                   with (S (calls e) + (length sent - 1))%nat by lia.
                 exact Hans.
              ** destruct Hres as (Hlen & Hfail & Hctl). simpl length.
                 split; [lia |]. split; [| exact Hctl].
                 intros k Hk. destruct k as [| k]; [exact Hr |].
                 specialize (Hfail k ltac:(lia)). rewrite Hd1, Hc1 in Hfail.
                 now replace (calls e + S k)%nat with (S (calls e) + k)%nat by lia.
      * apply Nat.ltb_ge in Hlt.
        assert (remaining = 0%nat) by lia. subst remaining.
        exists [(clock g, command)]. simpl.
        split; [split; simpl; [now rewrite Hw | rewrite Hc; lia] |].
        split; [constructor; [reflexivity | constructor] |].
        split; [exact Hd |].
        split; [intros k Hk; lia |].
        split; [reflexivity |]. split; [| reflexivity].
        intros k Hk. assert (k = 0%nat) by lia. subst k. exact Hr.
    + exists [(clock g, command)]. simpl.
      split; [split; simpl; [now rewrite Hw | rewrite Hc; lia] |].
      split; [constructor; [reflexivity | constructor] |].
      split; [exact Hd |].
      split; [intros k Hk; lia |].
      split; [lia |]. split; [| reflexivity].
      rewrite Nat.add_0_r, <- Hd, <- Hc. exact Ho.
Qed.

(** X6: [safe_query] with an open instrument makes at most [max_retries]
    calls, all of them the query; every call before the last one raised;
    what it returns is the reply of the last call, the first that did
    not raise, and then [last_command_time] is the instant of return; it
    returns [None] only after [max_retries] calls that all raised, and
    then leaves the controller as it was. *)
Theorem safe_query_attempts (command : Command) (c : Controller) (e : Env) :
  instrument c = true ->
  let r := safe_query command c e in
  exists sent,
    sent_between e (snd r) sent
    /\ Forall (fun s => snd s = command) sent
    /\ (forall k, (S k < length sent)%nat -> raises (device e) (calls e + k))
    /\ match fst (fst r) with
       | Some result =>
         (1 <= length sent <= max_retries c)%nat
         /\ outcome (device e (calls e + (length sent - 1))) = Reply result
         /\ snd (fst r) = set_last_command_time (clock (snd r)) c
       | None =>
         length sent = max_retries c
         /\ (forall k, (k < max_retries c)%nat ->
                       raises (device e) (calls e + k))
         /\ snd (fst r) = c
       end.
Proof.
  intros Hi r. subst r. unfold safe_query. rewrite Hi. simpl negb. cbv iota.
  destruct (safe_query_loop_trace command c (max_retries c) 0 e ltac:(lia))
    as (sent & H1 & H2 & _ & H3 & H4).
  exists sent. repeat split; try assumption; apply H1.
Qed.

Lemma safe_query_attempts_witness :
  exists sent,
    sent_between (env_at 0 stuttering_device)
      (snd (safe_query (Scpi ":SOUR:FUNC?") connected
              (env_at 0 stuttering_device))) sent
    /\ Forall (fun s => snd s = Scpi ":SOUR:FUNC?") sent.
Proof.
  destruct (safe_query_attempts (Scpi ":SOUR:FUNC?") connected
              (env_at 0 stuttering_device) eq_refl) as (sent & H1 & H2 & _).
  exists sent. split; assumption.
Defined.

(** ** What the operations do to the environment *)

Lemma extends_refl (P : Command -> Prop) (L : LogRow -> Prop) (e : Env) :
  extends P L e e.
Proof.
  repeat split; try reflexivity; try lra.
  - exists []. split; [apply sent_between_refl | constructor].
  - exists []. now rewrite app_nil_r.
  - exists []. split; [now rewrite app_nil_r | constructor].
Qed.

Lemma extends_trans (P : Command -> Prop) (L : LogRow -> Prop)
    (e1 e2 e3 : Env) :
  extends P L e1 e2 -> extends P L e2 e3 -> extends P L e1 e3.
Proof.
  intros (D1 & S1 & T1 & (w1 & W1 & F1) & (p1 & P1) & (r1 & R1 & L1))
         (D2 & S2 & T2 & (w2 & W2 & F2) & (p2 & P2) & (r2 & R2 & L2)).
  split; [congruence |]. split; [congruence |]. split; [lra |].
  split; [| split].
  - exists (w1 ++ w2). split; [now apply sent_between_trans with e2 |].
    apply Forall_app. split; assumption.
  - exists (p1 ++ p2). now rewrite P2, P1, app_assoc.
  - exists (r1 ++ r2). split; [now rewrite R2, R1, app_assoc |].
    apply Forall_app. split; assumption.
Qed.

Lemma extends_sub (P Q : Command -> Prop) (L : LogRow -> Prop)
    (e e' : Env) :
  (forall command, P command -> Q command) -> extends P L e e' -> extends Q L e e'.
Proof.
  intros HPQ (D & S & T & (w & W & F) & Hp & Hr).
  repeat split; try assumption.
  exists w. split; [exact W |].
  eapply Forall_impl; [| exact F]. intros a Ha. now apply HPQ.
Qed.

Lemma extends_punctual (P : Command -> Prop) (L : LogRow -> Prop)
    (e e' : Env) :
  extends P L e e' -> punctual e -> punctual e'.
Proof. intros (D & _) H n. rewrite D. apply H. Qed.

Lemma extends_time_sleep (P : Command -> Prop) (L : LogRow -> Prop)
    (seconds : R) (e : Env) :
  0 <= seconds -> extends P L e (time_sleep seconds e).
Proof.
  intros H. repeat split; simpl; try reflexivity; try lra.
  - exists []. split; [now apply sent_between_same | constructor].
  - exists []. now rewrite app_nil_r.
  - exists []. split; [now rewrite app_nil_r | constructor].
Qed.

Lemma extends_log_message (P : Command -> Prop) (L : LogRow -> Prop)
    (m : Message) (e : Env) :
  extends P L e (log_message m e).
Proof.
  repeat split; simpl; try reflexivity; try lra.
  - exists []. split; [now apply sent_between_same | constructor].
  - now exists [m].
  - exists []. split; [now rewrite app_nil_r | constructor].
Qed.

Lemma extends_writerow (P : Command -> Prop) (L : LogRow -> Prop)
    (r : LogRow) (e : Env) :
  L r -> extends P L e (writerow r e).
Proof.
  intros Hr. repeat split; simpl; try reflexivity; try lra.
  - exists []. split; [now apply sent_between_same | constructor].
  - exists []. now rewrite app_nil_r.
  - exists [r]. split; [reflexivity | constructor; [exact Hr | constructor]].
Qed.

Lemma extends_call (P : Command -> Prop) (L : LogRow -> Prop)
    (command : Command) (e : Env) :
  punctual e -> P command -> extends P L e (snd (instrument_call command e)).
Proof.
  intros Hp Hc. repeat split; simpl; try reflexivity.
  - specialize (Hp (calls e)). lra.
  - exists [(clock e, command)]. split; [apply sent_between_call |].
    constructor; [exact Hc | constructor].
  - exists []. now rewrite app_nil_r.
  - exists []. split; [now rewrite app_nil_r | constructor].
Qed.

Lemma extends_command_gate (P : Command -> Prop) (L : LogRow -> Prop)
    (c : Controller) (e : Env) :
  extends P L e (command_gate c e).
Proof.
  unfold command_gate.
  destruct (Rltb_spec (clock e - last_command_time c) (command_interval c)) as [H1 H2].
  destruct (Rltb _ _).
  - apply extends_time_sleep. specialize (H1 eq_refl). lra.
  - apply extends_refl.
Qed.

Create HintDb extends.

#[local] Hint Resolve extends_refl extends_time_sleep extends_log_message
  extends_writerow extends_call extends_command_gate extends_punctual
  : extends.

Ltac extends_step e2 :=
  apply extends_trans with e2; [| eauto with extends].

Lemma extends_safe_write_loop (P : Command -> Prop) (L : LogRow -> Prop)
    (command : Command)
    (c : Controller) (remaining : nat) :
  forall attempt e,
    punctual e -> P command ->
    extends P L e (snd (safe_write_loop remaining attempt command c e)).
Proof.
  induction remaining as [| remaining IH]; intros attempt e Hp Hc; simpl;
    [apply extends_refl |].
  assert (Hg : extends P L e (command_gate c e)) by apply extends_command_gate.
  assert (Hpg : punctual (command_gate c e)) by eauto with extends.
  pose proof (extends_call P L command _ Hpg Hc) as Hcall.
  unfold instrument_call in *. cbv zeta in *. simpl snd in Hcall.
  set (e2 := mkEnv _ _ _ _ _ _ _) in *.
  assert (H2 : extends P L e e2) by (eapply extends_trans; eassumption).
  destruct (outcome _); [| exact H2].
  destruct (_ <? _)%nat.
  - assert (H3 : extends P L e
                   (time_sleep (0.5 * (INR attempt + 1))
                      (log_message (WriteRetry (attempt + 1) command) e2))).
    { eapply extends_trans; [exact H2 |].
      eapply extends_trans; [apply extends_log_message |].
      apply extends_time_sleep. pose proof (pos_INR attempt). lra. }
    eapply extends_trans; [exact H3 |].
    apply IH; [| exact Hc]. eapply extends_punctual; eassumption.
  - eapply extends_trans; [exact H2 | apply extends_log_message].
Qed.

Lemma extends_safe_write (P : Command -> Prop) (L : LogRow -> Prop)
    (command : Command)
    (c : Controller) (e : Env) :
  punctual e -> P command -> extends P L e (snd (safe_write command c e)).
Proof.
  intros Hp Hc. unfold safe_write. destruct (negb _); [apply extends_refl |].
  now apply extends_safe_write_loop.
Qed.

Lemma extends_safe_query_loop (P : Command -> Prop) (L : LogRow -> Prop)
    (command : Command)
    (c : Controller) (remaining : nat) :
  forall attempt e,
    punctual e -> P command ->
    extends P L e (snd (safe_query_loop remaining attempt command c e)).
Proof.
  induction remaining as [| remaining IH]; intros attempt e Hp Hc; simpl;
    [apply extends_refl |].
  assert (Hg : extends P L e (command_gate c e)) by apply extends_command_gate.
  assert (Hpg : punctual (command_gate c e)) by eauto with extends.
  pose proof (extends_call P L command _ Hpg Hc) as Hcall.
  unfold instrument_call in *. cbv zeta in *. simpl snd in Hcall.
  set (e2 := mkEnv _ _ _ _ _ _ _) in *.
  assert (H2 : extends P L e e2) by (eapply extends_trans; eassumption).
  destruct (outcome _); [| exact H2].
  destruct (_ <? _)%nat.
  - assert (H3 : extends P L e
                   (time_sleep (0.5 * (INR attempt + 1))
                      (log_message (QueryRetry (attempt + 1) command) e2))).
    { eapply extends_trans; [exact H2 |].
      eapply extends_trans; [apply extends_log_message |].
      apply extends_time_sleep. pose proof (pos_INR attempt). lra. }
    eapply extends_trans; [exact H3 |].
    apply IH; [| exact Hc]. eapply extends_punctual; eassumption.
  - eapply extends_trans; [exact H2 | apply extends_log_message].
Qed.

Lemma extends_safe_query (P : Command -> Prop) (L : LogRow -> Prop)
    (command : Command)
    (c : Controller) (e : Env) :
  punctual e -> P command -> extends P L e (snd (safe_query command c e)).
Proof.
  intros Hp Hc. unfold safe_query. destruct (negb _); [apply extends_refl |].
  now apply extends_safe_query_loop.
Qed.

Lemma extends_measure_attempts (P : Command -> Prop) (L : LogRow -> Prop)
    (command : Command)
    (retry failed : Message) (remaining : nat) :
  forall attempt e,
    punctual e -> P command ->
    let e' := snd (measure_attempts remaining attempt command retry failed e) in
    extends P L e e' /\ (calls e' <= calls e + remaining)%nat.
Proof.
  induction remaining as [| remaining IH]; intros attempt e Hp Hc; simpl;
    [split; [apply extends_refl | lia] |].
  pose proof (extends_call P L command e Hp Hc) as Hcall.
  unfold instrument_call in *. cbv zeta in *. simpl snd in Hcall.
  set (e1 := mkEnv _ _ _ _ _ _ _) in *.
  assert (Hc1 : calls e1 = S (calls e)) by reflexivity.
  assert (Hrec : forall e2, extends P L e1 e2 -> calls e2 = calls e1 ->
            let e' := snd (measure_attempts remaining (S attempt) command
                             retry failed e2) in
            extends P L e e' /\ (calls e' <= calls e + S remaining)%nat).
  { intros e2 H2 Hc2.
    assert (He2 : extends P L e e2) by (eapply extends_trans; eassumption).
    destruct (IH (S attempt) e2) as [Hx Hn];
      [eapply extends_punctual; eassumption | exact Hc |].
    split; [eapply extends_trans; eassumption | lia]. }
  assert (Hfail :
    let e' := snd (if (attempt =? 0)%nat
                   then measure_attempts remaining (S attempt) command retry
                          failed (time_sleep 0.5 (log_message retry e1))
                   else measure_attempts remaining (S attempt) command retry
                          failed (log_message failed e1)) in
    extends P L e e' /\ (calls e' <= calls e + S remaining)%nat).
  { destruct (attempt =? 0)%nat.
    - apply Hrec; [| reflexivity].
      eapply extends_trans; [apply extends_log_message |].
      apply extends_time_sleep. lra.
    - apply Hrec; [apply extends_log_message | reflexivity]. }
  destruct (outcome _) as [| [value |]]; try exact Hfail.
  split; [exact Hcall | simpl; lia].
Qed.

Lemma extends_safe_measure (L : LogRow -> Prop) (c : Controller) (e : Env) :
  punctual e ->
  let e' := snd (safe_measure c e) in
  extends measurement_query L e e' /\ (calls e' <= calls e + 4)%nat.
Proof.
  intros Hp. unfold safe_measure. cbv zeta.
  destruct (negb _); [split; [apply extends_refl | simpl; lia] |].
  destruct (Rltb _ _); [split; [apply extends_refl | simpl; lia] |].
  destruct (extends_measure_attempts measurement_query L (Scpi ":MEAS:VOLT?")
              VoltageMeasurementRetry VoltageMeasurementFailed 2 0 e Hp)
    as [H1 N1]; [now left |].
  fold (poll_voltage e) in H1, N1.
  destruct (poll_voltage e) as [voltage e1]. simpl in H1, N1.
  destruct (Rltb 5 _).
  { split; simpl; [| lia].
    eapply extends_trans; [exact H1 | apply extends_log_message]. }
  destruct (extends_measure_attempts measurement_query L (Scpi ":MEAS:CURR?")
              CurrentMeasurementRetry CurrentMeasurementFailed 2 0 e1)
    as [H2 N2]; [eapply extends_punctual; eassumption | now right |].
  fold (poll_current e1) in H2, N2.
  destruct (poll_current e1) as [current e2]. simpl in H2, N2.
  assert (H12 : extends measurement_query L e e2)
    by (eapply extends_trans; eassumption).
  destruct voltage as [voltage |]; destruct current as [current |];
    try (split; simpl; [exact H12 | lia]).
  destruct (_ && _)%bool; split; simpl; try lia; try exact H12.
  eapply extends_trans; [exact H12 | apply extends_log_message].
Qed.

Lemma extends_set_current_attempt (L : LogRow -> Prop) (attempt : nat)
    (current_value : R) (e : Env) :
  punctual e ->
  let e' := snd (set_current_attempt attempt current_value e) in
  extends (setpoint_command current_value) L e e'
  /\ (calls e' <= calls e + (if (0 <? attempt)%nat then 3 else 2))%nat
  /\ 0.3 <= clock e' - clock e.
Proof.
  intros Hp. cbv zeta.
  pattern (snd (set_current_attempt attempt current_value e)).
  match goal with |- ?F _ => set (Q := F) end.
  unfold set_current_attempt. cbv zeta.
  set (P := setpoint_command current_value) in *.
  set (e1 := time_sleep 0.3 e).
  assert (H1 : extends P L e e1) by (apply extends_time_sleep; lra).
  assert (T1 : clock e1 = clock e + 0.3) by reflexivity.
  assert (C1 : calls e1 = calls e) by reflexivity.
  assert (Hp1 : punctual e1) by (eapply extends_punctual; eassumption).
  match goal with
  | |- context [instrument_call (SourCurrLev current_value) ?x] => set (e2 := x)
  end.
  assert (H2 : extends P L e1 e2
               /\ (calls e2 <= calls e1 + (if (0 <? attempt)%nat then 1 else 0))%nat).
  { unfold e2. destruct (0 <? attempt)%nat; [| split; [apply extends_refl | lia]].
    pose proof (extends_call P L (Scpi "*CLS") e1 Hp1 (or_introl eq_refl)) as Hc.
    unfold instrument_call in *. cbv zeta in *. simpl snd in Hc.
    set (e' := mkEnv _ _ _ _ _ _ _) in *.
    destruct (outcome _).
    - split; [exact Hc | simpl; lia].
    - split; [| simpl; lia].
      eapply extends_trans; [exact Hc | apply extends_time_sleep; lra]. }
  destruct H2 as [H2 N2]. clearbody e2.
  assert (Hp2 : punctual e2) by (eapply extends_punctual; eassumption).
  pose proof (extends_call P L (SourCurrLev current_value) e2 Hp2
                (or_intror (or_introl eq_refl))) as H3.
  unfold instrument_call at 1. unfold instrument_call in H3.
  cbv zeta in *. simpl snd in H3.
  set (e3 := mkEnv _ _ _ _ _ _ _) in *.
  assert (C3 : calls e3 = S (calls e2)) by reflexivity.
  assert (H03 : extends P L e e3).
  { eapply extends_trans; [exact H1 |]. eapply extends_trans; eassumption. }
  assert (T3 : 0.3 <= clock e3 - clock e).
  { destruct H2 as (_ & _ & T2 & _). destruct H3 as (_ & _ & T3 & _). lra. }
  destruct (outcome (device e2 (calls e2))).
  { subst Q. cbv beta. simpl snd.
    split; [exact H03 |]. split; [| exact T3].
    destruct (0 <? attempt)%nat; lia. }
  clearbody e3.
  set (e4 := time_sleep 0.1 (time_sleep 0.2 e3)).
  assert (H4 : extends P L e3 e4).
  { unfold e4. eapply extends_trans; apply extends_time_sleep; lra. }
  assert (Hp4 : punctual e4).
  { eapply extends_punctual; [exact H4 |].
    eapply extends_punctual; [exact H03 | exact Hp]. }
  pose proof (extends_call P L (Scpi ":SOUR:CURR:LEV?") e4 Hp4
                (or_intror (or_intror eq_refl))) as H5.
  unfold instrument_call. unfold instrument_call in H5.
  cbv zeta. cbv zeta in H5. cbn [snd] in H5.
  set (e5 := mkEnv _ _ _ _ _ _ _) in *.
  assert (C5 : calls e5 = S (calls e3)) by reflexivity.
  assert (H05 : extends P L e e5).
  { eapply extends_trans; [exact H03 |]. eapply extends_trans; eassumption. }
  assert (T5 : 0.3 <= clock e5 - clock e).
  { destruct H4 as (_ & _ & T4 & _). destruct H5 as (_ & _ & T5 & _). lra. }
  assert (Hlog : forall (a : Attempt) m, Q (snd (a, log_message m e5))).
  { intros a m. subst Q. cbv beta. simpl snd. split; [| split].
    - eapply extends_trans; [exact H05 | apply extends_log_message].
    - change (calls (log_message m e5)) with (calls e5).
      rewrite C5. destruct (0 <? attempt)%nat; lia.
    - exact T5. }
  destruct (outcome (device e4 (calls e4))) as [| [set_current |]];
    try apply Hlog.
  destruct (Rleb _ _); apply Hlog.
Qed.

Lemma extends_safe_set_current_loop (L : LogRow -> Prop) (current_value : R)
    (remaining : nat) :
  forall attempt e,
    punctual e ->
    let e' := snd (safe_set_current_loop remaining attempt current_value e) in
    extends (setpoint_command current_value) L e e'
    /\ (calls e'
          + (if ((attempt =? 0) && (0 <? remaining))%nat%bool then 1 else 0)
        <= calls e + 3 * remaining)%nat.
Proof.
  induction remaining as [| remaining IH]; intros attempt e Hp; simpl.
  { split; [apply extends_refl |]. rewrite andb_false_r. lia. }
  pose proof (extends_set_current_attempt L attempt current_value e Hp)
    as (H1 & N1 & _).
  destruct (set_current_attempt attempt current_value e) as [a e1].
  simpl in H1, N1.
  assert (Hp1 : punctual e1) by (eapply extends_punctual; eassumption).
  assert (Hn : forall x : nat,
             (x <= calls e1)%nat ->
             (x + (if ((attempt =? 0) && true)%nat%bool then 1 else 0)
              <= calls e + S (remaining + S (remaining + S (remaining + 0))))%nat).
  { intros x Hx. destruct attempt; simpl in *; lia. }
  assert (Hrec : forall e2, extends (setpoint_command current_value) L e1 e2 ->
            calls e2 = calls e1 ->
            let e' := snd (safe_set_current_loop remaining (S attempt)
                             current_value e2) in
            extends (setpoint_command current_value) L e e'
            /\ (calls e' + (if ((attempt =? 0) && true)%nat%bool then 1 else 0)
                <= calls e + S (remaining + S (remaining + S (remaining + 0))))%nat).
  { intros e2 H2 C2.
    destruct (IH (S attempt) e2) as [Hx Nx];
      [eapply extends_punctual; eassumption |].
    split.
    - eapply extends_trans; [exact H1 |]. eapply extends_trans; eassumption.
    - simpl in Nx. destruct attempt; simpl in *; lia. }
  destruct a.
  - destruct (attempt <? 4)%nat.
    + apply Hrec; [| reflexivity].
      eapply extends_trans; [apply extends_log_message |].
      apply extends_time_sleep. pose proof (pos_INR attempt). lra.
    + split; [| apply Hn; simpl; lia].
      eapply extends_trans; [exact H1 | apply extends_log_message].
  - split; [exact H1 | apply Hn; simpl; lia].
  - apply Hrec; [apply extends_refl | reflexivity].
  - split; [exact H1 | apply Hn; simpl; lia].
Qed.

(** X7: [safe_set_current] sends nothing but "*CLS", the set point
    command with the value it was given, and the readback query; it
    makes at most 14 calls of the instrument (five attempts of three
    calls, the first without "*CLS"), none without an instrument; it
    takes nothing back from the environment and, with an instrument,
    takes at least 0.3 s. *)
Theorem safe_set_current_traffic (current_value : R) (c : Controller) (e : Env) :
  punctual e ->
  let r := safe_set_current current_value c e in
  extends (setpoint_command current_value) no_row e (snd r)
  /\ (calls (snd r) <= calls e + 14)%nat
  /\ (instrument c = false -> r = (false, e))
  /\ (instrument c = true -> 0.3 <= clock (snd r) - clock e).
Proof.
  intros Hp r. subst r. unfold safe_set_current.
  destruct (instrument c); simpl negb; cbv iota.
  - destruct (extends_safe_set_current_loop no_row current_value 5 0 e Hp) as [H N].
    split; [exact H |].
    split; [cbv zeta in N; cbn [Nat.eqb Nat.ltb Nat.leb andb] in N; lia |].
    split; [discriminate | intros _].
    change (safe_set_current_loop 5 0 current_value e)
      with (let '(a, e1) := set_current_attempt 0 current_value e in
            match a with
            | Verified => (true, e1)
            | VerifyRaised => (true, e1)
            | Mismatch => safe_set_current_loop 4 1 current_value e1
            | WriteRaised =>
              safe_set_current_loop 4 1 current_value
                (time_sleep (1 * (INR 0 + 1))
                   (log_message (CurrentSettingRetry (0 + 1)) e1))
            end).
    pose proof (extends_set_current_attempt no_row 0 current_value e Hp)
      as (H1 & _ & T1).
    destruct (set_current_attempt 0 current_value e) as [a e1].
    simpl in H1, T1.
    assert (Hp1 : punctual e1) by (eapply extends_punctual; eassumption).
    destruct a; cbv beta iota; try exact T1.
    + match goal with
      | |- context [safe_set_current_loop 4 1 current_value ?x] => set (e2 := x)
      end.
      assert (H2 : extends (setpoint_command current_value) no_row e1 e2).
      { unfold e2. eapply extends_trans; [apply extends_log_message |].
        apply extends_time_sleep. simpl. lra. }
      destruct (extends_safe_set_current_loop no_row current_value 4 1 e2)
        as [(_ & _ & T3 & _) _]; [eapply extends_punctual; eassumption |].
      destruct H2 as (_ & _ & T2 & _). lra.
    + destruct (extends_safe_set_current_loop no_row current_value 4 1 e1 Hp1)
        as [(_ & _ & T3 & _) _]. lra.
  - split; [apply extends_refl |]. split; [simpl; lia |].
    split; [reflexivity | discriminate].
Qed.

Lemma safe_set_current_traffic_witness :
  (calls (snd (safe_set_current 1 connected (env_at 0 flaky_device)))
   <= calls (env_at 0 flaky_device) + 14)%nat.
Proof.
  assert (Hp : punctual (env_at 0 flaky_device)).
  { intros n. simpl.
    do 6 (destruct n as [| n]; [simpl; lra |]). simpl. lra. }
  exact (proj1 (proj2 (safe_set_current_traffic 1 connected
                        (env_at 0 flaky_device) Hp))).
Defined.

(** ** safe_measure: traffic and rate limit *)

Lemma measure_attempts_calls (command : Command) (retry failed : Message)
    (remaining : nat) :
  forall attempt e,
    (calls e + (if (0 <? remaining)%nat then 1 else 0)
     <= calls (snd (measure_attempts remaining attempt command retry failed e)))%nat.
Proof.
  induction remaining as [| remaining IH]; intros attempt e; simpl; [lia |].
  unfold instrument_call. cbv zeta.
  set (e1 := mkEnv _ _ _ _ _ _ _).
  assert (C1 : calls e1 = S (calls e)) by reflexivity. clearbody e1.
  assert (Hrec : forall e2, calls e2 = calls e1 ->
            (calls e + 1
             <= calls (snd (measure_attempts remaining (S attempt) command
                              retry failed e2)))%nat).
  { intros e2 C2. specialize (IH (S attempt) e2).
    destruct (0 <? remaining)%nat; lia. }
  destruct (outcome _) as [| [value |]]; simpl snd; try lia;
    destruct (attempt =? 0)%nat; apply Hrec; reflexivity.
Qed.

(** X8: [safe_measure] sends nothing but its two queries, at most four
    calls in all, and takes nothing back from the environment.  After a
    call that wrote the cache, a call made less than
    [measurement_interval] after its return gives the same pair, sends
    nothing and changes nothing.  A call that polled and left the
    controller as it was does not start that interval: the next call
    polls again, whenever it comes. *)
Theorem safe_measure_rate_limit (c : Controller) (e later : Env) :
  punctual e ->
  let r := safe_measure c e in
  extends measurement_query no_row e (snd r)
  /\ (calls (snd r) <= calls e + 4)%nat
  /\ (snd (fst r) <> c ->
      clock later - clock (snd r) < measurement_interval c ->
      safe_measure (snd (fst r)) later = (fst (fst r), snd (fst r), later))
  /\ (instrument c = true ->
      measurement_interval c <= clock e - last_measurement_time c ->
      snd (fst r) = c ->
      clock e <= clock later ->
      (calls later < calls (snd (safe_measure (snd (fst r)) later)))%nat).
Proof.
  intros Hp r. destruct (extends_safe_measure no_row c e Hp) as [Hx Hn].
  split; [exact Hx |]. split; [exact Hn |]. split.
  - intros Hneq Hsoon. subst r.
    pose proof (safe_measure_frame c e) as Hframe. cbv zeta in Hframe.
    destruct (safe_measure c e) as [[measured c'] e'] eqn:Hm.
    simpl in *.
    destruct (safe_measure_cases c e measured c' e' Hm)
      as [[Hsame _] | (Hi & _ & v & i & e1 & _ & _ & _ & _ & _ & Hval & Hcache & Hlast)];
      [contradiction |].
    destruct Hframe as [Hsame | (v' & i' & t & Hc')]; [contradiction |].
    unfold cache in Hcache. inversion Hcache as [[Hv Hcur Hs]].
    unfold safe_measure.
    assert (Hi' : instrument c' = true) by (rewrite Hc'; exact Hi).
    assert (Hint : measurement_interval c' = measurement_interval c)
      by (rewrite Hc'; reflexivity).
    rewrite Hi'. simpl negb. cbv iota.
    rewrite Rltb_true by (rewrite Hlast, Hint; exact Hsoon).
    rewrite Hv, Hcur, Hval. reflexivity.
  - intros Hi Hdue Hsame Hlater. rewrite Hsame.
    unfold safe_measure. rewrite Hi. simpl negb. cbv iota.
    rewrite Rltb_false by lra.
    pose proof (measure_attempts_calls (Scpi ":MEAS:VOLT?")
                  VoltageMeasurementRetry VoltageMeasurementFailed 2 0 later) as H1.
    fold (poll_voltage later) in H1.
    destruct (poll_voltage later) as [voltage e1]. simpl in H1.
    destruct (Rltb 5 _); [simpl; lia |].
    pose proof (measure_attempts_calls (Scpi ":MEAS:CURR?")
                  CurrentMeasurementRetry CurrentMeasurementFailed 2 0 e1) as H2.
    fold (poll_current e1) in H2.
    destruct (poll_current e1) as [current e2]. simpl in H2.
    destruct voltage as [voltage |]; destruct current as [current |];
      try (simpl; lia).
    destruct (_ && _)%bool; simpl; lia.
Qed.

Lemma safe_measure_rate_limit_witness :
  safe_measure
    (snd (fst (safe_measure connected (env_at 100 steady_device))))
    (env_at 101 steady_device)
  = (fst (fst (safe_measure connected (env_at 100 steady_device))),
     snd (fst (safe_measure connected (env_at 100 steady_device))),
     env_at 101 steady_device).
Proof.
  assert (Hp : punctual (env_at 100 steady_device)).
  { intros n. simpl. destruct n; simpl; lra. }
  apply (proj1 (proj2 (proj2 (safe_measure_rate_limit connected
                                (env_at 100 steady_device)
                                (env_at 101 steady_device) Hp)))).
  - rewrite steady_measure. simpl. intros H.
    apply (f_equal last_valid_voltage) in H. simpl in H. lra.
  - rewrite steady_measure. simpl. lra.
Defined.

(** ** What a run does to the environment and to the controller *)

Lemma setpoint_is_run_command (c : Controller) (current_value : R)
    (command : Command) :
  0 <= current_value <= max_current c ->
  setpoint_command current_value command -> run_command c command.
Proof.
  intros H [-> | [-> | ->]]; simpl; auto.
Qed.

Lemma measurement_is_run_command (c : Controller) (command : Command) :
  measurement_query command -> run_command c command.
Proof. intros [-> | ->]; simpl; auto 8. Qed.

Lemma extends_safe_set_current (L : LogRow -> Prop) (c : Controller)
    (current_value : R) (e : Env) :
  punctual e ->
  0 <= current_value <= max_current c ->
  extends (run_command c) L e (snd (safe_set_current current_value c e)).
Proof.
  intros Hp Hv. unfold safe_set_current.
  destruct (negb _); [apply extends_refl |].
  eapply extends_sub;
    [intros command; apply setpoint_is_run_command, Hv |].
  apply (extends_safe_set_current_loop L current_value 5 0 e Hp).
Qed.

Lemma run_command_frame (c c' : Controller) :
  max_current c' = max_current c ->
  forall command, run_command c command -> run_command c' command.
Proof. intros H [text | v]; simpl; [auto | now rewrite H]. Qed.

Lemma extends_load_control (L : LogRow -> Prop) (avg_current : R)
    (c : Controller) (e : Env) :
  punctual e ->
  0 <= avg_current <= max_current c ->
  extends (run_command c) L e (snd (load_control avg_current c e)).
Proof.
  intros Hp Hv. unfold load_control.
  destruct (Rltb 0.001 avg_current).
  - pose proof (extends_safe_set_current L c avg_current e Hp Hv) as H1.
    destruct (safe_set_current avg_current c e) as [success e1]. simpl in H1.
    set (e2 := if success then e1 else log_message FailedToSetCurrentLevel e1).
    assert (H2 : extends (run_command c) L e e2).
    { unfold e2. destruct success; [exact H1 |].
      eapply extends_trans; [exact H1 | apply extends_log_message]. }
    clearbody e2.
    destruct ((current_row c =? 0)%nat && success)%bool; [| exact H2].
    assert (H3 : extends (run_command c) L e (time_sleep 0.2 e2)).
    { eapply extends_trans; [exact H2 | apply extends_time_sleep; lra]. }
    pose proof (extends_safe_write (run_command c) L (Scpi ":SOUR:INP ON") c
                  (time_sleep 0.2 e2)) as H4.
    destruct (safe_write (Scpi ":SOUR:INP ON") c (time_sleep 0.2 e2))
      as [[load_success c3] e3].
    simpl in H4.
    assert (H5 : extends (run_command c) L e e3).
    { eapply extends_trans; [exact H3 |]. apply H4.
      - eapply extends_punctual; eassumption.
      - simpl. auto. }
    destruct load_success; simpl; [exact H5 |].
    eapply extends_trans; [exact H5 | apply extends_log_message].
  - assert (H0 : 0 <= 0 <= max_current c) by lra.
    pose proof (extends_safe_set_current L c 0 e Hp H0) as H1.
    destruct (safe_set_current 0 c e) as [success e1]. simpl in *.
    destruct success; [exact H1 |].
    eapply extends_trans; [exact H1 | apply extends_log_message].
Qed.

Lemma extends_check_voltage_cutoff (P : Command -> Prop) (L : LogRow -> Prop)
    (voltage : R)
    (c : Controller) (e : Env) :
  extends P L e (snd (check_voltage_cutoff voltage c e)).
Proof.
  unfold check_voltage_cutoff.
  destruct (last_measurement_success_time c); [| apply extends_refl].
  destruct (Rleb _ _).
  - destruct (Rleb voltage _).
    + destruct (voltage_below_cutoff_time c).
      * destruct (Rleb _ _); simpl;
          [apply extends_log_message | apply extends_refl].
      * apply extends_log_message.
    + simpl. destruct (voltage_below_cutoff_time c);
        [apply extends_log_message | apply extends_refl].
  - destruct (Rltb _ _); [| apply extends_refl].
    destruct (voltage_below_cutoff_time c);
      [apply extends_log_message | apply extends_refl].
Qed.

Lemma configuration_last_command_time (t : R) (c : Controller) :
  configuration (set_last_command_time t c) = configuration c.
Proof. reflexivity. Qed.

Lemma configuration_fields (c c' : Controller) :
  configuration c' = configuration c ->
  instrument c' = instrument c /\ max_retries c' = max_retries c
  /\ test_data c' = test_data c /\ max_current c' = max_current c
  /\ min_current c' = min_current c /\ start_time c' = start_time c
  /\ interpolation_method c' = interpolation_method c.
Proof.
  unfold configuration. intros H. inversion H. repeat split; assumption.
Qed.

Lemma safe_measure_plausible (c : Controller) (e : Env) :
  plausible_cache c ->
  let r := safe_measure c e in
  plausible_cache (snd (fst r))
  /\ 0 <= fst (fst (fst r)) <= 50 /\ 0 <= snd (fst (fst r)) <= 50.
Proof.
  intros Hc r. subst r.
  destruct (safe_measure c e) as [[measured c'] e'] eqn:Hm. simpl.
  destruct (safe_measure_cases c e measured c' e' Hm)
    as [[-> ->] | (_ & _ & v & i & e1 & _ & _ & _ & Hv & Hi & -> & Hcache & _)].
  - split; [exact Hc |]. exact Hc.
  - unfold cache in Hcache. inversion Hcache as [[E1 E2 E3]].
    unfold plausible_cache. rewrite E1, E2. simpl. repeat split; lra.
Qed.

Lemma interpolate_in_range (c : Controller) (w : list R) :
  min_current c <= 0 <= max_current c ->
  0 <= interpolate_current_window c w <= max_current c.
Proof.
  intros H.
  pose proof (interpolate_bounded c (interpolation_method c) w H) as Hb.
  now rewrite controller_method in Hb.
Qed.

(** One batch, from the controller and the environment it starts in. *)
Lemma batch_spec (total_rows : nat) (c : Controller) (e : Env) :
  min_current c <= 0 <= max_current c ->
  punctual e ->
  (current_row c < total_rows)%nat ->
  (current_row c mod 200 = 0)%nat ->
  let r := batch total_rows c e in
  let c' := snd (fst r) in
  let e' := snd r in
  extends (run_command c)
    (batch_row c total_rows (current_row c) (clock e) (clock e')) e e'
  /\ configuration c' = configuration c
  /\ current_row c' = current_row c
  /\ test_running c' = test_running c
  /\ 0 <= target_current c' <= max_current c
  /\ (plausible_cache c -> plausible_cache c')
  /\ (length (csv_log e') <= S (length (csv_log e)))%nat.
Proof.
  intros Hrange Hp Hrow Hmod. cbv zeta.
  pattern (batch total_rows c e).
  match goal with |- ?F _ => set (Q := F) end.
  rewrite batch_window. cbv zeta.
  pose proof (interpolate_in_range c (window total_rows c) Hrange) as Havg.
  fold (window_current total_rows c) in Havg.
  set (avg := window_current total_rows c) in *.
  set (c1 := set_target_current avg c).
  set (e0 := after_window_info total_rows c e).
  assert (Hstill : forall P L (x y : Env),
             extends P L x y -> csv_log y = csv_log x -> extends P no_row x y).
  { intros P L x y (D & S & T & W & C & _) Hl. repeat split; try assumption.
    exists []. split; [now rewrite app_nil_r | constructor]. }
  assert (H0 : extends (run_command c) no_row e e0).
  { unfold e0, after_window_info. destruct (_ =? _)%nat;
      [apply extends_log_message | apply extends_refl]. }
  assert (Hp0 : punctual e0) by (eapply extends_punctual; eassumption).
  pose proof (extends_load_control no_row avg c1 e0 Hp0 Havg) as H1.
  pose proof (load_control_frame avg c1 e0) as F1. cbv zeta in F1.
  destruct (load_control avg c1 e0) as [[stop c2] e2]. simpl in H1, F1.
  change (extends (run_command c) no_row e0 e2) in H1.
  assert (H02 : extends (run_command c) no_row e e2)
    by (eapply extends_trans; eassumption).
  assert (Hp2 : punctual e2) by (eapply extends_punctual; eassumption).
  assert (K2 : configuration c2 = configuration c /\ current_row c2 = current_row c
               /\ test_running c2 = test_running c /\ target_current c2 = avg
               /\ (plausible_cache c -> plausible_cache c2)).
  { destruct F1 as [-> | [t ->]];
      (split; [reflexivity |]); (split; [reflexivity |]);
      (split; [reflexivity |]); (split; [reflexivity |]);
      intros Hpc; exact Hpc. }
  destruct K2 as (Kc2 & Kr2 & Kt2 & Ka2 & Kp2).
  assert (Hweak : forall L (x y : Env),
             extends (run_command c) no_row x y -> extends (run_command c) L x y).
  { intros L x y (D & S & T & W & C & rows & Hr & Hall). repeat split; try assumption.
    exists rows. split; [exact Hr |].
    eapply Forall_impl; [| exact Hall]. intros a []. }
  assert (Hlen : forall (x y : Env),
             extends (run_command c) no_row x y -> csv_log y = csv_log x).
  { intros x y (_ & _ & _ & _ & _ & rows & Hr & Hall).
    destruct rows as [| r rows]; [now rewrite app_nil_r in Hr |].
    inversion Hall as [| ? ? []]. }
  destruct stop.
  { subst Q. cbv beta. simpl fst. simpl snd.
    split; [apply Hweak, H02 |]. split; [exact Kc2 |]. split; [exact Kr2 |].
    split; [exact Kt2 |]. split; [rewrite Ka2; exact Havg |].
    split; [exact Kp2 |]. rewrite (Hlen e e2 H02). lia. }
  pose proof (extends_safe_measure no_row c2 e2 Hp2) as [H3 _].
  pose proof (safe_measure_frame c2 e2) as F3. cbv zeta in F3.
  pose proof (safe_measure_plausible c2 e2) as P3. cbv zeta in P3.
  destruct (safe_measure c2 e2) as [[[voltage current] c3] e3].
  simpl in H3, F3, P3.
  assert (Kp3 : plausible_cache c -> plausible_cache c3)
    by (intros Hpc; apply P3, Kp2, Hpc).
  assert (Pvi : plausible_cache c -> 0 <= voltage <= 50 /\ 0 <= current <= 50)
    by (intros Hpc; apply P3, Kp2, Hpc).
  assert (H3' : extends (run_command c) no_row e2 e3).
  { eapply extends_sub; [apply measurement_is_run_command | exact H3]. }
  assert (H03 : extends (run_command c) no_row e e3)
    by (eapply extends_trans; eassumption).
  assert (K3 : configuration c3 = configuration c /\ current_row c3 = current_row c
               /\ test_running c3 = test_running c /\ target_current c3 = avg).
  { destruct F3 as [-> | (v & i & t & ->)]; repeat split; assumption. }
  destruct K3 as (Kc3 & Kr3 & Kt3 & Ka3).
  destruct (start_time c3) as [started |] eqn:Hst.
  2: { subst Q. cbv beta. simpl fst. simpl snd.
       split; [apply Hweak, H03 |]. split; [exact Kc3 |]. split; [exact Kr3 |].
       split; [exact Kt3 |]. split; [rewrite Ka3; exact Havg |].
       split; [exact Kp3 |]. rewrite (Hlen e e3 H03). lia. }
  set (row := mkLogRow (clock e3) (clock e3 - started) (current_row c3) avg
                voltage current).
  set (e4 := writerow row e3).
  pose proof (extends_check_voltage_cutoff (run_command c) no_row voltage c3 e4)
    as H5.
  pose proof (check_voltage_cutoff_frame voltage c3 e4) as F5. cbv zeta in F5.
  destruct (check_voltage_cutoff voltage c3 e4) as [[tripped c5] e5].
  simpl in H5, F5.
  assert (K5 : configuration c5 = configuration c /\ current_row c5 = current_row c
               /\ test_running c5 = test_running c /\ target_current c5 = avg
               /\ (plausible_cache c -> plausible_cache c5)).
  { destruct F5 as [-> | (b & ->)];
      (split; [exact Kc3 |]); (split; [exact Kr3 |]);
      (split; [exact Kt3 |]); (split; [exact Ka3 |]);
      intros Hpc; apply (Kp3 Hpc). }
  destruct K5 as (Kc5 & Kr5 & Kt5 & Ka5 & Kp5).
  assert (Hfinal : Q (if tripped then (Some CutoffBreak, c5, e5)
                      else (None, c5, e5))).
  { assert (E : forall x : option LoopExit,
               Q (x, c5, e5)).
    { intros x. subst Q. cbv beta. simpl fst. simpl snd.
      assert (T03 : clock e <= clock e3) by apply H03.
      assert (T45 : clock e4 <= clock e5) by apply H5.
      assert (T34 : clock e4 = clock e3) by reflexivity.
      assert (Hrowok : batch_row c total_rows (current_row c) (clock e)
                         (clock e5) row).
      { unfold batch_row, row. simpl. rewrite Kr3.
        split; [reflexivity |]. split; [exact Hmod |]. split; [exact Hrow |].
        split; [exact Havg |]. split; [exact Pvi |].
        split; [lra |].
        apply configuration_fields in Kc3. destruct Kc3 as (_ & _ & _ & _ & _ & Hs & _).
        rewrite <- Hs, Hst. f_equal. lra. }
      split.
      - eapply extends_trans; [apply Hweak, H03 |].
        eapply extends_trans; [apply extends_writerow, Hrowok |].
        apply Hweak, H5.
      - split; [exact Kc5 |]. split; [exact Kr5 |]. split; [exact Kt5 |].
        split; [rewrite Ka5; exact Havg |]. split; [exact Kp5 |].
        rewrite (Hlen e4 e5 H5). unfold e4. simpl csv_log.
        rewrite (Hlen e e3 H03), length_app. simpl. lia. }
    destruct tripped; apply E. }
  exact Hfinal.
Qed.

Lemma advance_keeps (total_rows : nat) (c1 : Controller) (e1 : Env) :
  let c3 := fst (advance total_rows c1 e1) in
  let e3 := snd (advance total_rows c1 e1) in
  (forall P, extends P no_row e1 e3)
  /\ configuration c3 = configuration c1
  /\ (plausible_cache c1 -> plausible_cache c3)
  /\ target_current c3 = target_current c1
  /\ csv_log e3 = csv_log e1
  /\ clock e3
     = clock e1 + (if ((current_row c1 + 1) mod 200 =? 0)%nat then 2 else 0).
Proof.
  unfold advance. cbv zeta.
  cbn [current_row set_current_row set_test_progress fst snd].
  split.
  { intros P.
    destruct ((current_row c1 + 1) mod 2000 =? 0)%nat;
      destruct ((current_row c1 + 1) mod 200 =? 0)%nat.
    - eapply extends_trans; [apply extends_log_message |].
      apply extends_time_sleep; lra.
    - apply extends_log_message.
    - apply extends_time_sleep; lra.
    - apply extends_refl. }
  split; [reflexivity |]. split; [intros H; exact H |].
  split; [reflexivity |].
  destruct ((current_row c1 + 1) mod 2000 =? 0)%nat;
    destruct ((current_row c1 + 1) mod 200 =? 0)%nat;
    split; try reflexivity; simpl; lra.
Qed.

Lemma div_200_step (n : nat) :
  ((n + 1) / 200 = n / 200 + (if ((n + 1) mod 200 =? 0) then 1 else 0))%nat.
Proof.
  pose proof (Nat.div_mod_eq n 200) as H1.
  pose proof (Nat.div_mod_eq (n + 1) 200) as H2.
  pose proof (Nat.mod_upper_bound n 200 ltac:(lia)) as B1.
  pose proof (Nat.mod_upper_bound (n + 1) 200 ltac:(lia)) as B2.
  destruct (Nat.eqb_spec ((n + 1) mod 200) 0) as [E | E]; nia.
Qed.

Lemma extends_rows (P : Command -> Prop) (L L' : LogRow -> Prop) (e e' : Env) :
  (forall r, L r -> L' r) -> extends P L e e' -> extends P L' e e'.
Proof.
  intros HL (D & S & T & W & C & rows & Hr & Hall).
  repeat split; try assumption.
  exists rows. split; [exact Hr |].
  eapply Forall_impl; [| exact Hall]. exact HL.
Qed.

Lemma batch_row_frame (c c' : Controller) (total_rows row : nat)
    (t0 t1 t0' t1' : R) (r : LogRow) :
  max_current c' = max_current c -> start_time c' = start_time c ->
  (plausible_cache c' -> plausible_cache c) ->
  t0' <= t0 -> t1 <= t1' ->
  batch_row c total_rows row t0 t1 r -> batch_row c' total_rows row t0' t1' r.
Proof.
  intros Hm Hs Hpl H0 H1 (A & B & C & D & E & F & G).
  unfold batch_row. rewrite Hm, Hs.
  split; [exact A |]. split; [exact B |]. split; [exact C |].
  split; [exact D |]. split; [intros Hpc; apply E, Hpl, Hpc |].
  split; [lra | exact G].
Qed.

Lemma batch_keeps_same (total_rows : nat) (c : Controller) (e : Env) :
  batch_keeps total_rows c e c e.
Proof.
  unfold batch_keeps.
  split; [apply extends_refl |]. split; [reflexivity |].
  split; [reflexivity |]. split; [reflexivity |]. split; [now left |].
  split; [intros Hpc; exact Hpc | lia].
Qed.

Lemma batch_keeps_batch (total_rows : nat) (c : Controller) (e : Env) :
  min_current c <= 0 <= max_current c ->
  punctual e ->
  (current_row c < total_rows)%nat ->
  (current_row c mod 200 = 0)%nat ->
  batch_keeps total_rows c e (snd (fst (batch total_rows c e)))
    (snd (batch total_rows c e)).
Proof.
  intros Hrange Hp Hrow Hmod.
  destruct (batch_spec total_rows c e Hrange Hp Hrow Hmod)
    as (H1 & H2 & H3 & H4 & H5 & H6 & H7).
  unfold batch_keeps.
  split; [exact H1 |]. split; [exact H2 |]. split; [exact H3 |].
  split; [exact H4 |]. split; [right; exact H5 |].
  split; [exact H6 | exact H7].
Qed.

Lemma loop_keeps_same (total_rows : nat) (c : Controller) (e : Env) :
  loop_keeps total_rows c e c e.
Proof.
  unfold loop_keeps.
  split; [apply extends_refl |]. split; [reflexivity |].
  split; [reflexivity |]. split; [lia |]. split; [lia |].
  split; [intros Hc; exact Hc |]. split; [now left |]. split; [lra |].
  intros rows Hr.
  rewrite <- (app_nil_r (csv_log e)) in Hr at 1.
  apply app_inv_head in Hr. subst rows. constructor.
Qed.

Lemma batch_rows (total_rows : nat) (c : Controller) (e : Env)
    (c1 : Controller) (e1 : Env) :
  batch_keeps total_rows c e c1 e1 ->
  exists rows,
    csv_log e1 = csv_log e ++ rows
    /\ (rows = [] \/ exists r, rows = [r] /\ log_row r = current_row c).
Proof.
  intros ((_ & _ & _ & _ & _ & rows & Hr & Hall) & _ & _ & _ & _ & _ & Hlen).
  exists rows. split; [exact Hr |].
  rewrite Hr, length_app in Hlen.
  destruct rows as [| r [| r' rows]]; [now left | right | simpl in Hlen; lia].
  exists r. split; [reflexivity |].
  inversion Hall as [| ? ? Hb _]. apply Hb.
Qed.

Lemma loop_keeps_leave (total_rows : nat) (c : Controller) (e : Env)
    (c1 : Controller) (e1 : Env) :
  (current_row c < total_rows)%nat ->
  batch_keeps total_rows c e c1 e1 -> loop_keeps total_rows c e c1 e1.
Proof.
  intros Hrow Hb. destruct (batch_rows _ _ _ _ _ Hb) as (rb & Hrb & Hone).
  destruct Hb as (Hx & Hcfg & Hr & Ht & Htc & Hpl & Hlen).
  unfold loop_keeps.
  split.
  { eapply extends_rows; [| exact Hx]. intros r Hbr.
    assert (E : log_row r = current_row c) by apply Hbr.
    split; [lia |]. now rewrite E. }
  split; [exact Hcfg |]. split; [exact Ht |]. split; [lia |].
  split; [lia |]. split; [exact Hpl |]. split; [exact Htc |].
  split.
  { rewrite Hr. assert (clock e <= clock e1) by apply Hx. lra. }
  intros rows Hrows. rewrite Hrb in Hrows. apply app_inv_head in Hrows.
  subst rows. destruct Hone as [-> | (r & -> & _)]; repeat constructor.
Qed.

Lemma loop_keeps_pass (total_rows : nat) (c : Controller) (e : Env)
    (c1 : Controller) (e1 : Env) (c' : Controller) (e' : Env) :
  (current_row c < total_rows)%nat ->
  batch_keeps total_rows c e c1 e1 ->
  loop_keeps total_rows (fst (advance total_rows c1 e1))
    (snd (advance total_rows c1 e1)) c' e' ->
  loop_keeps total_rows c e c' e'.
Proof.
  intros Hrow Hb Hl. destruct (batch_rows _ _ _ _ _ Hb) as (rb & Hrb & Hone).
  destruct Hb as (Hx & Hcfg & Hr & Ht & Htc & Hpl & Hlen).
  destruct (advance_keeps total_rows c1 e1)
    as (Ax & Acfg & Apl & Atc & Acsv & Aclk).
  destruct (advance_spec total_rows c1 e1) as (Arow & Arun & _).
  cbv zeta in Ax, Acfg, Apl, Atc, Acsv, Aclk.
  set (c3 := fst (advance total_rows c1 e1)) in *.
  set (e3 := snd (advance total_rows c1 e1)) in *.
  destruct Hl as (Lx & Lcfg & Lt & Lr1 & Lr2 & Lpl & Ltc & Lclk & Lsort).
  assert (Hcfg3 : configuration c3 = configuration c) by congruence.
  destruct (configuration_fields c c3 Hcfg3)
    as (_ & _ & _ & Hmax & _ & Hst & _).
  assert (T1 : clock e <= clock e1) by apply Hx.
  assert (T3 : clock e1 <= clock e3) by apply (Ax (run_command c)).
  assert (T' : clock e3 <= clock e') by apply Lx.
  unfold loop_keeps.
  split.
  { eapply extends_trans.
    - eapply extends_rows; [| exact Hx]. intros r Hbr.
      assert (E : log_row r = current_row c) by apply Hbr.
      split; [lia |]. rewrite E.
      eapply batch_row_frame;
        [reflexivity | reflexivity | intros Hpc; exact Hpc | | | exact Hbr]; lra.
    - eapply extends_trans.
      + eapply extends_rows; [| apply (Ax (run_command c))]. intros r [].
      + eapply extends_rows;
          [| eapply extends_sub; [apply (run_command_frame c3 c); congruence |
                                  exact Lx]].
        intros r [Hge Hbr]. split; [lia |].
        eapply batch_row_frame; [| | | | | exact Hbr]; try congruence; try lra.
        intros Hpc. apply Apl, Hpl, Hpc. }
  split; [congruence |]. split; [congruence |]. split; [lia |].
  split; [lia |]. split; [intros Hpc; apply Lpl, Apl, Hpl, Hpc |].
  split.
  { destruct Ltc as [Ltc | Ltc]; [| right; now rewrite <- Hmax].
    rewrite Ltc, Atc. exact Htc. }
  split.
  { rewrite Arow, Hr, div_200_step, plus_INR in Lclk.
    rewrite Hr in Aclk.
    destruct ((current_row c + 1) mod 200 =? 0)%nat;
      [change (INR 1) with 1 in Lclk | change (INR 0) with 0 in Lclk]; lra. }
  intros rows Hrows.
  destruct Lx as (_ & _ & _ & _ & _ & rr & Hrr & Hall).
  rewrite Hrr, Acsv, Hrb, <- app_assoc in Hrows.
  apply app_inv_head in Hrows. subst rows.
  specialize (Lsort rr Hrr).
  destruct Hone as [-> | (r & -> & Er)]; [exact Lsort |].
  simpl. constructor; [exact Lsort |].
  eapply Forall_impl; [| exact Hall]. intros b [Hge _]. lia.
Qed.

Lemma test_loop_while_keeps (total_rows fuel : nat) :
  forall c e,
    min_current c <= 0 <= max_current c ->
    punctual e ->
    loop_keeps total_rows c e
      (snd (fst (test_loop_while fuel total_rows c e)))
      (snd (test_loop_while fuel total_rows c e)).
Proof.
  induction fuel as [| fuel IH]; intros c e Hrange Hp;
    [now apply loop_keeps_same |].
  rewrite test_loop_while_pass.
  destruct (while_condition total_rows c e) eqn:Hw; simpl negb; cbv iota;
    [| now apply loop_keeps_same].
  destruct (stop_event_is_set e); [now apply loop_keeps_same |].
  assert (Hrow : (current_row c < total_rows)%nat).
  { unfold while_condition in Hw. apply andb_prop in Hw.
    destruct Hw as [_ Hw]. now apply Nat.ltb_lt in Hw. }
  assert (Hb : batch_keeps total_rows c e
            (snd (fst (if (current_row c mod 200 =? 0)%nat
                       then batch total_rows c e else (None, c, e))))
            (snd (if (current_row c mod 200 =? 0)%nat
                  then batch total_rows c e else (None, c, e)))).
  { destruct (Nat.eqb_spec (current_row c mod 200) 0) as [Hmod | _].
    - now apply batch_keeps_batch.
    - now apply batch_keeps_same. }
  destruct (if (current_row c mod 200 =? 0)%nat
            then batch total_rows c e else (None, c, e))
    as [[leave c1] e1].
  simpl in Hb.
  destruct leave as [x |]; [now apply loop_keeps_leave |].
  destruct (advance total_rows c1 e1) as [c3 e3] eqn:Ha.
  apply loop_keeps_pass with c1 e1; [exact Hrow | exact Hb |].
  rewrite Ha. simpl fst. simpl snd.
  destruct (advance_keeps total_rows c1 e1) as (Ax & Acfg & _).
  rewrite Ha in Ax, Acfg. simpl in Ax, Acfg.
  destruct Hb as (Hx & Hcfg & _).
  assert (Hcfg3 : configuration c3 = configuration c) by congruence.
  destruct (configuration_fields c c3 Hcfg3)
    as (_ & _ & _ & Hmax & Hmin & _ & _).
  apply IH.
  - rewrite Hmax, Hmin. exact Hrange.
  - eapply extends_punctual; [apply (Ax (run_command c)) |].
    eapply extends_punctual; eassumption.
Qed.

(** ** The end of a run *)

Lemma same_but_command_time_refl (c : Controller) : same_but_command_time c c.
Proof. now left. Qed.

Lemma same_but_command_time_trans (c1 c2 c3 : Controller) :
  same_but_command_time c1 c2 -> same_but_command_time c2 c3 ->
  same_but_command_time c1 c3.
Proof.
  intros [-> | [t ->]] [-> | [t' ->]]; try (now left); right;
    [now exists t' | now exists t | now exists t'].
Qed.

Lemma last_command_snoc (e : Env) (sent : list (R * Command)) (command : Command)
    (earlier : list (R * Command)) :
  wire e = earlier ++ sent -> sent <> [] ->
  Forall (fun s => snd s = command) sent ->
  last_command e = Some command.
Proof.
  intros Hw Hne Hall. unfold last_command. rewrite Hw, rev_app_distr.
  destruct (exists_last Hne) as (front & [t x] & ->).
  rewrite rev_app_distr. simpl.
  apply Forall_app in Hall. destruct Hall as [_ Hall].
  inversion Hall as [| ? ? Hx _]. simpl in Hx. now subst x.
Qed.

Lemma safe_write_keeps (command : Command) (c : Controller) (e : Env) :
  punctual e ->
  let r := safe_write command c e in
  extends (eq command) no_row e (snd r)
  /\ same_but_command_time c (snd (fst r))
  /\ (instrument c = true -> (1 <= max_retries c)%nat ->
      last_command (snd r) = Some command).
Proof.
  intros Hp r. subst r.
  split; [now apply extends_safe_write |].
  split; [apply safe_write_frame |].
  intros Hi Hn.
  unfold safe_write. rewrite Hi. simpl negb. cbv iota.
  destruct (safe_write_loop_trace command c (max_retries c) 0 e ltac:(lia))
    as (sent & [W C] & Hall & _ & _ & Hres).
  apply last_command_snoc with sent (wire e); [exact W | | exact Hall].
  intros ->. simpl in Hres.
  destruct (fst (fst (safe_write_loop (max_retries c) 0 command c e)));
    destruct Hres as [Hlen _]; lia.
Qed.

Lemma ensure_load_off_keeps (c : Controller) (e : Env) :
  punctual e ->
  let r := ensure_load_off c e in
  extends (eq disable) no_row e (snd r)
  /\ same_but_command_time c (fst r)
  /\ (instrument c = true -> (1 <= max_retries c)%nat ->
      last_command (snd r) = Some disable).
Proof.
  intros Hp r. subst r. unfold ensure_load_off.
  destruct (instrument c) eqn:Hi.
  - destruct (safe_write_keeps (Scpi ":SOUR:INP OFF") c e Hp) as (H1 & H2 & H3).
    destruct (safe_write (Scpi ":SOUR:INP OFF") c e) as [[ok c1] e1].
    simpl in *. split; [| split; [exact H2 |]].
    + eapply extends_trans; [exact H1 | apply extends_time_sleep; lra].
    + intros _ Hn. specialize (H3 Hi Hn). exact H3.
  - simpl. split; [apply extends_refl |].
    split; [apply same_but_command_time_refl | discriminate].
Qed.

Lemma test_loop_epilogue (c : Controller) (e : Env) :
  let w := test_loop_while (length (test_data c) - current_row c)
             (length (test_data c)) c e in
  let r := test_loop c e in
  punctual (snd w) ->
  extends (eq disable) no_row (snd w) (snd r)
  /\ same_but_command_time (set_test_running false (snd (fst w))) (snd (fst r))
  /\ (instrument (snd (fst w)) = true ->
      (1 <= max_retries (snd (fst w)))%nat ->
      last_command (snd r) = Some disable).
Proof.
  cbv zeta. unfold test_loop. cbv zeta.
  destruct (test_loop_while _ _ c e) as [[leave c1] e1].
  simpl fst. simpl snd. intros Hp.
  set (c2 := set_test_running false c1).
  assert (Hend :
    let '(_, c3, e3) := safe_write (Scpi ":SOUR:INP OFF") c2 e1 in
    let r := ensure_load_off c3
               (if (length (test_data c) <=? current_row c3)%nat
                then log_message TestCompleted (time_sleep 0.2 e3)
                else log_message TestStopped (time_sleep 0.2 e3)) in
    extends (eq disable) no_row e1 (snd r)
    /\ same_but_command_time c2 (fst r)
    /\ (instrument c1 = true -> (1 <= max_retries c1)%nat ->
        last_command (snd r) = Some disable)).
  { destruct (safe_write_keeps (Scpi ":SOUR:INP OFF") c2 e1 Hp) as (H1 & H2 & _).
    destruct (safe_write (Scpi ":SOUR:INP OFF") c2 e1) as [[ok c3] e3].
    simpl in H1, H2. cbv zeta.
    set (e5 := if (length (test_data c) <=? current_row c3)%nat
               then log_message TestCompleted (time_sleep 0.2 e3)
               else log_message TestStopped (time_sleep 0.2 e3)).
    assert (H5 : extends (eq disable) no_row e1 e5).
    { eapply extends_trans; [exact H1 |].
      apply extends_trans with (time_sleep 0.2 e3);
        [apply extends_time_sleep; lra |].
      unfold e5. destruct (_ <=? _)%nat; apply extends_log_message. }
    destruct (ensure_load_off_keeps c3 e5) as (H6 & H7 & H8);
      [eapply extends_punctual; eassumption |].
    split; [eapply extends_trans; eassumption |].
    split; [eapply same_but_command_time_trans; eassumption |].
    intros Hi Hn. apply H8.
    - destruct H2 as [-> | [t ->]]; exact Hi.
    - destruct H2 as [-> | [t ->]]; exact Hn. }
  assert (Hexc :
    let r := ensure_load_off c2 (log_message TestLoopError e1) in
    extends (eq disable) no_row e1 (snd r)
    /\ same_but_command_time c2 (fst r)
    /\ (instrument c1 = true -> (1 <= max_retries c1)%nat ->
        last_command (snd r) = Some disable)).
  { cbv zeta.
    destruct (ensure_load_off_keeps c2 (log_message TestLoopError e1))
      as (H6 & H7 & H8);
      [apply (extends_punctual (eq disable) no_row e1);
       [apply extends_log_message | exact Hp] |].
    split; [| split; [exact H7 | exact H8]].
    eapply extends_trans; [apply extends_log_message | exact H6]. }
  destruct leave;
    try (destruct (safe_write (Scpi ":SOUR:INP OFF") c2 e1) as [[ok c3] e3];
         cbv zeta in Hend;
         destruct (ensure_load_off c3 _) as [c6 e6]; exact Hend).
  cbv zeta in Hexc.
  destruct (ensure_load_off c2 (log_message TestLoopError e1)) as [c3 e3].
  exact Hexc.
Qed.

Lemma no_row_same_csv (P : Command -> Prop) (e e' : Env) :
  extends P no_row e e' -> csv_log e' = csv_log e.
Proof.
  intros (_ & _ & _ & _ & _ & rows & Hr & Hall).
  destruct rows as [| r rows]; [now rewrite app_nil_r in Hr |].
  inversion Hall as [| ? ? []].
Qed.

Lemma disable_is_run_command (c : Controller) (command : Command) :
  disable = command -> run_command c command.
Proof. intros <-. simpl. auto. Qed.

(** A whole run, from the controller and the environment [test_loop]
    starts in to those it returns. *)
Lemma test_loop_keeps (c : Controller) (e : Env) :
  min_current c <= 0 <= max_current c ->
  punctual e ->
  let r := test_loop c e in
  loop_keeps (length (test_data c)) c e
    (set_test_running (test_running c) (snd (fst r))) (snd r)
  /\ test_running (snd (fst r)) = false
  /\ (instrument c = true -> (1 <= max_retries c)%nat ->
      last_command (snd r) = Some disable).
Proof.
  intros Hrange Hp r. subst r.
  pose proof (test_loop_while_keeps (length (test_data c))
                (length (test_data c) - current_row c) c e Hrange Hp) as Hl.
  pose proof (test_loop_epilogue c e) as He. cbv zeta in He.
  set (w := test_loop_while (length (test_data c) - current_row c)
              (length (test_data c)) c e) in *.
  destruct Hl as (Lx & Lcfg & Lt & Lr1 & Lr2 & Lpl & Ltc & Lclk & Lsort).
  destruct He as (Ex & Ec & Elast); [eapply extends_punctual; eassumption |].
  set (c1 := snd (fst w)) in *. set (e1 := snd w) in *.
  set (c' := snd (fst (test_loop c e))) in *.
  set (e' := snd (test_loop c e)) in *.
  assert (T : clock e1 <= clock e') by apply Ex.
  assert (Hcsv : csv_log e' = csv_log e1) by (eapply no_row_same_csv; exact Ex).
  destruct (configuration_fields c c1 Lcfg) as (Hi & Hn & _).
  assert (Hc' : test_running c' = false
                /\ set_test_running (test_running c) c'
                   = set_test_running (test_running c) c1
                   \/ test_running c' = false
                      /\ exists t, set_test_running (test_running c) c'
                                   = set_last_command_time t
                                       (set_test_running (test_running c) c1)).
  { destruct Ec as [-> | [t ->]]; [left | right]; split; try reflexivity.
    now exists t. }
  assert (Hfields : test_running c' = false
            /\ configuration (set_test_running (test_running c) c')
               = configuration c1
            /\ current_row (set_test_running (test_running c) c')
               = current_row c1
            /\ target_current (set_test_running (test_running c) c')
               = target_current c1
            /\ (plausible_cache c1 ->
                plausible_cache (set_test_running (test_running c) c'))).
  { destruct Hc' as [[H1 ->] | [H1 [t ->]]];
      (split; [exact H1 |]); (split; [reflexivity |]);
      (split; [reflexivity |]); (split; [reflexivity |]);
      intros Hpc; exact Hpc. }
  destruct Hfields as (F1 & F2 & F3 & F4 & F5).
  split; [| split; [exact F1 |]].
  - unfold loop_keeps.
    split.
    { eapply extends_trans.
      - eapply extends_rows; [| exact Lx]. intros r [Hge Hb]. split; [exact Hge |].
        eapply batch_row_frame;
          [reflexivity | reflexivity | intros Hpc; exact Hpc | | | exact Hb];
          lra.
      - eapply extends_rows; [| eapply extends_sub;
                                [apply disable_is_run_command | exact Ex]].
        intros r []. }
    split; [congruence |]. split; [reflexivity |].
    split; [rewrite F3; exact Lr1 |]. split; [rewrite F3; exact Lr2 |].
    split; [intros Hpc; apply F5, Lpl, Hpc |].
    split; [rewrite F4; exact Ltc |].
    split; [rewrite F3; lra |].
    intros rows Hrows. apply Lsort. now rewrite <- Hcsv.
  - intros Hic Hnc. apply Elast; congruence.
Qed.

Lemma punctual_steady (now : R) : punctual (env_at now steady_device).
Proof. intros [| n]; simpl; lra. Qed.

Lemma punctual_unwilling (now : R) : punctual (env_at now unwilling_device).
Proof.
  intros n. simpl. destruct n as [| [| n]]; simpl; lra.
Qed.

Lemma one_row_run_ready :
  (min_current one_row_run <= 0 <= max_current one_row_run)
  /\ plausible_cache one_row_run.
Proof. unfold plausible_cache. simpl. lra. Qed.

(** X9: whatever the instrument does, a run of [test_loop] with a range
    that contains 0 puts on the wire only the fixed commands of
    [safe_set_current] and [safe_measure], the output switch, and set
    points between 0 and [max_current]; and it takes nothing back: the
    device and the stop instant are as before, the clock has not gone
    back, and the wire, the console and the CSV log have only grown. *)
Theorem run_sends_only_run_commands (c : Controller) (e : Env) :
  min_current c <= 0 <= max_current c ->
  punctual e ->
  extends (run_command c) any_row e (snd (test_loop c e)).
Proof.
  intros Hrange Hp.
  destruct (test_loop_keeps c e Hrange Hp) as ((Hx & _) & _).
  eapply extends_rows; [| exact Hx]. intros r _. exact I.
Qed.

Lemma run_sends_only_run_commands_witness :
  extends (run_command one_row_run) any_row one_row_env
    (snd (test_loop one_row_run one_row_env)).
Proof.
  apply run_sends_only_run_commands.
  - simpl. lra.
  - apply punctual_unwilling.
Defined.

(** X10: a run always ends by switching the load off: with an open
    instrument and at least one retry allowed, the last command
    [test_loop] leaves on the wire is ":SOUR:INP OFF", however the loop
    was left, and [test_running] is false. *)
Theorem run_ends_with_load_off (c : Controller) (e : Env) :
  min_current c <= 0 <= max_current c ->
  punctual e ->
  instrument c = true ->
  (1 <= max_retries c)%nat ->
  last_command (snd (test_loop c e)) = Some disable
  /\ test_running (snd (fst (test_loop c e))) = false.
Proof.
  intros Hrange Hp Hi Hn.
  destruct (test_loop_keeps c e Hrange Hp) as (_ & Ht & Hlast).
  split; [now apply Hlast | exact Ht].
Qed.

Lemma run_ends_with_load_off_witness :
  last_command (snd (test_loop one_row_run one_row_env)) = Some disable
  /\ test_running (snd (fst (test_loop one_row_run one_row_env))) = false.
Proof.
  apply run_ends_with_load_off.
  - simpl. lra.
  - apply punctual_unwilling.
  - reflexivity.
  - simpl. lia.
Defined.

(** ** A run that gets to its second window *)

(** A batch of a run that has a start time either leaves at the output
    switch, which takes row 0 and a current above 1 mA, or writes one
    row; and it goes on to the next row when no countdown is pending. *)
Lemma batch_logs (total_rows : nat) (c : Controller) (e : Env) (started : R) :
  min_current c <= 0 <= max_current c ->
  punctual e ->
  start_time c = Some started ->
  let r := batch total_rows c e in
  (fst (fst r) = Some TurnOnBreak
   /\ current_row c = 0%nat /\ 0.001 < window_current total_rows c)
  \/ ((exists row,
         csv_log (snd r) = csv_log e ++ [row] /\ log_row row = current_row c)
      /\ (voltage_below_cutoff_time c = None -> fst (fst r) = None)).
Proof.
  intros Hrange Hp Hstart. cbv zeta.
  pattern (batch total_rows c e).
  match goal with |- ?F _ => set (Q := F) end.
  rewrite batch_window. cbv zeta.
  pose proof (interpolate_in_range c (window total_rows c) Hrange) as Havg.
  fold (window_current total_rows c) in Havg.
  set (avg := window_current total_rows c) in *.
  set (c1 := set_target_current avg c).
  set (e0 := after_window_info total_rows c e).
  assert (H0 : extends (run_command c) no_row e e0).
  { unfold e0, after_window_info. destruct (_ =? _)%nat;
      [apply extends_log_message | apply extends_refl]. }
  assert (Hp0 : punctual e0) by (eapply extends_punctual; eassumption).
  pose proof (extends_load_control no_row avg c1 e0 Hp0 Havg) as H1.
  pose proof (load_control_frame avg c1 e0) as F1. cbv zeta in F1.
  pose proof (load_control_breaks avg c1 e0) as B1.
  destruct (load_control avg c1 e0) as [[stop c2] e2]. simpl in H1, F1, B1.
  change (extends (run_command c) no_row e0 e2) in H1.
  assert (H02 : extends (run_command c) no_row e e2)
    by (eapply extends_trans; eassumption).
  assert (Hp2 : punctual e2) by (eapply extends_punctual; eassumption).
  destruct stop.
  { subst Q. cbv beta. left. destruct (B1 eq_refl) as (Hrow & Hlt & _).
    split; [reflexivity |]. split; assumption. }
  clear B1.
  assert (K2 : start_time c2 = Some started
               /\ current_row c2 = current_row c
               /\ voltage_below_cutoff_time c2 = voltage_below_cutoff_time c).
  { destruct F1 as [-> | [t ->]]; repeat split; assumption. }
  destruct K2 as (Ks2 & Kr2 & Kv2).
  pose proof (extends_safe_measure no_row c2 e2 Hp2) as [H3 _].
  pose proof (safe_measure_frame c2 e2) as F3. cbv zeta in F3.
  destruct (safe_measure c2 e2) as [[[voltage current] c3] e3].
  simpl in H3, F3.
  assert (K3 : start_time c3 = Some started
               /\ current_row c3 = current_row c
               /\ voltage_below_cutoff_time c3 = voltage_below_cutoff_time c).
  { destruct F3 as [-> | (v & i & t & ->)]; repeat split; assumption. }
  destruct K3 as (Ks3 & Kr3 & Kv3).
  rewrite Ks3.
  set (row := mkLogRow (clock e3) (clock e3 - started) (current_row c3) avg
                voltage current).
  set (e4 := writerow row e3).
  pose proof (extends_check_voltage_cutoff (run_command c) no_row voltage c3 e4)
    as H5.
  pose proof (check_voltage_cutoff_trips voltage c3 e4) as T5.
  destruct (check_voltage_cutoff voltage c3 e4) as [[tripped c5] e5].
  simpl in H5, T5.
  assert (Hcsv : csv_log e5 = csv_log e ++ [row]).
  { rewrite (no_row_same_csv _ _ _ H5). unfold e4. simpl csv_log.
    rewrite (no_row_same_csv _ _ _ H3), (no_row_same_csv _ _ _ H02).
    reflexivity. }
  subst Q. cbv beta. right. split.
  - exists row. destruct tripped; (split; [exact Hcsv | exact Kr3]).
  - intros Hnone. destruct tripped; [| reflexivity].
    destruct (T5 eq_refl) as (_ & _ & _ & _ & _ & since & Hs & _).
    rewrite Kv3, Hnone in Hs. discriminate Hs.
Qed.

(** Rows that are not at the head of a window go by without a call, a
    row in the log or a change of configuration. *)
Lemma idle_rows (total_rows n : nat) :
  forall fuel c e,
    test_running c = true ->
    stop_at e = None ->
    (forall j, (j < n)%nat -> ((current_row c + j) mod 200 <> 0)%nat) ->
    (current_row c + n <= total_rows)%nat ->
    (n <= fuel)%nat ->
    exists c' e',
      test_loop_while fuel total_rows c e
      = test_loop_while (fuel - n) total_rows c' e'
      /\ current_row c' = (current_row c + n)%nat
      /\ test_running c' = true
      /\ configuration c' = configuration c
      /\ extends (run_command c) no_row e e'.
Proof.
  induction n as [| n IH]; intros fuel c e Hrun Hstop Hidle Hrows Hfuel.
  { exists c, e. rewrite Nat.sub_0_r, Nat.add_0_r.
    split; [reflexivity |]. split; [reflexivity |]. split; [exact Hrun |].
    split; [reflexivity | apply extends_refl]. }
  destruct fuel as [| fuel]; [lia |].
  rewrite test_loop_while_pass.
  assert (Hset : stop_event_is_set e = false)
    by (unfold stop_event_is_set; now rewrite Hstop).
  assert (Hw : while_condition total_rows c e = true).
  { unfold while_condition. rewrite Hrun, Hset. simpl.
    apply Nat.ltb_lt. lia. }
  rewrite Hw, Hset. simpl negb. cbv iota.
  assert (Hmod : (current_row c mod 200 =? 0)%nat = false).
  { apply Nat.eqb_neq. specialize (Hidle 0%nat).
    rewrite Nat.add_0_r in Hidle. apply Hidle. lia. }
  rewrite Hmod.
  destruct (advance_spec total_rows c e) as (Arow & Arun & _ & _ & _ & _ & Astop).
  destruct (advance_keeps total_rows c e) as (Ax & Acfg & _).
  cbv zeta in Ax, Acfg.
  destruct (advance total_rows c e) as [c3 e3]. simpl in *.
  destruct (IH fuel c3 e3) as (c' & e' & E & Hrow & Hrun' & Hcfg & Hx).
  - now rewrite Arun.
  - now rewrite Astop.
  - intros j Hj. rewrite Arow.
    replace (current_row c + 1 + j)%nat with (current_row c + S j)%nat by lia.
    apply Hidle. lia.
  - rewrite Arow. lia.
  - lia.
  - exists c', e'. split; [exact E |]. split; [rewrite Hrow, Arow; lia |].
    split; [exact Hrun' |]. split; [now rewrite Hcfg |].
    eapply extends_trans; [apply Ax |].
    eapply extends_sub; [| exact Hx].
    intros command. unfold run_command.
    apply configuration_fields in Acfg.
    destruct Acfg as (_ & _ & _ & Hmax & _). now rewrite Hmax.
Qed.

(** The run on the late-current profile, on any device that answers in
    time and with no stop request: its first window asks for no
    current, so the run writes row 0 and walks to row 200. *)
Lemma late_current_reaches_row_200 (e : Env) :
  punctual e ->
  stop_at e = None ->
  exists r0 c200 e200,
    test_loop_while 201 201 late_current_run e
    = test_loop_while 1 201 c200 e200
    /\ current_row c200 = 200%nat
    /\ test_running c200 = true
    /\ configuration c200 = configuration late_current_run
    /\ punctual e200 /\ stop_at e200 = None
    /\ csv_log e200 = csv_log e ++ [r0] /\ log_row r0 = 0%nat.
Proof.
  intros Hp Hstop.
  assert (Hrange : min_current late_current_run <= 0
                   <= max_current late_current_run) by (simpl; lra).
  rewrite test_loop_while_pass.
  assert (Hset : stop_event_is_set e = false)
    by (unfold stop_event_is_set; now rewrite Hstop).
  assert (Hw : while_condition 201 late_current_run e = true)
    by (unfold while_condition; rewrite Hset; reflexivity).
  rewrite Hw, Hset. simpl negb. cbv iota.
  change (current_row late_current_run mod 200 =? 0)%nat with true. cbv iota.
  destruct (batch_logs 201 late_current_run e 100 Hrange Hp eq_refl)
    as [(_ & _ & Hlt) | ((r0 & Hcsv & Hr0) & Hgo)];
    [rewrite late_current_first_window in Hlt; lra |].
  specialize (Hgo eq_refl).
  destruct (batch_spec 201 late_current_run e Hrange Hp)
    as (Bx & Bcfg & Brow & Brun & _); [simpl; lia | reflexivity |].
  destruct (batch 201 late_current_run e) as [[leave c1] e1].
  simpl in Hcsv, Hgo, Bx, Bcfg, Brow, Brun. subst leave.
  destruct (advance_spec 201 c1 e1) as (Arow & Arun & _ & _ & _ & _ & Astop).
  destruct (advance_keeps 201 c1 e1) as (Ax & Acfg & _ & _ & Acsv & _).
  cbv zeta in Ax, Acfg, Acsv.
  destruct (advance 201 c1 e1) as [c3 e3]. simpl in Arow, Arun, Astop, Ax, Acfg, Acsv.
  assert (Hrow3 : current_row c3 = 1%nat) by (rewrite Arow, Brow; reflexivity).
  destruct (idle_rows 201 199 200 c3 e3) as (c' & e' & E & Hrow & Hrun & Hcfg & Hx).
  - now rewrite Arun, Brun.
  - rewrite Astop. destruct Bx as (_ & S & _). now rewrite S.
  - intros j Hj. rewrite Hrow3, Nat.mod_small; lia.
  - rewrite Hrow3. lia.
  - lia.
  - exists r0, c', e'. split; [exact E |].
    split; [rewrite Hrow, Hrow3; reflexivity |]. split; [exact Hrun |].
    split; [now rewrite Hcfg, Acfg |].
    assert (Hp1 : punctual e1) by (eapply extends_punctual; eassumption).
    assert (Hp3 : punctual e3) by (eapply extends_punctual; [apply (Ax (fun _ => True)) | exact Hp1]).
    split; [eapply extends_punctual; eassumption |].
    split.
    { destruct Hx as (_ & S & _). rewrite S, Astop.
      destruct Bx as (_ & S1 & _). now rewrite S1. }
    split; [| exact Hr0].
    rewrite (no_row_same_csv _ _ _ Hx), Acsv. exact Hcsv.
Qed.

(** The same run to its end: it gets at least to row 200, and it writes
    a row for each of its two windows. *)
Lemma late_current_two_rows (e : Env) :
  punctual e ->
  stop_at e = None ->
  let r := test_loop late_current_run e in
  (200 <= current_row (snd (fst r)))%nat
  /\ exists r0 r200,
       csv_log (snd r) = csv_log e ++ [r0; r200]
       /\ log_row r0 = 0%nat /\ log_row r200 = 200%nat.
Proof.
  intros Hp Hstop. cbv zeta.
  destruct (late_current_reaches_row_200 e Hp Hstop)
    as (r0 & c200 & e200 & E & Hrow & Hrun & Hcfg & Hp200 & Hstop200
        & Hcsv & Hr0).
  pose proof (test_loop_epilogue late_current_run e) as He. cbv zeta in He.
  change (length (test_data late_current_run)
          - current_row late_current_run)%nat with 201%nat in He.
  change (length (test_data late_current_run)) with 201%nat in He.
  rewrite E in He.
  assert (Hw : exists x cw ew,
             test_loop_while 1 201 c200 e200 = (x, cw, ew)
             /\ (200 <= current_row cw)%nat
             /\ punctual ew
             /\ exists r200, csv_log ew = csv_log e200 ++ [r200]
                             /\ log_row r200 = 200%nat).
  { rewrite test_loop_while_pass.
    assert (Hset : stop_event_is_set e200 = false)
      by (unfold stop_event_is_set; now rewrite Hstop200).
    assert (Hwc : while_condition 201 c200 e200 = true)
      by (unfold while_condition; rewrite Hrun, Hset, Hrow; reflexivity).
    rewrite Hwc, Hset, Hrow. simpl negb. cbv iota.
    change (200 mod 200 =? 0)%nat with true. cbv iota.
    apply configuration_fields in Hcfg.
    destruct Hcfg as (_ & _ & _ & Hmax & Hmin & Hst & _).
    assert (Hrange : min_current c200 <= 0 <= max_current c200)
      by (rewrite Hmax, Hmin; simpl; lra).
    destruct (batch_logs 201 c200 e200 100 Hrange Hp200 Hst)
      as [(_ & H0 & _) | ((r200 & Hcsv2 & Hr200) & _)]; [lia |].
    destruct (batch_spec 201 c200 e200 Hrange Hp200)
      as (Bx & _ & Brow & _); [lia | now rewrite Hrow |].
    destruct (batch 201 c200 e200) as [[leave c1] e1].
    simpl in Hcsv2, Bx, Brow.
    assert (Hp1 : punctual e1) by (eapply extends_punctual; eassumption).
    destruct leave as [x |].
    - exists x, c1, e1. split; [reflexivity |]. split; [lia |].
      split; [exact Hp1 |]. exists r200. split; [exact Hcsv2 | lia].
    - destruct (advance_spec 201 c1 e1) as (Arow & _).
      destruct (advance_keeps 201 c1 e1) as (Ax & _ & _ & _ & Acsv & _).
      cbv zeta in Ax, Acsv.
      destruct (advance 201 c1 e1) as [c3 e3]. simpl in Arow, Ax, Acsv.
      exists WhileConditionFalse, c3, e3. split; [reflexivity |].
      split; [lia |].
      split; [eapply extends_punctual; [apply (Ax (fun _ => True)) | exact Hp1] |].
      exists r200. split; [rewrite Acsv; exact Hcsv2 | lia]. }
  destruct Hw as (x & cw & ew & Ew & Hrw & Hpw & r200 & Hcw & Hr200).
  rewrite Ew in He. simpl in He.
  destruct (He Hpw) as (Ex & Hsame & _).
  split; [destruct Hsame as [-> | [t ->]]; exact Hrw |].
  exists r0, r200. split; [| split; assumption].
  rewrite (no_row_same_csv _ _ _ Ex), Hcw, Hcsv, <- app_assoc. reflexivity.
Qed.

(** X11: the rows a run adds to the CSV log come in ascending order of
    row number, at most one per window: each has a row number that is a
    multiple of 200, at or after the row the run started from and below
    the number of rows; its target current lies between 0 and
    [max_current]; its timestamp lies between the start and the end of
    the run and its elapsed time is counted from [start_time]; and, when
    the cache was plausible at the start, its measured voltage and
    current lie between 0 and 50. *)
Theorem run_log_rows (c : Controller) (e : Env) :
  min_current c <= 0 <= max_current c ->
  punctual e ->
  let e' := snd (test_loop c e) in
  exists rows,
    csv_log e' = csv_log e ++ rows
    /\ ascending rows
    /\ Forall (run_row c (length (test_data c)) e e') rows.
Proof.
  intros Hrange Hp e'. subst e'.
  destruct (test_loop_keeps c e Hrange Hp)
    as (((_ & _ & _ & _ & _ & rows & Hr & Hall) & Hrest) & _).
  exists rows. split; [exact Hr |]. split; [| exact Hall].
  apply Hrest. exact Hr.
Qed.

Lemma run_log_rows_witness :
  exists rows,
    csv_log (snd (test_loop late_current_run late_current_env))
    = csv_log late_current_env ++ rows
    /\ ascending rows
    /\ Forall (run_row late_current_run (length (test_data late_current_run))
                 late_current_env
                 (snd (test_loop late_current_run late_current_env))) rows
    /\ length rows = 2%nat.
Proof.
  destruct (run_log_rows late_current_run late_current_env)
    as (rows & H1 & H2 & H3).
  - simpl. lra.
  - apply punctual_steady.
  - exists rows. split; [exact H1 |]. split; [exact H2 |].
    split; [exact H3 |].
    destruct (late_current_two_rows late_current_env (punctual_steady 100)
                eq_refl) as (_ & r0 & r200 & Hcsv & _).
    rewrite Hcsv in H1. apply app_inv_head in H1. subst rows. reflexivity.
Defined.

(** X12: a run cannot go faster than the profile: between its start and
    its end the clock advances by at least 2 s for every multiple of 200
    that [current_row] has reached. *)
Theorem run_takes_two_seconds_per_window (c : Controller) (e : Env) :
  min_current c <= 0 <= max_current c ->
  punctual e ->
  let r := test_loop c e in
  2 * INR (current_row (snd (fst r)) / 200) - 2 * INR (current_row c / 200)
  <= clock (snd r) - clock e.
Proof.
  intros Hrange Hp r. subst r.
  destruct (test_loop_keeps c e Hrange Hp)
    as ((_ & _ & _ & _ & _ & _ & _ & Hclk & _) & _).
  exact Hclk.
Qed.

Lemma run_takes_two_seconds_per_window_witness :
  (200 <= current_row (snd (fst (test_loop late_current_run late_current_env))))%nat
  /\ 2 <= clock (snd (test_loop late_current_run late_current_env))
          - clock late_current_env.
Proof.
  destruct (late_current_two_rows late_current_env (punctual_steady 100)
              eq_refl) as (Hrow & _).
  split; [exact Hrow |].
  pose proof (run_takes_two_seconds_per_window late_current_run
                late_current_env) as H.
  cbv zeta in H.
  change (current_row late_current_run / 200)%nat with 0%nat in H.
  change (INR 0) with 0 in H.
  assert (Hq : (1 <= current_row
                      (snd (fst (test_loop late_current_run late_current_env)))
                    / 200)%nat)
    by (apply Nat.div_le_lower_bound; lia).
  apply le_INR in Hq. change (INR 1) with 1 in Hq.
  assert (Hrange : min_current late_current_run <= 0
                   <= max_current late_current_run) by (simpl; lra).
  specialize (H Hrange (punctual_steady 100)). lra.
Defined.

(** X13: a run leaves the configuration of the controller as it found
    it (instrument, intervals, retries, profile, method, cutoff, range,
    buffer, start time); [current_row] never goes back and never passes
    the number of rows; and a plausible cache stays plausible. *)
Theorem run_keeps_controller (c : Controller) (e : Env) :
  min_current c <= 0 <= max_current c ->
  punctual e ->
  let c' := snd (fst (test_loop c e)) in
  configuration c' = configuration c
  /\ (current_row c <= current_row c')%nat
  /\ (current_row c' <= Nat.max (length (test_data c)) (current_row c))%nat
  /\ (plausible_cache c -> plausible_cache c').
Proof.
  intros Hrange Hp c'. subst c'.
  destruct (test_loop_keeps c e Hrange Hp)
    as ((_ & Hcfg & _ & Hr1 & Hr2 & Hpl & _ & _) & _).
  split; [exact Hcfg |]. split; [exact Hr1 |]. split; [exact Hr2 |].
  exact Hpl.
Qed.

Lemma run_keeps_controller_witness :
  configuration (snd (fst (test_loop one_row_run one_row_env)))
  = configuration one_row_run.
Proof.
  apply run_keeps_controller.
  - simpl. lra.
  - apply punctual_unwilling.
Defined.

(** ** stop_test and emergency_stop *)

Lemma stop_event_set_is_set (e : Env) :
  stop_event_is_set (stop_event_set e) = true.
Proof.
  unfold stop_event_set. destruct (stop_event_is_set e) eqn:H; [exact H |].
  unfold stop_event_is_set. simpl. apply Rleb_true. lra.
Qed.

Lemma stop_event_stays_set (P : Command -> Prop) (L : LogRow -> Prop)
    (e e' : Env) :
  extends P L e e' -> stop_event_is_set e = true -> stop_event_is_set e' = true.
Proof.
  intros (_ & Hs & Ht & _). unfold stop_event_is_set. rewrite Hs.
  destruct (stop_at e) as [t |]; [| discriminate].
  intros H. apply Rleb_spec in H. apply Rleb_true. lra.
Qed.

Lemma switch_off_keeps (seconds : R) (c : Controller) (e : Env) :
  punctual e ->
  0 <= seconds ->
  let r := switch_off seconds c e in
  extends (eq disable) no_row e (snd r)
  /\ same_but_command_time c (fst r)
  /\ (instrument c = true -> (1 <= max_retries c)%nat ->
      last_command (snd r) = Some disable).
Proof.
  intros Hp Hs r. subst r. unfold switch_off.
  destruct (instrument c) eqn:Hi.
  - destruct (safe_write_keeps disable c e Hp) as (H1 & H2 & H3).
    destruct (safe_write disable c e) as [[ok c1] e1].
    simpl in *. split; [| split; [exact H2 |]].
    + eapply extends_trans; [exact H1 | apply extends_time_sleep; lra].
    + intros _ Hn. exact (H3 Hi Hn).
  - simpl. split; [apply extends_refl |].
    split; [apply same_but_command_time_refl | discriminate].
Qed.

Lemma loop_stopped (fuel total_rows : nat) (c : Controller) (e : Env) :
  test_running c = false \/ stop_event_is_set e = true ->
  test_loop_while fuel total_rows c e = (WhileConditionFalse, c, e).
Proof.
  intros H. destruct fuel as [| fuel]; [reflexivity |].
  rewrite test_loop_while_pass. unfold while_condition.
  destruct H as [-> | ->]; [reflexivity |].
  now rewrite andb_false_r.
Qed.

Lemma stop_test_keeps (s : Session) (e : Env) :
  punctual e ->
  let r := stop_test s e in
  test_running (controller (fst r)) = false
  /\ same_but_command_time
       (set_test_running false (controller s)) (controller (fst r))
  /\ is_connected (fst r) = is_connected s
  /\ rm (fst r) = rm s
  /\ test_data_loaded (fst r) = test_data_loaded s
  /\ (test_running (controller s) = false -> r = (s, e))
  /\ (test_running (controller s) = true ->
      extends (eq disable) no_row (stop_event_set e) (snd r)
      /\ stop_event_is_set (snd r) = true
      /\ (instrument (controller s) = true ->
          (1 <= max_retries (controller s))%nat ->
          last_command (snd r) = Some disable)).
Proof.
  intros Hp r. subst r. unfold stop_test.
  destruct (test_running (controller s)) eqn:Hr; simpl negb; cbv iota.
  - cbv zeta.
    assert (Hp1 : punctual (stop_event_set e)).
    { unfold stop_event_set. destruct (stop_event_is_set e); exact Hp. }
    destruct (switch_off_keeps 0.2
                (set_test_running false (controller (notice StoppingTest s)))
                (stop_event_set e) Hp1 ltac:(lra)) as (H1 & H2 & H3).
    destruct (switch_off 0.2 _ (stop_event_set e)) as [c2 e2].
    simpl in H1, H2, H3. simpl fst. simpl snd.
    split; [destruct H2 as [-> | [t ->]]; reflexivity |].
    split; [exact H2 |]. split; [reflexivity |]. split; [reflexivity |].
    split; [reflexivity |]. split; [discriminate |]. intros _.
    split; [exact H1 |]. split; [| exact H3].
    eapply stop_event_stays_set; [exact H1 | apply stop_event_set_is_set].
  - simpl. split; [exact Hr |].
    split.
    { left. destruct s as [c ? ? ? ?]. simpl in *. destruct c. simpl in *.
      now subst. }
    split; [reflexivity |]. split; [reflexivity |]. split; [reflexivity |].
    split; [reflexivity | discriminate].
Qed.

(** X14: [stop_test] does nothing when no test is running.  When one
    is, it clears [test_running] and sets the stop event, so that the
    [while] loop of [test_loop] makes no further pass; the only command
    it sends is ":SOUR:INP OFF", through [safe_write], and with an open
    instrument and a retry allowed that is the last command on the wire;
    a second call changes nothing. *)
Theorem stop_test_stops_the_loop (s : Session) (e : Env) :
  punctual e ->
  test_running (controller s) = true ->
  let s' := fst (stop_test s e) in
  let e' := snd (stop_test s e) in
  test_running (controller s') = false
  /\ stop_event_is_set e' = true
  /\ extends (eq disable) no_row (stop_event_set e) e'
  /\ (instrument (controller s) = true ->
      (1 <= max_retries (controller s))%nat ->
      last_command e' = Some disable)
  /\ (forall fuel total_rows,
        test_loop_while fuel total_rows (controller s') e'
        = (WhileConditionFalse, controller s', e'))
  /\ stop_test s' e' = (s', e').
Proof.
  intros Hp Hr s' e'. subst s' e'.
  destruct (stop_test_keeps s e Hp) as (H1 & _ & _ & _ & _ & _ & H2).
  destruct (H2 Hr) as (H3 & H4 & H5).
  split; [exact H1 |]. split; [exact H4 |]. split; [exact H3 |].
  split; [exact H5 |]. split.
  - intros fuel total_rows. apply loop_stopped. now left.
  - unfold stop_test at 1. rewrite H1. reflexivity.
Qed.

Lemma stop_test_stops_the_loop_witness :
  test_running
    (controller
       (fst (stop_test (mkSession one_row_run true true true []) one_row_env)))
  = false.
Proof.
  apply (stop_test_stops_the_loop (mkSession one_row_run true true true [])
           one_row_env).
  - apply punctual_unwilling.
  - reflexivity.
Defined.

(** X15: [emergency_stop] with an open instrument first writes
    ":SOUR:INP OFF" to the instrument directly, at the instant of the
    call and without the command gate.  When that write raises, nothing
    else happens: a running test keeps running, the stop event is as it
    was and no further command is sent.  When it does not raise,
    [stop_test] follows: the test is marked stopped and the stop event is
    set. *)
Theorem emergency_stop_depends_on_first_write (s : Session) (e : Env) :
  punctual e ->
  instrument (controller s) = true ->
  test_running (controller s) = true ->
  let s' := fst (emergency_stop s e) in
  let e' := snd (emergency_stop s e) in
  (exists later, wire e' = wire e ++ (clock e, disable) :: later)
  /\ (raises (device e) (calls e) ->
      test_running (controller s') = true
      /\ stop_at e' = stop_at e
      /\ wire e' = wire e ++ [(clock e, disable)])
  /\ (~ raises (device e) (calls e) ->
      test_running (controller s') = false
      /\ stop_event_is_set e' = true).
Proof.
  intros Hp Hi Hr s' e'. subst s' e'. unfold emergency_stop. cbv zeta.
  change (instrument (controller (notice EmergencyStopActivated s)))
    with (instrument (controller s)).
  rewrite Hi.
  pose proof (extends_call (eq disable) no_row disable e Hp eq_refl) as Hc.
  unfold instrument_call in *. cbv zeta in *. cbn [snd] in Hc.
  set (e1 := mkEnv _ _ _ _ _ _ _) in *.
  assert (W1 : wire e1 = wire e ++ [(clock e, disable)]) by reflexivity.
  assert (S1 : stop_at e1 = stop_at e) by reflexivity.
  assert (Hp1 : punctual e1) by (eapply extends_punctual; eassumption).
  unfold raises. clearbody e1.
  destruct (outcome (device e (calls e))) as [| value].
  - simpl fst. simpl snd.
    split; [exists []; exact W1 |].
    split; [intros _; repeat split; assumption |].
    intros H. exfalso. now apply H.
  - set (s1 := notice EmergencyStopActivated s).
    assert (Hr1 : test_running (controller s1) = true) by exact Hr.
    destruct (stop_test_keeps s1 e1 Hp1) as (H1 & _ & _ & _ & _ & _ & H2).
    destruct (H2 Hr1) as (H3 & H4 & _).
    split.
    + destruct H3 as (_ & _ & _ & (sent & [W _] & _) & _).
      exists sent. rewrite W.
      assert (Ws : wire (stop_event_set e1) = wire e1).
      { unfold stop_event_set. destruct (stop_event_is_set e1); reflexivity. }
      rewrite Ws, W1, <- app_assoc. reflexivity.
    + split; [intros H; discriminate H |].
      intros _. split; [exact H1 | exact H4].
Qed.

Lemma emergency_stop_depends_on_first_write_witness :
  test_running
    (controller
       (fst (emergency_stop (mkSession one_row_run true true true [])
               (env_at 100 flaky_device))))
  = true.
Proof.
  assert (Hp : punctual (env_at 100 flaky_device)).
  { intros n. simpl.
    do 6 (destruct n as [| n]; [simpl; lra |]). simpl. lra. }
  apply (emergency_stop_depends_on_first_write
           (mkSession one_row_run true true true [])
           (env_at 100 flaky_device) Hp eq_refl eq_refl).
  reflexivity.
Defined.

(** ** setup_battery_mode, connect and disconnect *)

Lemma extends_no_enable (P : Command -> Prop) (L : LogRow -> Prop) (e e' : Env) :
  ~ P enable -> extends P L e e' -> no_new_enable e e'.
Proof.
  intros Hn (_ & _ & _ & (sent & [W _] & Hall) & _) t Hin.
  rewrite W in Hin. apply in_app_or in Hin. destruct Hin as [Hin | Hin];
    [exact Hin | exfalso].
  rewrite Forall_forall in Hall. apply Hn. exact (Hall _ Hin).
Qed.

Lemma safe_write_step (P : Command -> Prop) (command : Command)
    (c0 c : Controller) (e0 e : Env) :
  P command -> punctual e0 ->
  extends P no_row e0 e -> same_but_command_time c0 c ->
  let r := safe_write command c e in
  extends P no_row e0 (snd r) /\ same_but_command_time c0 (snd (fst r)).
Proof.
  intros HP Hp Hx Hc r. subst r. split.
  - eapply extends_trans; [exact Hx |]. apply extends_safe_write; [| exact HP].
    eapply extends_punctual; eassumption.
  - eapply same_but_command_time_trans; [exact Hc | apply safe_write_frame].
Qed.

Lemma safe_query_frame (command : Command) (c : Controller) (e : Env) :
  same_but_command_time c (snd (fst (safe_query command c e))).
Proof.
  unfold safe_query. destruct (negb (instrument c)); [now left |].
  generalize 0%nat at 1. generalize e.
  induction (max_retries c) as [| remaining IH] at 1; intros e0 attempt;
    simpl; [now left |].
  unfold instrument_call. cbv zeta.
  destruct (outcome _); [| right; eexists; reflexivity].
  destruct (_ <? _)%nat; [apply IH | now left].
Qed.

Lemma safe_query_step (P : Command -> Prop) (command : Command)
    (c0 c : Controller) (e0 e : Env) :
  P command -> punctual e0 ->
  extends P no_row e0 e -> same_but_command_time c0 c ->
  let r := safe_query command c e in
  extends P no_row e0 (snd r) /\ same_but_command_time c0 (snd (fst r)).
Proof.
  intros HP Hp Hx Hc r. subst r. split.
  - eapply extends_trans; [exact Hx |]. apply extends_safe_query; [| exact HP].
    eapply extends_punctual; eassumption.
  - eapply same_but_command_time_trans; [exact Hc | apply safe_query_frame].
Qed.

Lemma extends_then_sleep (P : Command -> Prop) (L : LogRow -> Prop)
    (seconds : R) (e0 e : Env) :
  0 <= seconds -> extends P L e0 e -> extends P L e0 (time_sleep seconds e).
Proof.
  intros Hs Hx. eapply extends_trans; [exact Hx | now apply extends_time_sleep].
Qed.

Lemma setup_battery_mode_keeps (s : Session) (e : Env) :
  punctual e ->
  match setup_battery_mode s e with
  | None => instrument (controller s) = false
  | Some (s', e') =>
    instrument (controller s) = true
    /\ extends setup_command no_row e e'
    /\ same_but_command_time (controller s) (controller s')
    /\ is_connected s' = is_connected s
    /\ rm s' = rm s
    /\ test_data_loaded s' = test_data_loaded s
    /\ ((1 <= max_retries (controller s))%nat ->
        exists t later, wire e' = wire e ++ (t, disable) :: later)
  end.
Proof.
  intros Hp. unfold setup_battery_mode.
  destruct (instrument (controller s)) eqn:Hi; simpl negb; cbv iota;
    [| reflexivity].
  cbv zeta.
  change (controller (notice SettingUpBatteryMode s)) with (controller s).
  set (P := setup_command).
  assert (P0 : P disable) by (simpl; auto).
  assert (P1 : P (Scpi "*CLS")) by (simpl; auto).
  assert (P2 : P (Scpi ":SOUR:FUNC CURR")) by (simpl; auto).
  assert (P3 : P (Scpi ":SOUR:FUNC:MODE BATT")) by (simpl; auto 6).
  assert (P4 : P (Scpi ":SOUR:CURR:RANG LOW")) by (simpl; auto 6).
  assert (P6 : P (Scpi ":SOUR:FUNC?")) by (simpl; auto 8).
  assert (P7 : P (Scpi ":SOUR:FUNC:MODE?")) by (simpl; auto 9).
  assert (First : (1 <= max_retries (controller s))%nat ->
            exists t later,
              wire (snd (safe_write disable (controller s) e))
              = wire e ++ (t, disable) :: later).
  { intros Hn. unfold safe_write. rewrite Hi. simpl negb. cbv iota.
    destruct (safe_write_loop_trace disable (controller s)
                (max_retries (controller s)) 0 e ltac:(lia))
      as (sent & [W _] & Hall & _ & _ & Hres).
    destruct sent as [| [t x] later].
    - exfalso. simpl in Hres.
      destruct (fst (fst (safe_write_loop _ 0 disable (controller s) e)));
        destruct Hres as [Hlen _]; lia.
    - inversion Hall as [| ? ? Hx _]. simpl in Hx. subst x.
      exists t, later. exact W. }
  destruct (safe_write_step P disable (controller s) (controller s) e e P0 Hp
              (extends_refl _ _ _) (same_but_command_time_refl _))
    as [X1 C1].
  destruct (safe_write disable (controller s) e) as [[ok1 c1] e1].
  simpl in X1, C1, First.
  assert (Hp1 : punctual e1) by (eapply extends_punctual; eassumption).
  assert (Zero : 0 <= 0.5 /\ 0 <= 0.3) by lra. destruct Zero as [Z5 Z3].
  destruct (safe_write_step P (Scpi "*CLS") (controller s) c1 e1
              (time_sleep 0.5 e1) P1 Hp1
              (extends_time_sleep P no_row 0.5 e1 Z5) C1) as [X2 C2].
  destruct (safe_write (Scpi "*CLS") c1 (time_sleep 0.5 e1)) as [[ok2 c2] e2].
  simpl in X2, C2.
  destruct (safe_write_step P (Scpi ":SOUR:FUNC CURR") (controller s) c2 e1
              (time_sleep 0.3 e2) P2 Hp1
              (extends_then_sleep P no_row 0.3 e1 e2 Z3 X2) C2) as [X3 C3].
  destruct (safe_write (Scpi ":SOUR:FUNC CURR") c2 (time_sleep 0.3 e2))
    as [[ok3 c3] e3].
  simpl in X3, C3.
  destruct (safe_write_step P (Scpi ":SOUR:FUNC:MODE BATT") (controller s) c3 e1
              (time_sleep 0.3 e3) P3 Hp1
              (extends_then_sleep P no_row 0.3 e1 e3 Z3 X3) C3) as [X4 C4].
  destruct (safe_write (Scpi ":SOUR:FUNC:MODE BATT") c3 (time_sleep 0.3 e3))
    as [[ok4 c4] e4].
  simpl in X4, C4.
  destruct (safe_write_step P (Scpi ":SOUR:CURR:RANG LOW") (controller s) c4 e1
              (time_sleep 0.3 e4) P4 Hp1
              (extends_then_sleep P no_row 0.3 e1 e4 Z3 X4) C4) as [X5 C5].
  destruct (safe_write (Scpi ":SOUR:CURR:RANG LOW") c4 (time_sleep 0.3 e4))
    as [[ok5 c5] e5].
  simpl in X5, C5.
  assert (X5' : extends P no_row e1 (time_sleep 0.3 e5))
    by (apply extends_then_sleep; [lra | exact X5]).
  assert (X6 : extends P no_row e1
                 (snd (safe_set_current 0 c5 (time_sleep 0.3 e5)))).
  { eapply extends_trans; [exact X5' |].
    unfold safe_set_current. destruct (negb _); [apply extends_refl |].
    eapply extends_sub;
      [| apply (extends_safe_set_current_loop no_row 0 5 0);
         eapply extends_punctual; eassumption].
    intros command [-> | [-> | ->]]; simpl; auto 8. }
  destruct (safe_set_current 0 c5 (time_sleep 0.3 e5)) as [success e6].
  simpl in X6.
  destruct (safe_query_step P (Scpi ":SOUR:FUNC?") (controller s) c5 e1
              (time_sleep 0.3 e6) P6 Hp1
              (extends_then_sleep P no_row 0.3 e1 e6 Z3 X6) C5) as [X7 C7].
  destruct (safe_query (Scpi ":SOUR:FUNC?") c5 (time_sleep 0.3 e6))
    as [[func c7] e7].
  simpl in X7, C7.
  destruct (safe_query_step P (Scpi ":SOUR:FUNC:MODE?") (controller s) c7 e1
              e7 P7 Hp1 X7 C7) as [X8 C8].
  destruct (safe_query (Scpi ":SOUR:FUNC:MODE?") c7 e7) as [[mode c8] e8].
  simpl in X8, C8.
  split; [reflexivity |].
  split; [eapply extends_trans; eassumption |]. split; [exact C8 |].
  split; [destruct success; reflexivity |].
  split; [destruct success; reflexivity |].
  split; [destruct success; reflexivity |].
  intros Hn. destruct (First Hn) as (t & later & W1).
  destruct X8 as (_ & _ & _ & (more & [W8 _] & _) & _).
  exists t, (later ++ more).
  rewrite W8, W1, <- app_assoc. reflexivity.
Qed.

Lemma setup_command_not_enable : ~ setup_command enable.
Proof. simpl. intuition discriminate. Qed.

Lemma connect_command_not_enable : ~ connect_command enable.
Proof.
  intros [H | H]; [discriminate | now apply setup_command_not_enable].
Qed.

(** X16: [setup_battery_mode] raises exactly when there is no
    instrument.  With one, it returns whatever the instrument answers;
    it sends nothing but its configuration commands, the set point 0 and
    three queries, never the output-enable command; with a retry allowed
    the first command it sends is ":SOUR:INP OFF"; and of the controller
    it changes at most [last_command_time]. *)
Theorem setup_battery_mode_never_enables (s : Session) (e : Env) :
  punctual e ->
  match setup_battery_mode s e with
  | None => instrument (controller s) = false
  | Some (s', e') =>
    instrument (controller s) = true
    /\ extends setup_command no_row e e'
    /\ no_new_enable e e'
    /\ same_but_command_time (controller s) (controller s')
    /\ ((1 <= max_retries (controller s))%nat ->
        exists t later, wire e' = wire e ++ (t, disable) :: later)
  end.
Proof.
  intros Hp. pose proof (setup_battery_mode_keeps s e Hp) as H.
  destruct (setup_battery_mode s e) as [[s' e'] |]; [| exact H].
  destruct H as (H1 & H2 & H3 & _ & _ & _ & H4).
  split; [exact H1 |]. split; [exact H2 |].
  split; [eapply extends_no_enable; [apply setup_command_not_enable | exact H2] |].
  split; [exact H3 | exact H4].
Qed.

Lemma setup_battery_mode_never_enables_witness :
  match setup_battery_mode (mkSession connected true false false [])
          one_row_env with
  | None => False
  | Some (s', e') => no_new_enable one_row_env e'
  end.
Proof.
  pose proof (setup_battery_mode_never_enables
                (mkSession connected true false false []) one_row_env
                (punctual_unwilling 100)) as H.
  destruct (setup_battery_mode (mkSession connected true false false [])
              one_row_env) as [[s' e'] |].
  - apply H.
  - discriminate H.
Defined.

Lemma connect_keeps (rm_opens resource_opens : bool) (s : Session) (e : Env) :
  punctual e ->
  let s' := fst (connect rm_opens resource_opens s e) in
  let e' := snd (connect rm_opens resource_opens s e) in
  let opened :=
    (rm_opens && resource_opens)%bool = true /\ ~ raises (device e) (calls e) in
  extends connect_command no_row e e'
  /\ (opened ->
      is_connected s' = true /\ instrument (controller s') = true
      /\ rm s' = true
      /\ same_but_command_time (set_instrument true (controller s))
           (controller s'))
  /\ (~ opened ->
      is_connected s' = is_connected s /\ instrument (controller s') = false
      /\ rm s' = false
      /\ controller s' = set_instrument false (controller s))
  /\ test_data_loaded s' = test_data_loaded s.
Proof.
  intros Hp. cbv zeta. unfold connect. cbv zeta.
  destruct rm_opens; simpl negb; cbv iota.
  2: { simpl. split; [apply extends_refl |].
       split; [intros [H _]; discriminate H |].
       split; [intros _; repeat split | reflexivity]. }
  destruct resource_opens; simpl negb; cbv iota.
  2: { simpl. split; [apply extends_refl |].
       split; [intros [H _]; discriminate H |].
       split; [intros _; repeat split | reflexivity]. }
  assert (Hs : extends connect_command no_row e (time_sleep 1 e))
    by (apply extends_time_sleep; lra).
  assert (Hp0 : punctual (time_sleep 1 e)) by (eapply extends_punctual; eassumption).
  pose proof (extends_call connect_command no_row (Scpi "*IDN?")
                (time_sleep 1 e) Hp0 (or_introl eq_refl)) as Hc.
  unfold instrument_call in *. cbv zeta in *. cbn [snd] in Hc.
  set (e1 := mkEnv _ _ _ _ _ _ _) in *.
  assert (H1 : extends connect_command no_row e e1)
    by (eapply extends_trans; eassumption).
  assert (Hp1 : punctual e1) by (eapply extends_punctual; eassumption).
  clearbody e1.
  change (device (time_sleep 1 e) (calls (time_sleep 1 e)))
    with (device e (calls e)).
  unfold raises.
  destruct (outcome (device e (calls e))) as [| value].
  { simpl. split; [exact H1 |].
    split; [intros [_ H]; exfalso; now apply H |].
    split; [intros _; repeat split | reflexivity]. }
  set (s3 := notice Connected _).
  pose proof (setup_battery_mode_keeps s3 e1 Hp1) as Hsetup.
  destruct (setup_battery_mode s3 e1) as [[s4 e4] |];
    [| discriminate Hsetup].
  destruct Hsetup as (_ & X & C & I4 & R4 & D4 & _).
  simpl fst. simpl snd.
  split.
  { eapply extends_trans; [exact H1 |].
    eapply extends_sub; [| exact X]. intros command H. now right. }
  split.
  { intros _. split; [reflexivity |].
    change (controller (set_is_connected true s4)) with (controller s4).
    split; [destruct C as [-> | [t ->]]; reflexivity |].
    split; [exact R4 | exact C]. }
  split; [| exact D4].
  intros H. exfalso. apply H. split; [reflexivity | discriminate].
Qed.

(** X17: [connect] ends connected exactly when the resource manager and
    the resource open and the identification query does not raise,
    whatever happens to the set-up commands after it; then the
    instrument is open.  Otherwise [is_connected] is as it was and the
    instrument and the resource manager are forgotten.  Either way it
    sends only the identification query and the commands of
    [setup_battery_mode], never the output-enable command. *)
Theorem connect_outcome (rm_opens resource_opens : bool) (s : Session)
    (e : Env) :
  punctual e ->
  is_connected s = false ->
  let s' := fst (connect rm_opens resource_opens s e) in
  let e' := snd (connect rm_opens resource_opens s e) in
  (is_connected s' = true <->
   (rm_opens && resource_opens)%bool = true /\ ~ raises (device e) (calls e))
  /\ instrument (controller s') = is_connected s'
  /\ rm s' = is_connected s'
  /\ extends connect_command no_row e e'
  /\ no_new_enable e e'.
Proof.
  intros Hp Hn s' e'. subst s' e'.
  destruct (connect_keeps rm_opens resource_opens s e Hp)
    as (Hx & Hyes & Hno & _).
  cbv zeta in Hyes, Hno.
  assert (Hdec : ((rm_opens && resource_opens)%bool = true
                  /\ ~ raises (device e) (calls e))
                 \/ ~ ((rm_opens && resource_opens)%bool = true
                       /\ ~ raises (device e) (calls e))).
  { unfold raises. destruct (rm_opens && resource_opens)%bool;
      destruct (outcome (device e (calls e)));
      try (right; intros [H1 H2]; try discriminate H1; now apply H2).
    left. split; [reflexivity | discriminate]. }
  destruct Hdec as [Hopen | Hclosed].
  - destruct (Hyes Hopen) as (H1 & H2 & H3 & _).
    split; [split; [intros _; exact Hopen | intros _; exact H1] |].
    split; [congruence |]. split; [congruence |].
    split; [exact Hx |].
    eapply extends_no_enable; [apply connect_command_not_enable | exact Hx].
  - destruct (Hno Hclosed) as (H1 & H2 & H3 & _).
    split; [split; [intros H; congruence | intros H; contradiction] |].
    split; [congruence |]. split; [congruence |].
    split; [exact Hx |].
    eapply extends_no_enable; [apply connect_command_not_enable | exact Hx].
Qed.

Lemma connect_outcome_witness :
  is_connected (fst (connect true true session_init one_row_env)) = true.
Proof.
  apply (connect_outcome true true session_init one_row_env
           (punctual_unwilling 100) eq_refl).
  split; [reflexivity | discriminate].
Defined.

Lemma stop_test_idle (s : Session) (e : Env) :
  (if test_running (controller s) then stop_test s e else (s, e))
  = stop_test s e.
Proof.
  unfold stop_test. destruct (test_running (controller s)); reflexivity.
Qed.

Lemma stop_test_wire (s : Session) (e : Env) :
  punctual e ->
  punctual (snd (stop_test s e))
  /\ exists sent,
       wire (snd (stop_test s e)) = wire e ++ sent
       /\ Forall (fun x => snd x = disable) sent.
Proof.
  intros Hp. destruct (stop_test_keeps s e Hp) as (_ & _ & _ & _ & _ & Hidle & Hrun).
  destruct (test_running (controller s)) eqn:Hr.
  - destruct (Hrun eq_refl) as (Hx & _).
    assert (Hp1 : punctual (stop_event_set e)).
    { unfold stop_event_set. destruct (stop_event_is_set e); exact Hp. }
    split; [eapply extends_punctual; eassumption |].
    destruct Hx as (_ & _ & _ & (sent & [W _] & Hall) & _).
    exists sent. split.
    + rewrite W. unfold stop_event_set.
      destruct (stop_event_is_set e); reflexivity.
    + eapply Forall_impl; [| exact Hall]. intros a Ha. now symmetry.
  - rewrite (Hidle eq_refl). simpl. split; [exact Hp |].
    exists []. split; [now rewrite app_nil_r | constructor].
Qed.

Lemma same_but_command_time_fields (c c' : Controller) :
  same_but_command_time c c' ->
  instrument c' = instrument c /\ max_retries c' = max_retries c
  /\ test_running c' = test_running c /\ configuration c' = configuration c
  /\ current_row c' = current_row c.
Proof. intros [-> | [t ->]]; repeat split. Qed.

Lemma cleanup_is_disconnect (instrument_closes rm_closes : bool)
    (s : Session) (e : Env) :
  punctual e ->
  cleanup instrument_closes rm_closes s e
  = disconnect instrument_closes rm_closes s e.
Proof.
  intros Hp. unfold cleanup, disconnect. rewrite stop_test_idle.
  destruct (stop_test_keeps s e Hp) as (Hoff & _).
  destruct (stop_test s e) as [s1 e1]. simpl in Hoff.
  rewrite Hoff. reflexivity.
Qed.

Lemma disconnect_keeps (instrument_closes rm_closes : bool)
    (s : Session) (e : Env) :
  punctual e ->
  let s' := fst (disconnect instrument_closes rm_closes s e) in
  let e' := snd (disconnect instrument_closes rm_closes s e) in
  is_connected s' = false
  /\ instrument (controller s') = false
  /\ rm s' = false
  /\ test_running (controller s') = false
  /\ (exists sent,
        wire e' = wire e ++ sent /\ Forall (fun x => snd x = disable) sent)
  /\ (instrument (controller s) = true ->
      (1 <= max_retries (controller s))%nat ->
      last_command e' = Some disable)
  /\ (test_running (controller s) = true -> stop_event_is_set e' = true)
  /\ punctual e'
  /\ max_current (controller s') = max_current (controller s)
  /\ min_current (controller s') = min_current (controller s).
Proof.
  intros Hp. cbv zeta.
  unfold disconnect. rewrite stop_test_idle.
  destruct (stop_test_keeps s e Hp) as (Hoff & Hsame & _ & _ & _ & _ & Hrun).
  destruct (stop_test_wire s e Hp) as (Hp1 & sent1 & W1 & F1).
  destruct (stop_test s e) as [s1 e1]. simpl in Hoff, Hsame, Hrun, Hp1, W1.
  destruct (same_but_command_time_fields _ _ Hsame) as (Hi & Hn & _).
  simpl in Hi, Hn.
  destruct (safe_write_keeps disable (controller s1) e1 Hp1) as (Hx & Hc & Hlast).
  destruct (same_but_command_time_fields _ _ Hc) as (_ & _ & Ht & _).
  assert (Hrange1 : max_current (controller s1) = max_current (controller s)
                    /\ min_current (controller s1) = min_current (controller s))
    by (destruct Hsame as [-> | [t ->]]; split; reflexivity).
  assert (Hrange2 :
            max_current (snd (fst (safe_write disable (controller s1) e1)))
            = max_current (controller s1)
            /\ min_current (snd (fst (safe_write disable (controller s1) e1)))
               = min_current (controller s1))
    by (destruct Hc as [-> | [t ->]]; split; reflexivity).
  destruct (instrument (controller s1)) eqn:Hi1.
  - destruct (safe_write disable (controller s1) e1) as [[ok c2] e2].
    simpl in Hx, Hc, Hlast, Ht, Hrange2. cbv zeta.
    set (s2 := if instrument_closes then set_controller c2 s1
               else notice InstrumentCloseError (set_controller c2 s1)).
    assert (H2 : controller s2 = c2)
      by (unfold s2; destruct instrument_closes; reflexivity).
    clearbody s2.
    set (s3 := if (rm s2 && negb rm_closes)%bool
               then notice ResourceManagerCloseError s2 else s2).
    assert (H3 : controller s3 = c2)
      by (unfold s3; destruct (rm s2 && negb rm_closes)%bool; exact H2).
    clearbody s3.
    simpl fst. simpl snd.
    split; [reflexivity |]. split; [reflexivity |]. split; [reflexivity |].
    split; [simpl; rewrite H3, Ht; exact Hoff |].
    split.
    { destruct Hx as (_ & _ & _ & (sent2 & [W2 _] & F2) & _).
      exists (sent1 ++ sent2). split.
      - simpl. rewrite W2, W1, app_assoc. reflexivity.
      - apply Forall_app. split; [exact F1 |].
        eapply Forall_impl; [| exact F2]. intros a Ha. now symmetry. }
    split; [intros _ Hr; apply Hlast; [reflexivity | congruence] |].
    assert (Hx' : extends (eq disable) no_row e1 (time_sleep 0.5 e2)).
    { eapply extends_trans; [exact Hx | apply extends_time_sleep; lra]. }
    split.
    { intros Hr. destruct (Hrun Hr) as (_ & Hset & _).
      eapply stop_event_stays_set; [exact Hx' | exact Hset]. }
    split; [eapply extends_punctual; eassumption |].
    simpl. rewrite H3. destruct Hrange1, Hrange2. split; congruence.
  - cbv zeta.
    set (s3 := if (rm s1 && negb rm_closes)%bool
               then notice ResourceManagerCloseError s1 else s1).
    assert (H3 : controller s3 = controller s1)
      by (unfold s3; destruct (rm s1 && negb rm_closes)%bool; reflexivity).
    clearbody s3.
    simpl fst. simpl snd.
    split; [reflexivity |]. split; [reflexivity |]. split; [reflexivity |].
    split; [simpl; rewrite H3; exact Hoff |].
    split; [exists sent1; split; assumption |].
    split; [intros H; congruence |].
    split; [intros Hr; now destruct (Hrun Hr) as (_ & Hset & _) |].
    split; [exact Hp1 |].
    simpl. rewrite H3. exact Hrange1.
Qed.

(** X18: after [disconnect] the session is not connected, holds no
    instrument and no resource manager, and no test is running; a test
    that was running has had its stop event set; the only command sent
    is ":SOUR:INP OFF", and with an open instrument and a retry allowed
    it is the last command on the wire.  [cleanup], which calls
    [stop_test] and then [disconnect], does what [disconnect] alone
    does. *)
Theorem disconnect_leaves_load_off (instrument_closes rm_closes : bool)
    (s : Session) (e : Env) :
  punctual e ->
  let s' := fst (disconnect instrument_closes rm_closes s e) in
  let e' := snd (disconnect instrument_closes rm_closes s e) in
  is_connected s' = false
  /\ instrument (controller s') = false
  /\ rm s' = false
  /\ test_running (controller s') = false
  /\ (exists sent,
        wire e' = wire e ++ sent /\ Forall (fun x => snd x = disable) sent)
  /\ (instrument (controller s) = true ->
      (1 <= max_retries (controller s))%nat ->
      last_command e' = Some disable)
  /\ (test_running (controller s) = true -> stop_event_is_set e' = true)
  /\ cleanup instrument_closes rm_closes s e
     = disconnect instrument_closes rm_closes s e.
Proof.
  intros Hp s' e'. subst s' e'.
  destruct (disconnect_keeps instrument_closes rm_closes s e Hp)
    as (H1 & H2 & H3 & H4 & H5 & H6 & H7 & _).
  repeat (split; [assumption |]).
  now apply cleanup_is_disconnect.
Qed.

Lemma disconnect_leaves_load_off_witness :
  last_command
    (snd (disconnect true true (mkSession one_row_run true true true [])
            one_row_env))
  = Some disable.
Proof.
  apply (disconnect_leaves_load_off true true
           (mkSession one_row_run true true true []) one_row_env
           (punctual_unwilling 100)).
  - reflexivity.
  - simpl. lia.
Defined.

(** ** start_test and the run it launches *)

Lemma stop_event_clear_clears (e : Env) :
  stop_event_is_set (stop_event_clear e) = false
  /\ device (stop_event_clear e) = device e
  /\ clock (stop_event_clear e) = clock e
  /\ wire (stop_event_clear e) = wire e
  /\ csv_log (stop_event_clear e) = csv_log e.
Proof.
  unfold stop_event_clear. destruct (stop_event_is_set e) eqn:H;
    repeat split; assumption.
Qed.

Lemma start_test_cases (voltage_cutoff_input : R) (file_opens : bool)
    (s : Session) (e : Env) :
  let r := start_test voltage_cutoff_input file_opens s e in
  let c4 :=
    set_test_running true
      (set_start_time (Some (clock e))
         (set_current_row 0
            (set_voltage_cutoff voltage_cutoff_input (controller s)))) in
  is_connected (fst r) = is_connected s
  /\ rm (fst r) = rm s
  /\ test_data_loaded (fst r) = test_data_loaded s
  /\ (if (is_connected s && test_data_loaded s
          && negb (test_running (controller s)))%bool
      then if file_opens
           then controller (fst r) = set_voltage_below_cutoff_time None c4
                /\ snd r = set_csv_log [] (stop_event_clear e)
           else controller (fst r) = set_test_running false c4
                /\ snd r = stop_event_clear e
      else controller (fst r) = controller s /\ snd r = e).
Proof.
  cbv zeta. unfold start_test.
  destruct (is_connected s) eqn:E1; destruct (test_data_loaded s) eqn:E2;
    destruct (test_running (controller s)) eqn:E3; cbn [negb andb]; cbv iota;
    try (repeat split; simpl; assumption).
  cbv zeta. destruct file_opens; cbn [negb]; cbv iota;
    repeat split; simpl; assumption.
Qed.

(** X19: [start_test] changes nothing of the controller or of the
    environment unless the session is connected, data are loaded and no
    test is running.  When they are and the log file opens, the run it
    launches starts at row 0 at the instant of the call with the given
    cutoff, no countdown pending, the stop event cleared unless a stop
    is still to come, and an empty log; [test_loop] from there never
    leaves through its exception handler, leaves [test_running] false,
    and the CSV log then holds the rows of this run only, in ascending
    order. *)
Theorem start_test_launches_clean_run (voltage_cutoff_input : R)
    (file_opens : bool) (s : Session) (e : Env) :
  min_current (controller s) <= 0 <= max_current (controller s) ->
  punctual e ->
  let s1 := fst (start_test voltage_cutoff_input file_opens s e) in
  let e1 := snd (start_test voltage_cutoff_input file_opens s e) in
  let started :=
    (is_connected s && test_data_loaded s
     && negb (test_running (controller s)))%bool in
  (started = false -> controller s1 = controller s /\ e1 = e)
  /\ (started = true -> file_opens = true ->
      let r := test_loop (controller s1) e1 in
      test_running (controller s1) = true
      /\ current_row (controller s1) = 0%nat
      /\ start_time (controller s1) = Some (clock e)
      /\ voltage_cutoff (controller s1) = voltage_cutoff_input
      /\ voltage_below_cutoff_time (controller s1) = None
      /\ csv_log e1 = []
      /\ stop_event_is_set e1 = false
      /\ fst (fst r) <> LoopException
      /\ test_running (snd (fst r)) = false
      /\ ascending (csv_log (snd r))
      /\ Forall (run_row (controller s1) (length (test_data (controller s)))
                   e1 (snd r)) (csv_log (snd r))).
Proof.
  intros Hrange Hp. cbv zeta.
  destruct (start_test_cases voltage_cutoff_input file_opens s e)
    as (_ & _ & _ & Hcases).
  cbv zeta in Hcases.
  destruct (is_connected s && test_data_loaded s
            && negb (test_running (controller s)))%bool.
  2: { split; [intros _; exact Hcases | discriminate]. }
  split; [discriminate |]. intros _ Hf. subst file_opens.
  destruct Hcases as [Hc He].
  set (s1 := fst (start_test voltage_cutoff_input true s e)) in *.
  set (e1 := snd (start_test voltage_cutoff_input true s e)) in *.
  destruct (stop_event_clear_clears e) as (Hclear & Hdev & _ & _ & _).
  assert (Hp1 : punctual e1).
  { intros n. rewrite He. simpl. rewrite Hdev. apply Hp. }
  assert (Hrange1 : min_current (controller s1) <= 0 <= max_current (controller s1))
    by (rewrite Hc; exact Hrange).
  assert (Hdata : test_data (controller s1) = test_data (controller s))
    by (rewrite Hc; reflexivity).
  split; [rewrite Hc; reflexivity |]. split; [rewrite Hc; reflexivity |].
  split; [rewrite Hc; reflexivity |]. split; [rewrite Hc; reflexivity |].
  split; [rewrite Hc; reflexivity |]. split; [rewrite He; reflexivity |].
  split; [rewrite He; exact Hclear |].
  split.
  { rewrite test_loop_exit. intros Hexc.
    pose proof (loop_exit (length (test_data (controller s1)))
                  (length (test_data (controller s1))
                   - current_row (controller s1))
                  (controller s1) e1 (Nat.le_refl _)) as Hexit.
    cbv zeta in Hexit. rewrite Hexc in Hexit.
    assert (Hrun : test_running (controller s1) = true)
      by (rewrite Hc; reflexivity).
    specialize (Hexit Hrun). simpl in Hexit.
    rewrite loop_start_time in Hexit. rewrite Hc in Hexit. discriminate. }
  destruct (test_loop_keeps (controller s1) e1 Hrange1 Hp1)
    as (((_ & _ & _ & _ & _ & rows & Hr & Hall) & Hrest) & Hoff & _).
  split; [exact Hoff |].
  assert (Hlog : csv_log e1 = []) by (rewrite He; reflexivity).
  rewrite Hlog in Hr. simpl in Hr. rewrite Hr.
  split; [apply Hrest; rewrite Hlog; exact Hr |].
  rewrite <- Hdata. exact Hall.
Qed.

Lemma start_test_launches_clean_run_witness :
  fst (fst (test_loop
              (controller
                 (fst (start_test 2.75 true
                         (mkSession (set_test_data [-30] connected)
                            true true true [])
                         one_row_env)))
              (snd (start_test 2.75 true
                      (mkSession (set_test_data [-30] connected)
                         true true true [])
                      one_row_env))))
  <> LoopException.
Proof.
  assert (H : min_current (set_test_data [-30] connected) <= 0
              <= max_current (set_test_data [-30] connected))
    by (simpl; lra).
  apply (start_test_launches_clean_run 2.75 true
           (mkSession (set_test_data [-30] connected) true true true [])
           one_row_env H (punctual_unwilling 100));
    reflexivity.
Defined.

(** ** The callbacks of the GUI *)

Lemma emergency_stop_keeps (s : Session) (e : Env) :
  punctual e ->
  let r := emergency_stop s e in
  punctual (snd r)
  /\ is_connected (fst r) = is_connected s
  /\ rm (fst r) = rm s
  /\ (controller (fst r) = controller s
      \/ same_but_command_time (set_test_running false (controller s))
           (controller (fst r))).
Proof.
  intros Hp. cbv zeta. unfold emergency_stop. cbv zeta.
  set (s1 := notice EmergencyStopActivated s).
  assert (Hstop : forall e1, punctual e1 ->
            punctual (snd (stop_test s1 e1))
            /\ is_connected (fst (stop_test s1 e1)) = is_connected s
            /\ rm (fst (stop_test s1 e1)) = rm s
            /\ (controller (fst (stop_test s1 e1)) = controller s
                \/ same_but_command_time (set_test_running false (controller s))
                     (controller (fst (stop_test s1 e1))))).
  { intros e1 Hp1.
    destruct (stop_test_keeps s1 e1 Hp1) as (_ & H2 & H3 & H4 & _).
    destruct (stop_test_wire s1 e1 Hp1) as (H5 & _).
    split; [exact H5 |]. split; [exact H3 |]. split; [exact H4 |].
    right. exact H2. }
  destruct (instrument (controller s1)); [| now apply Hstop].
  pose proof (extends_call (eq disable) no_row disable e Hp eq_refl) as Hc.
  unfold instrument_call in *. cbv zeta in *. cbn [snd] in Hc.
  set (e1 := mkEnv _ _ _ _ _ _ _) in *.
  assert (Hp1 : punctual e1) by (eapply extends_punctual; eassumption).
  clearbody e1.
  destruct (outcome _); [| now apply Hstop].
  simpl. split; [exact Hp1 |]. repeat split. now left.
Qed.

Lemma opened_or_not (rm_opens resource_opens : bool) (e : Env) :
  let opened :=
    (rm_opens && resource_opens)%bool = true /\ ~ raises (device e) (calls e) in
  opened \/ ~ opened.
Proof.
  cbv zeta. unfold raises. destruct (rm_opens && resource_opens)%bool;
    destruct (outcome (device e (calls e)));
    try (right; intros [H1 H2]; try discriminate H1; now apply H2).
  left. split; [reflexivity | discriminate].
Qed.

Lemma callback_keeps (k : Callback) (s : Session) (e : Env) :
  punctual e ->
  min_current (controller s) <= 0 <= max_current (controller s) ->
  session_consistent s ->
  let r := callback k s e in
  punctual (snd r)
  /\ min_current (controller (fst r)) <= 0 <= max_current (controller (fst r))
  /\ session_consistent (fst r).
Proof.
  intros Hp Hrange (Hi & Hr & Ht). cbv zeta. unfold session_consistent.
  destruct k as [a b ic rc | v f | | | label |]; simpl callback.
  - unfold toggle_connection. destruct (is_connected s) eqn:Hc.
    + destruct (disconnect_keeps ic rc s e Hp)
        as (H1 & H2 & H3 & H4 & _ & _ & _ & H8 & H9 & H10).
      split; [exact H8 |]. split; [rewrite H9, H10; exact Hrange |].
      rewrite H1, H2, H3, H4. repeat split. discriminate.
    + destruct (connect_keeps a b s e Hp) as (Hx & Hyes & Hno & _).
      cbv zeta in Hyes, Hno.
      split; [eapply extends_punctual; eassumption |].
      assert (Hidle : test_running (controller s) = false).
      { destruct (test_running (controller s)); [| reflexivity].
        specialize (Ht eq_refl). discriminate. }
      destruct (opened_or_not a b e) as [Hopen | Hclosed].
      * destruct (Hyes Hopen) as (H1 & H2 & H3 & H4).
        destruct (same_but_command_time_fields _ _ H4) as (_ & _ & H5 & H6 & _).
        destruct (configuration_fields _ _ H6) as (_ & _ & _ & Hmax & Hmin & _).
        split; [rewrite Hmax, Hmin; exact Hrange |].
        rewrite H1, H2, H3. repeat split.
      * destruct (Hno Hclosed) as (H1 & H2 & H3 & H4).
        split; [rewrite H4; exact Hrange |].
        rewrite H1, H2, H3, Hc.
        split; [reflexivity |]. split; [reflexivity |].
        rewrite H4. simpl. rewrite Hidle. discriminate.
  - destruct (start_test_cases v f s e) as (H1 & H2 & _ & Hcases).
    cbv zeta in Hcases.
    destruct (stop_event_clear_clears e) as (_ & Hdev & _).
    rewrite H1, H2.
    destruct (is_connected s && test_data_loaded s
              && negb (test_running (controller s)))%bool eqn:Hstart.
    + apply andb_prop in Hstart. destruct Hstart as [Hstart _].
      apply andb_prop in Hstart. destruct Hstart as [Hconn _].
      destruct f; destruct Hcases as [-> ->];
        (split; [intros n; simpl; rewrite Hdev; apply Hp |]);
        (split; [exact Hrange |]);
        (split; [exact Hi |]); (split; [exact Hr |]);
        intros _; exact Hconn.
    + destruct Hcases as [-> ->].
      split; [exact Hp |]. split; [exact Hrange |].
      split; [exact Hi |]. split; [exact Hr | exact Ht].
  - destruct (stop_test_keeps s e Hp) as (H1 & H2 & H3 & H4 & _).
    destruct (stop_test_wire s e Hp) as (H5 & _).
    destruct (same_but_command_time_fields _ _ H2) as (H6 & _ & _ & H7 & _).
    destruct (configuration_fields _ _ H7) as (_ & _ & _ & Hmax & Hmin & _).
    split; [exact H5 |]. split; [rewrite Hmax, Hmin; exact Hrange |].
    rewrite H3, H4, H6, H1. split; [exact Hi |]. split; [exact Hr |].
    discriminate.
  - destruct (emergency_stop_keeps s e Hp) as (H1 & H2 & H3 & H4).
    split; [exact H1 |]. rewrite H2, H3.
    destruct H4 as [-> | H4].
    + split; [exact Hrange |]. split; [exact Hi |]. split; [exact Hr | exact Ht].
    + destruct (same_but_command_time_fields _ _ H4) as (H6 & _ & H8 & H7 & _).
      destruct (configuration_fields _ _ H7) as (_ & _ & _ & Hmax & Hmin & _).
      split; [rewrite Hmax, Hmin; exact Hrange |].
      rewrite H6, H8. split; [exact Hi |]. split; [exact Hr |].
      simpl. discriminate.
  - simpl. split; [exact Hp |]. split; [exact Hrange |].
    split; [exact Hi |]. split; [exact Hr | exact Ht].
  - destruct (test_loop_keeps (controller s) e Hrange Hp)
      as ((Hx & Hcfg & _) & Hoff & _).
    destruct (test_loop (controller s) e) as [[leave c'] e'].
    simpl in Hx, Hcfg, Hoff. simpl fst. simpl snd.
    assert (Hcfg' : configuration c' = configuration (controller s))
      by exact Hcfg.
    destruct (configuration_fields _ _ Hcfg') as (Hins & _ & _ & Hmax & Hmin & _).
    split; [eapply extends_punctual; eassumption |].
    split; [simpl; rewrite Hmax, Hmin; exact Hrange |].
    simpl. rewrite Hins, Hoff. split; [exact Hi |]. split; [exact Hr |].
    discriminate.
Qed.

(** X20: starting from a consistent session, whatever callbacks run one
    after the other (connection toggles, starts, stops, emergency stops,
    method changes, the test thread) and whatever the instrument
    answers, the session stays consistent: it holds an instrument and a
    resource manager exactly when [is_connected] is true, and
    [test_running] is true only while it is connected. *)
Theorem callbacks_keep_session_consistent (ks : list Callback) (s : Session)
    (e : Env) :
  punctual e ->
  min_current (controller s) <= 0 <= max_current (controller s) ->
  session_consistent s ->
  session_consistent (fst (callbacks ks s e)).
Proof.
  revert s e. induction ks as [| k ks IH]; intros s e Hp Hrange Hs;
    [exact Hs |].
  simpl. destruct (callback_keeps k s e Hp Hrange Hs) as (H1 & H2 & H3).
  destruct (callback k s e) as [s1 e1]. now apply IH.
Qed.

Lemma callbacks_keep_session_consistent_witness :
  session_consistent
    (fst (callbacks [ToggleConnection true true true true; EmergencyStop]
            session_init one_row_env)).
Proof.
  apply callbacks_keep_session_consistent.
  - apply punctual_unwilling.
  - simpl. lra.
  - unfold session_consistent. simpl. repeat split. discriminate.
Defined.

(** ** monitor_loop *)

Lemma voltage_status_zero (voltage : R) (c : Controller) (e : Env) :
  pending_has_success c ->
  (voltage_status voltage c (clock e) = VoltageLow 0
   <-> fst (fst (check_voltage_cutoff voltage c e)) = true).
Proof.
  intros Hpending. unfold voltage_status, check_voltage_cutoff. cbv zeta.
  destruct (last_measurement_success_time c) as [t |] eqn:Hs.
  - destruct (Rle_dec (clock e - t) (measurement_timeout_threshold c)) as [Hf | Hf].
    + rewrite (Rleb_true _ _ Hf). rewrite Rltb_false by lra.
      destruct (Rleb voltage (voltage_cutoff c));
        [| split; intros H; discriminate H].
      destruct (voltage_below_cutoff_time c) as [since |];
        [| split; intros H; discriminate H].
      destruct (Rle_dec (voltage_cutoff_buffer c) (clock e - since)) as [Hb | Hb].
      * rewrite (Rleb_true _ _ Hb). split; [reflexivity | intros _].
        f_equal. unfold Rmax. destruct (Rle_dec 0 _); lra.
      * rewrite (Rleb_false (voltage_cutoff_buffer c) (clock e - since)) by lra.
        split; [| intros H; discriminate H].
        intros H. exfalso. inversion H as [H0]. unfold Rmax in H0.
        destruct (Rle_dec 0 _); lra.
    + rewrite (Rleb_false (clock e - t) (measurement_timeout_threshold c))
        by lra.
      rewrite Rltb_true by lra.
      split; [intros H; discriminate H |].
      destruct (voltage_below_cutoff_time c); intros H; discriminate H.
  - assert (Hn : voltage_below_cutoff_time c = None).
    { destruct (voltage_below_cutoff_time c) eqn:Hb; [| reflexivity].
      exfalso. apply Hpending; [rewrite Hb; discriminate | exact Hs]. }
    rewrite Hn. simpl. destruct (Rleb voltage (voltage_cutoff c));
      split; intros H; discriminate H.
Qed.

(** X21: the countdown that [monitor_loop] displays agrees with the
    cutoff of [test_loop]: for a controller whose pending countdown was
    started by a successful measurement, the status is "VOLTAGE LOW!"
    with 0 s remaining exactly when the cutoff check of the test loop,
    on the same voltage at the same instant, stops the test; a pass of
    the monitor sends only the two measurement queries, at most four
    calls, and none when the session is not connected. *)
Theorem monitor_countdown_matches_cutoff (voltage : R) (s : Session) (e : Env) :
  punctual e ->
  pending_has_success (controller s) ->
  (voltage_status voltage (controller s) (clock e) = VoltageLow 0
   <-> fst (fst (check_voltage_cutoff voltage (controller s) e)) = true)
  /\ extends measurement_query no_row e (snd (monitor_pass s e))
  /\ (calls (snd (monitor_pass s e)) <= calls e + 4)%nat
  /\ (is_connected s = false ->
      wire (snd (monitor_pass s e)) = wire e
      /\ fst (monitor_pass s e) = (None, s)).
Proof.
  intros Hp Hpending.
  split; [now apply voltage_status_zero |].
  unfold monitor_pass.
  destruct (is_connected s) eqn:Hc; cbn [andb].
  - destruct (instrument (controller s)).
    + destruct (extends_safe_measure no_row (controller s) e Hp) as [Hx Hn].
      destruct (safe_measure (controller s) e) as [[[v i] c1] e1].
      simpl in Hx, Hn. simpl snd.
      split; [eapply extends_trans;
                [exact Hx | apply extends_time_sleep; lra] |].
      split; [simpl; exact Hn | discriminate].
    + simpl. split; [apply extends_time_sleep; lra |].
      split; [lia | discriminate].
  - simpl. split; [apply extends_time_sleep; lra |].
    split; [lia |]. intros _. split; reflexivity.
Qed.

Lemma monitor_countdown_matches_cutoff_witness :
  voltage_status 2.5 fading_controller (clock fading_env) = VoltageLow 0
  /\ fst (fst (check_voltage_cutoff 2.5 fading_controller fading_env)) = true
  /\ (calls (snd (monitor_pass fading_session fading_env))
      <= calls fading_env + 4)%nat.
Proof.
  destruct (monitor_countdown_matches_cutoff 2.5 fading_session fading_env)
    as (Hiff & _ & Hcalls & _).
  - apply punctual_steady.
  - intros _. discriminate.
  - assert (Hlow : voltage_status 2.5 fading_controller (clock fading_env)
                   = VoltageLow 0).
    { unfold voltage_status. simpl.
      rewrite (Rltb_false 10 (102 - 101.5)) by lra.
      rewrite (Rleb_true 2.5 2.75) by lra.
      rewrite Rmax_left by lra. reflexivity. }
    split; [exact Hlow |]. split; [| exact Hcalls].
    apply Hiff. exact Hlow.
Defined.
